(** * BOTPW2.0: the clip pipeline of [scripts/clip_creator.py] and the
      upload client of [scripts/youtube_uploader.py]

    A shallow embedding of the Python sources.  Pure code (the time codec)
    becomes pure functions returning a Python-style result; effectful code
    (sub-processes, the file system, the YouTube API) becomes a state and
    exception monad over a world made of a file system and a trace of
    external interactions, with the answers of the outside world supplied
    by an explicit environment record.

    What the outside world may do:
    - a sub-process ([yt-dlp], [ffmpeg]) exits with any status or makes
      [subprocess.run] raise, and may or may not write its output file;
    - the thumbnail enhancer (the scripted browser session of
      [thumbnail_generator.py]) returns either boolean or raises, with or
      without an output file, or its module fails to import;
    - building the API client, [videos().insert], every [next_chunk] call
      and [thumbnails().set] succeed or raise;
    - the removal of a file and the copy of a file may be refused by the
      system;
    - an expired token is refreshed and its pickle written back, and a
      failed session of the enhancer may leave a screenshot.
    Otherwise the file system is ideal: a file that exists can be read,
    and a path is the file of that name.  The log records, on the console
    and in [clip_creator.log], are left out. *)

From Stdlib Require Import ZArith Lia String Ascii List.
From stdpp Require Import base numbers strings pretty gmap list.

Local Open Scope string_scope.
Local Open Scope Z_scope.

(* ================================================================== *)
(** * Python exceptions and results                                    *)
(* ================================================================== *)

(** The exception classes that the sources raise or catch.  In Python 3
    [IOError] is an alias of [OSError]; [HttpError] (googleapiclient) and
    [HttpLib2Error] derive from [Exception] directly. *)
Inductive exn : Type :=
| ValueError (msg : string)
| HttpError (status : Z) (content : string)
| HttpLib2Error (msg : string)
| OSError (msg : string)
| TimeoutExpired
| ImportError (msg : string)
| OtherException (msg : string).

(** [str(e)], the text of an exception.  The sources store it in the
    outcome of a clip, and the retry loop tests whether it is empty. *)
Definition str_of_exn (e : exn) : string :=
  match e with
  | ValueError m => m
  | HttpError st c => "HttpError " +:+ pretty st +:+ ": " +:+ c
  | HttpLib2Error m => m
  | OSError m => m
  | TimeoutExpired => "TimeoutExpired"
  | ImportError m => m
  | OtherException m => m
  end.

(** The result of a Python call: a value, or a raised exception. *)
Inductive res (A : Type) : Type :=
| Ret (a : A)
| Raise (e : exn).
Arguments Ret {A} a.
Arguments Raise {A} e.


(* ================================================================== *)
(** * Python strings                                                   *)
(* ================================================================== *)

(** A [string] of this development is a byte string.  It stands for the
    Python [str] that decoding it as UTF-8 with the [surrogateescape]
    error handler gives, the way CPython reads the command line and the
    names of files: a well-formed UTF-8 sequence is one character, and any
    other byte [b] is the one character U+DC00+[b].  Text files and JSON
    documents read as UTF-8 give such strings.  The character tables are
    those of Unicode 14.0, the version of CPython 3.11. *)
Module PyStr.

(** ** Bytes and characters *)

Definition byte (c : ascii) : Z := Z.of_nat (nat_of_ascii c).

Definition ascii_of (n : Z) : ascii := ascii_of_nat (Z.to_nat n).

Definition in_range (lo hi : Z) (c : ascii) : bool :=
  (lo <=? byte c) && (byte c <=? hi).

(** A continuation byte. *)
Definition cont : ascii -> bool := in_range 128 191.

(** The well-formed sequences of two, three and four bytes (Unicode,
    table 3-7): no overlong form, no surrogate, nothing above U+10FFFF. *)
Definition valid2 (l : list ascii) : bool :=
  match l with
  | b0 :: b1 :: _ => in_range 194 223 b0 && cont b1
  | _ => false
  end.

Definition valid3 (l : list ascii) : bool :=
  match l with
  | b0 :: b1 :: b2 :: _ =>
      (in_range 224 224 b0 && in_range 160 191 b1
       || in_range 225 236 b0 && cont b1
       || in_range 237 237 b0 && in_range 128 159 b1
       || in_range 238 239 b0 && cont b1)
      && cont b2
  | _ => false
  end.

Definition valid4 (l : list ascii) : bool :=
  match l with
  | b0 :: b1 :: b2 :: b3 :: _ =>
      (in_range 240 240 b0 && in_range 144 191 b1
       || in_range 241 243 b0 && cont b1
       || in_range 244 244 b0 && in_range 128 143 b1)
      && cont b2 && cont b3
  | _ => false
  end.

(** The number of bytes of the first character of a non-empty [l]. *)
Definition first_len (l : list ascii) : nat :=
  if valid2 l then 2 else if valid3 l then 3 else if valid4 l then 4 else 1.

(** The characters of a byte sequence, each as the bytes that encode it;
    [skip] bytes still belong to the character before. *)
Fixpoint chunks_aux (skip : nat) (l : list ascii) : list (list ascii) :=
  match l with
  | [] => []
  | _ :: l' =>
      match skip with
      | S n => chunks_aux n l'
      | O => take (first_len l) l :: chunks_aux (first_len l - 1) l'
      end
  end.

Definition chunks (l : list ascii) : list (list ascii) := chunks_aux 0 l.

(** [ord(c)] of a character given by its bytes. *)
Definition code_point (c : list ascii) : Z :=
  match c with
  | [b0] => if byte b0 <? 128 then byte b0 else 56320 + byte b0
  | [b0; b1] => (byte b0 - 192) * 64 + (byte b1 - 128)
  | [b0; b1; b2] =>
      (byte b0 - 224) * 4096 + (byte b1 - 128) * 64 + (byte b2 - 128)
  | [b0; b1; b2; b3] =>
      (byte b0 - 240) * 262144 + (byte b1 - 128) * 4096
      + (byte b2 - 128) * 64 + (byte b3 - 128)
  | _ => 0
  end.

Definition chars (s : string) : list (list ascii) :=
  chunks (list_ascii_of_string s).

Definition str_of_chars (cs : list (list ascii)) : string :=
  string_of_list_ascii (concat cs).

(** [[ord(c) for c in s]]. *)
Definition code_points (s : string) : list Z := code_point <$> chars s.

(** [len(s)] and [s[:n]]. *)
Definition str_len (s : string) : nat := length (chars s).

Definition str_slice_to (n : nat) (s : string) : string :=
  str_of_chars (take n (chars s)).

(** ** Character classes *)

(** The white space above U+007F. *)
Definition unicode_spaces : list Z :=
  [ 133; 160; 5760; 8192; 8193; 8194; 8195; 8196; 8197; 8198;
    8199; 8200; 8201; 8202; 8232; 8233; 8239; 8287; 12288 ].

(** [c.isspace()]. *)
Definition isspace (cp : Z) : bool :=
  ((9 <=? cp) && (cp <=? 13)) || ((28 <=? cp) && (cp <=? 32))
  || bool_decide (cp ∈ unicode_spaces).

(** The digits zero of the decimal number systems above U+007F; each is
    followed by its digits one to nine. *)
Definition decimal_zeros : list Z :=
  [ 1632; 1776; 1984; 2406; 2534; 2662; 2790; 2918;
    3046; 3174; 3302; 3430; 3558; 3664; 3792; 3872;
    4160; 4240; 6112; 6160; 6470; 6608; 6784; 6800;
    6992; 7088; 7232; 7248; 42528; 43216; 43264; 43472;
    43504; 43600; 44016; 65296; 66720; 68912; 69734; 69872;
    69942; 70096; 70384; 70736; 70864; 71248; 71360; 71472;
    71904; 72016; 72784; 73040; 73120; 92768; 92864; 93008;
    120782; 120792; 120802; 120812; 120822; 123200; 123632; 125264;
    130032 ].

(** [unicodedata.decimal(c)], if any: the class [\d] of the regular
    expressions, and the digits that [int()] reads. *)
Definition decimal (cp : Z) : option Z :=
  if cp <? 128 then
    if (48 <=? cp) && (cp <=? 57) then Some (cp - 48) else None
  else
    (fun z => cp - z)
      <$> find (fun z => (z <=? cp) && (cp <=? z + 9)) decimal_zeros.

(** The code points above U+007F that are not printable: controls,
    formats, surrogates, private use, unassigned, separators. *)
Definition nonprintable_ranges : list (Z * Z) :=
  [ (128, 160); (173, 173); (888, 889); (896, 899);
    (907, 907); (909, 909); (930, 930); (1328, 1328);
    (1367, 1368); (1419, 1420); (1424, 1424); (1480, 1487);
    (1515, 1518); (1525, 1541); (1564, 1564); (1757, 1757);
    (1806, 1807); (1867, 1868); (1970, 1983); (2043, 2044);
    (2094, 2095); (2111, 2111); (2140, 2141); (2143, 2143);
    (2155, 2159); (2191, 2199); (2274, 2274); (2436, 2436);
    (2445, 2446); (2449, 2450); (2473, 2473); (2481, 2481);
    (2483, 2485); (2490, 2491); (2501, 2502); (2505, 2506);
    (2511, 2518); (2520, 2523); (2526, 2526); (2532, 2533);
    (2559, 2560); (2564, 2564); (2571, 2574); (2577, 2578);
    (2601, 2601); (2609, 2609); (2612, 2612); (2615, 2615);
    (2618, 2619); (2621, 2621); (2627, 2630); (2633, 2634);
    (2638, 2640); (2642, 2648); (2653, 2653); (2655, 2661);
    (2679, 2688); (2692, 2692); (2702, 2702); (2706, 2706);
    (2729, 2729); (2737, 2737); (2740, 2740); (2746, 2747);
    (2758, 2758); (2762, 2762); (2766, 2767); (2769, 2783);
    (2788, 2789); (2802, 2808); (2816, 2816); (2820, 2820);
    (2829, 2830); (2833, 2834); (2857, 2857); (2865, 2865);
    (2868, 2868); (2874, 2875); (2885, 2886); (2889, 2890);
    (2894, 2900); (2904, 2907); (2910, 2910); (2916, 2917);
    (2936, 2945); (2948, 2948); (2955, 2957); (2961, 2961);
    (2966, 2968); (2971, 2971); (2973, 2973); (2976, 2978);
    (2981, 2983); (2987, 2989); (3002, 3005); (3011, 3013);
    (3017, 3017); (3022, 3023); (3025, 3030); (3032, 3045);
    (3067, 3071); (3085, 3085); (3089, 3089); (3113, 3113);
    (3130, 3131); (3141, 3141); (3145, 3145); (3150, 3156);
    (3159, 3159); (3163, 3164); (3166, 3167); (3172, 3173);
    (3184, 3190); (3213, 3213); (3217, 3217); (3241, 3241);
    (3252, 3252); (3258, 3259); (3269, 3269); (3273, 3273);
    (3278, 3284); (3287, 3292); (3295, 3295); (3300, 3301);
    (3312, 3312); (3315, 3327); (3341, 3341); (3345, 3345);
    (3397, 3397); (3401, 3401); (3408, 3411); (3428, 3429);
    (3456, 3456); (3460, 3460); (3479, 3481); (3506, 3506);
    (3516, 3516); (3518, 3519); (3527, 3529); (3531, 3534);
    (3541, 3541); (3543, 3543); (3552, 3557); (3568, 3569);
    (3573, 3584); (3643, 3646); (3676, 3712); (3715, 3715);
    (3717, 3717); (3723, 3723); (3748, 3748); (3750, 3750);
    (3774, 3775); (3781, 3781); (3783, 3783); (3790, 3791);
    (3802, 3803); (3808, 3839); (3912, 3912); (3949, 3952);
    (3992, 3992); (4029, 4029); (4045, 4045); (4059, 4095);
    (4294, 4294); (4296, 4300); (4302, 4303); (4681, 4681);
    (4686, 4687); (4695, 4695); (4697, 4697); (4702, 4703);
    (4745, 4745); (4750, 4751); (4785, 4785); (4790, 4791);
    (4799, 4799); (4801, 4801); (4806, 4807); (4823, 4823);
    (4881, 4881); (4886, 4887); (4955, 4956); (4989, 4991);
    (5018, 5023); (5110, 5111); (5118, 5119); (5760, 5760);
    (5789, 5791); (5881, 5887); (5910, 5918); (5943, 5951);
    (5972, 5983); (5997, 5997); (6001, 6001); (6004, 6015);
    (6110, 6111); (6122, 6127); (6138, 6143); (6158, 6158);
    (6170, 6175); (6265, 6271); (6315, 6319); (6390, 6399);
    (6431, 6431); (6444, 6447); (6460, 6463); (6465, 6467);
    (6510, 6511); (6517, 6527); (6572, 6575); (6602, 6607);
    (6619, 6621); (6684, 6685); (6751, 6751); (6781, 6782);
    (6794, 6799); (6810, 6815); (6830, 6831); (6863, 6911);
    (6989, 6991); (7039, 7039); (7156, 7163); (7224, 7226);
    (7242, 7244); (7305, 7311); (7355, 7356); (7368, 7375);
    (7419, 7423); (7958, 7959); (7966, 7967); (8006, 8007);
    (8014, 8015); (8024, 8024); (8026, 8026); (8028, 8028);
    (8030, 8030); (8062, 8063); (8117, 8117); (8133, 8133);
    (8148, 8149); (8156, 8156); (8176, 8177); (8181, 8181);
    (8191, 8207); (8232, 8239); (8287, 8303); (8306, 8307);
    (8335, 8335); (8349, 8351); (8385, 8399); (8433, 8447);
    (8588, 8591); (9255, 9279); (9291, 9311); (11124, 11125);
    (11158, 11158); (11508, 11512); (11558, 11558); (11560, 11564);
    (11566, 11567); (11624, 11630); (11633, 11646); (11671, 11679);
    (11687, 11687); (11695, 11695); (11703, 11703); (11711, 11711);
    (11719, 11719); (11727, 11727); (11735, 11735); (11743, 11743);
    (11870, 11903); (11930, 11930); (12020, 12031); (12246, 12271);
    (12284, 12288); (12352, 12352); (12439, 12440); (12544, 12548);
    (12592, 12592); (12687, 12687); (12772, 12783); (12831, 12831);
    (42125, 42127); (42183, 42191); (42540, 42559); (42744, 42751);
    (42955, 42959); (42962, 42962); (42964, 42964); (42970, 42993);
    (43053, 43055); (43066, 43071); (43128, 43135); (43206, 43213);
    (43226, 43231); (43348, 43358); (43389, 43391); (43470, 43470);
    (43482, 43485); (43519, 43519); (43575, 43583); (43598, 43599);
    (43610, 43611); (43715, 43738); (43767, 43776); (43783, 43784);
    (43791, 43792); (43799, 43807); (43815, 43815); (43823, 43823);
    (43884, 43887); (44014, 44015); (44026, 44031); (55204, 55215);
    (55239, 55242); (55292, 63743); (64110, 64111); (64218, 64255);
    (64263, 64274); (64280, 64284); (64311, 64311); (64317, 64317);
    (64319, 64319); (64322, 64322); (64325, 64325); (64451, 64466);
    (64912, 64913); (64968, 64974); (64976, 65007); (65050, 65055);
    (65107, 65107); (65127, 65127); (65132, 65135); (65141, 65141);
    (65277, 65280); (65471, 65473); (65480, 65481); (65488, 65489);
    (65496, 65497); (65501, 65503); (65511, 65511); (65519, 65531);
    (65534, 65535); (65548, 65548); (65575, 65575); (65595, 65595);
    (65598, 65598); (65614, 65615); (65630, 65663); (65787, 65791);
    (65795, 65798); (65844, 65846); (65935, 65935); (65949, 65951);
    (65953, 65999); (66046, 66175); (66205, 66207); (66257, 66271);
    (66300, 66303); (66340, 66348); (66379, 66383); (66427, 66431);
    (66462, 66462); (66500, 66503); (66518, 66559); (66718, 66719);
    (66730, 66735); (66772, 66775); (66812, 66815); (66856, 66863);
    (66916, 66926); (66939, 66939); (66955, 66955); (66963, 66963);
    (66966, 66966); (66978, 66978); (66994, 66994); (67002, 67002);
    (67005, 67071); (67383, 67391); (67414, 67423); (67432, 67455);
    (67462, 67462); (67505, 67505); (67515, 67583); (67590, 67591);
    (67593, 67593); (67638, 67638); (67641, 67643); (67645, 67646);
    (67670, 67670); (67743, 67750); (67760, 67807); (67827, 67827);
    (67830, 67834); (67868, 67870); (67898, 67902); (67904, 67967);
    (68024, 68027); (68048, 68049); (68100, 68100); (68103, 68107);
    (68116, 68116); (68120, 68120); (68150, 68151); (68155, 68158);
    (68169, 68175); (68185, 68191); (68256, 68287); (68327, 68330);
    (68343, 68351); (68406, 68408); (68438, 68439); (68467, 68471);
    (68498, 68504); (68509, 68520); (68528, 68607); (68681, 68735);
    (68787, 68799); (68851, 68857); (68904, 68911); (68922, 69215);
    (69247, 69247); (69290, 69290); (69294, 69295); (69298, 69375);
    (69416, 69423); (69466, 69487); (69514, 69551); (69580, 69599);
    (69623, 69631); (69710, 69713); (69750, 69758); (69821, 69821);
    (69827, 69839); (69865, 69871); (69882, 69887); (69941, 69941);
    (69960, 69967); (70007, 70015); (70112, 70112); (70133, 70143);
    (70162, 70162); (70207, 70271); (70279, 70279); (70281, 70281);
    (70286, 70286); (70302, 70302); (70314, 70319); (70379, 70383);
    (70394, 70399); (70404, 70404); (70413, 70414); (70417, 70418);
    (70441, 70441); (70449, 70449); (70452, 70452); (70458, 70458);
    (70469, 70470); (70473, 70474); (70478, 70479); (70481, 70486);
    (70488, 70492); (70500, 70501); (70509, 70511); (70517, 70655);
    (70748, 70748); (70754, 70783); (70856, 70863); (70874, 71039);
    (71094, 71095); (71134, 71167); (71237, 71247); (71258, 71263);
    (71277, 71295); (71354, 71359); (71370, 71423); (71451, 71452);
    (71468, 71471); (71495, 71679); (71740, 71839); (71923, 71934);
    (71943, 71944); (71946, 71947); (71956, 71956); (71959, 71959);
    (71990, 71990); (71993, 71994); (72007, 72015); (72026, 72095);
    (72104, 72105); (72152, 72153); (72165, 72191); (72264, 72271);
    (72355, 72367); (72441, 72703); (72713, 72713); (72759, 72759);
    (72774, 72783); (72813, 72815); (72848, 72849); (72872, 72872);
    (72887, 72959); (72967, 72967); (72970, 72970); (73015, 73017);
    (73019, 73019); (73022, 73022); (73032, 73039); (73050, 73055);
    (73062, 73062); (73065, 73065); (73103, 73103); (73106, 73106);
    (73113, 73119); (73130, 73439); (73465, 73647); (73649, 73663);
    (73714, 73726); (74650, 74751); (74863, 74863); (74869, 74879);
    (75076, 77711); (77811, 77823); (78895, 82943); (83527, 92159);
    (92729, 92735); (92767, 92767); (92778, 92781); (92863, 92863);
    (92874, 92879); (92910, 92911); (92918, 92927); (92998, 93007);
    (93018, 93018); (93026, 93026); (93048, 93052); (93072, 93759);
    (93851, 93951); (94027, 94030); (94088, 94094); (94112, 94175);
    (94181, 94191); (94194, 94207); (100344, 100351); (101590, 101631);
    (101641, 110575); (110580, 110580); (110588, 110588); (110591, 110591);
    (110883, 110927); (110931, 110947); (110952, 110959); (111356, 113663);
    (113771, 113775); (113789, 113791); (113801, 113807); (113818, 113819);
    (113824, 118527); (118574, 118575); (118599, 118607); (118724, 118783);
    (119030, 119039); (119079, 119080); (119155, 119162); (119275, 119295);
    (119366, 119519); (119540, 119551); (119639, 119647); (119673, 119807);
    (119893, 119893); (119965, 119965); (119968, 119969); (119971, 119972);
    (119975, 119976); (119981, 119981); (119994, 119994); (119996, 119996);
    (120004, 120004); (120070, 120070); (120075, 120076); (120085, 120085);
    (120093, 120093); (120122, 120122); (120127, 120127); (120133, 120133);
    (120135, 120137); (120145, 120145); (120486, 120487); (120780, 120781);
    (121484, 121498); (121504, 121504); (121520, 122623); (122655, 122879);
    (122887, 122887); (122905, 122906); (122914, 122914); (122917, 122917);
    (122923, 123135); (123181, 123183); (123198, 123199); (123210, 123213);
    (123216, 123535); (123567, 123583); (123642, 123646); (123648, 124895);
    (124903, 124903); (124908, 124908); (124911, 124911); (124927, 124927);
    (125125, 125126); (125143, 125183); (125260, 125263); (125274, 125277);
    (125280, 126064); (126133, 126208); (126270, 126463); (126468, 126468);
    (126496, 126496); (126499, 126499); (126501, 126502); (126504, 126504);
    (126515, 126515); (126520, 126520); (126522, 126522); (126524, 126529);
    (126531, 126534); (126536, 126536); (126538, 126538); (126540, 126540);
    (126544, 126544); (126547, 126547); (126549, 126550); (126552, 126552);
    (126554, 126554); (126556, 126556); (126558, 126558); (126560, 126560);
    (126563, 126563); (126565, 126566); (126571, 126571); (126579, 126579);
    (126584, 126584); (126589, 126589); (126591, 126591); (126602, 126602);
    (126620, 126624); (126628, 126628); (126634, 126634); (126652, 126703);
    (126706, 126975); (127020, 127023); (127124, 127135); (127151, 127152);
    (127168, 127168); (127184, 127184); (127222, 127231); (127406, 127461);
    (127491, 127503); (127548, 127551); (127561, 127567); (127570, 127583);
    (127590, 127743); (128728, 128732); (128749, 128751); (128765, 128767);
    (128884, 128895); (128985, 128991); (129004, 129007); (129009, 129023);
    (129036, 129039); (129096, 129103); (129114, 129119); (129160, 129167);
    (129198, 129199); (129202, 129279); (129620, 129631); (129646, 129647);
    (129653, 129655); (129661, 129663); (129671, 129679); (129709, 129711);
    (129723, 129727); (129734, 129743); (129754, 129759); (129768, 129775);
    (129783, 129791); (129939, 129939); (129995, 130031); (130042, 131071);
    (173792, 173823); (177977, 177983); (178206, 178207); (183970, 183983);
    (191457, 194559); (195102, 196607); (201547, 917759); (918000, 1114111) ].

(** [c.isprintable()]. *)
Definition isprintable (cp : Z) : bool :=
  if cp <? 128 then (32 <=? cp) && (cp <? 127)
  else negb (existsb (fun r => (r.1 <=? cp) && (cp <=? r.2))
               nonprintable_ranges).

(** ** [str.strip()] *)

Fixpoint lstrip_chars (cs : list (list ascii)) : list (list ascii) :=
  match cs with
  | [] => []
  | c :: cs' => if isspace (code_point c) then lstrip_chars cs' else cs
  end.

Definition str_strip (s : string) : string :=
  str_of_chars (reverse (lstrip_chars (reverse (lstrip_chars (chars s))))).

(** ** [repr(s)] *)

Definition hex_digit (n : Z) : ascii :=
  ascii_of (if n <? 10 then 48 + n else 87 + n).

(** [n] in hexadecimal on [width] digits, one character per digit. *)
Fixpoint hex (width : nat) (n : Z) : list (list ascii) :=
  match width with
  | O => []
  | S w => (hex w (n / 16) ++ [[hex_digit (n mod 16)]])%list
  end.

Definition backslash : list ascii := [ascii_of 92].

(** What [repr] prints for one character, [quote] being the quotation
    mark in use. *)
Definition repr_char (quote : Z) (c : list ascii) : list (list ascii) :=
  let cp := code_point c in
  if (cp =? quote) || (cp =? 92) then [backslash; c]
  else if cp =? 9 then [backslash; ["t"%char]]
  else if cp =? 10 then [backslash; ["n"%char]]
  else if cp =? 13 then [backslash; ["r"%char]]
  else if (cp <? 32) || (cp =? 127) then
    (backslash :: ["x"%char] :: hex 2 cp)%list
  else if cp <? 127 then [c]
  else if isprintable cp then [c]
  else if cp <=? 255 then (backslash :: ["x"%char] :: hex 2 cp)%list
  else if cp <=? 65535 then (backslash :: ["u"%char] :: hex 4 cp)%list
  else (backslash :: ["U"%char] :: hex 8 cp)%list.

(** The characters of [repr(s)]: single quotes, unless the text has a
    single quote and no double quote. *)
Definition repr_chars (s : string) : list (list ascii) :=
  let cps := code_points s in
  let quote :=
    if bool_decide (39 ∈ cps) && negb (bool_decide (34 ∈ cps))
    then 34 else 39 in
  ([[ascii_of quote]] ++ concat (repr_char quote <$> chars s)
   ++ [[ascii_of quote]])%list.

Definition str_repr (s : string) : string := str_of_chars (repr_chars s).

(** The conversion [%.<precision>R] of the interpreter's own messages:
    [repr(s)] cut after [precision] characters. *)
Definition format_R (precision : nat) (s : string) : string :=
  str_of_chars (take precision (repr_chars s)).

End PyStr.
(* ================================================================== *)
(** * Time codec ([time_to_seconds], [seconds_to_time])                *)
(* ================================================================== *)

Module TimeCodec.

(** ** [str.split(':')] *)

Definition colon : ascii := ":"%char.

(** Python's [s.split(':')]: the fields between the separators; never the
    empty list ([''.split(':') == ['']]). *)
Fixpoint split_colon (s : string) : list string :=
  match s with
  | EmptyString => [ "" ]
  | String c s' =>
      if Ascii.eqb c colon then "" :: split_colon s'
      else match split_colon s' with
           | [] => [ String c "" ]
           | p :: ps => String c p :: ps
           end
  end.

(** ** [int(text)] *)

(** The value of an ASCII decimal digit. *)
Definition digit_val (c : ascii) : option Z :=
  let n := Z.of_nat (nat_of_ascii c) in
  if (48 <=? n) && (n <=? 57) then Some (n - 48) else None.

Definition string_empty (s : string) : bool :=
  match s with EmptyString => true | _ => false end.

(** White space as [int()] skips it.  The interpreter first rewrites the
    characters above U+007F, a space to a blank and a decimal digit to
    its ASCII digit, and then reads ASCII: TAB..CR and the blank are
    skipped; FS..US, which [str.strip] removes, are not. *)
Definition is_int_space (cp : Z) : bool :=
  ((9 <=? cp) && (cp <=? 13)) || (cp =? 32)
  || ((128 <=? cp) && PyStr.isspace cp).

Fixpoint skip_spaces (l : list Z) : list Z :=
  match l with
  | [] => []
  | c :: l' => if is_int_space c then skip_spaces l' else l
  end.

(** The digits of a base-10 literal, read up to the first character
    that is neither a digit nor an underscore: the value read and what
    follows.  An underscore is allowed between two digits only; [prev]
    tells whether the previous character was a digit. *)
Fixpoint scan_digits (acc : Z) (prev : bool) (l : list Z)
  : option (Z * list Z) :=
  match l with
  | [] => if prev then Some (acc, []) else None
  | c :: l' =>
      match PyStr.decimal c with
      | Some d => scan_digits (10 * acc + d) true l'
      | None =>
          if c =? 95 then (if prev then scan_digits acc false l' else None)
          else if prev then Some (acc, l) else None
      end
  end.

(** [PyLong_FromString] in base 10 on the characters of the text: white
    space, an optional sign, the digits, white space, and nothing else. *)
Definition parse_int (l : list Z) : option Z :=
  let l1 := skip_spaces l in
  let signed :=
    match l1 with
    | c :: l2 =>
        if c =? 43 then (1, l2) else if c =? 45 then (-1, l2) else (1, l1)
    | [] => (1, l1)
    end in
  match scan_digits 0 false signed.2 with
  | Some (v, rest) =>
      if forallb is_int_space rest then Some (signed.1 * v) else None
  | None => None
  end.

(** [int(text)].  The message of the [ValueError] quotes the text with
    the conversion [%.200R].  The interpreter's adjustable limit on the
    number of digits of a conversion (4300 by default) is not
    modelled. *)
Definition py_int (text : string) : res Z :=
  match parse_int (PyStr.code_points text) with
  | Some v => Ret v
  | None =>
      Raise (ValueError ("invalid literal for int() with base 10: "
                         +:+ PyStr.format_R 200 text))
  end.

(** [map(int, parts)] unpacked into as many variables as there are parts:
    the conversions run left to right and the first failure is raised. *)
Fixpoint map_int (parts : list string) : res (list Z) :=
  match parts with
  | [] => Ret []
  | p :: ps =>
      match py_int p with
      | Raise e => Raise e
      | Ret v =>
          match map_int ps with
          | Raise e => Raise e
          | Ret vs => Ret (v :: vs)
          end
      end
  end.

(** ** The two conversions *)

(** [time_to_seconds], clip_creator.py lines 42-51. *)
Definition time_to_seconds (time_str : string) : res Z :=
  let parts := split_colon time_str in
  match parts with
  | [ _; _; _ ] =>
      match map_int parts with
      | Ret [ h; m; s ] => Ret (h * 3600 + m * 60 + s)
      | Ret _ => Raise (ValueError "unpack")
      | Raise e => Raise e
      end
  | [ _; _ ] =>
      match map_int parts with
      | Ret [ m; s ] => Ret (m * 60 + s)
      | Ret _ => Raise (ValueError "unpack")
      | Raise e => Raise e
      end
  | p0 :: _ => py_int p0
  | [] => Raise (OtherException "IndexError")
  end.

(** [format(z, '02d')]: sign, then the decimal digits padded with zeros on
    the left up to a total width of two. *)
Definition zeros (n : nat) : string := String.concat "" (replicate n "0").

Definition format_02d (z : Z) : string :=
  let digits := pretty (Z.abs_N z) in
  let sign := if z <? 0 then "-" else "" in
  sign +:+ zeros (2 - String.length sign - String.length digits) +:+ digits.

(** [seconds_to_time], clip_creator.py lines 54-59.  Python's [//] and [%]
    on integers are floor division and its remainder, as [Z.div] and
    [Z.modulo] are. *)
Definition seconds_to_time (seconds : Z) : string :=
  let h := seconds `div` 3600 in
  let m := (seconds `mod` 3600) `div` 60 in
  let s := seconds `mod` 60 in
  format_02d h +:+ ":" +:+ format_02d m +:+ ":" +:+ format_02d s.

End TimeCodec.

Import TimeCodec.

(* ================================================================== *)
(** * The world: file system, trace, and the answers of the outside    *)
(* ================================================================== *)

Definition path := string.
Definition content := string.

(** Clip Descriptor: the keys of the JSON object that the pipeline reads.
    [None] is a key absent from the object, so that
    [clip_data.get(key, d)] is [default d (key clip_data)]. *)
Record ClipData : Type := mkClipData {
  cd_clip_id : option string;
  cd_title : option string;
  cd_start_time : option string;
  cd_end_time : option string;
  cd_thumbnail_timestamp : option string;
  cd_recommended_description : option string;
  cd_tags : option (list string);
}.

Inductive Status : Type := Pending | Success | Failed | Error.

Global Instance Status_eq_dec : EqDecision Status.
Proof. solve_decision. Defined.

(** Clip Outcome: the [result] dictionary of [process_clip]. *)
Record ClipOutcome : Type := mkClipOutcome {
  co_clip_id : string;
  co_title : option string;
  co_status : Status;
  co_video_id : option string;
  co_error : option string;
}.

(** Batch Summary: the [summary] dictionary of [save_processing_log]. *)
Record Summary : Type := mkSummary {
  total_clips : nat;
  successful : nat;
  failed : nat;
  clips : list ClipOutcome;
}.

(** The request body built by [YouTubeUploader.upload]. *)
Record VideoBody : Type := mkVideoBody {
  vb_title : string;
  vb_description : string;
  vb_tags : list string;
  vb_categoryId : string;
  vb_privacyStatus : string;
}.

(** What the program does to the outside world, in order. *)
Inductive event : Type :=
| EvYtDlp (vod_url sections : string) (output : path)
| EvFfmpeg (ss : string) (input output : path)
| EvGenerate (image : path) (image_data : option content) (output : path)
| EvUploadStep (video thumbnail : path) (thumbnail_data : option content)
| EvBuildService
| EvVideosInsert (video : path) (video_data : option content) (body : VideoBody)
| EvNextChunk
| EvSleep (seconds_or_exponent : Z)
| EvThumbnailsSet (video_id : string) (thumbnail : path) (thumbnail_data : option content)
| EvUnlink (p : path)
| EvCopy (src dst : path)
| EvSaveLog (log : string) (s : Summary).

Record World : Type := mkWorld {
  fs : gmap string content;
  trace : list event;
}.

(** How a sub-process run by [subprocess.run] ends: it exits with a return
    code, or [subprocess.run] raises ([TimeoutExpired] after the time
    limit, or another exception).  Either way it may have written its
    output file first. *)
Inductive proc_result : Type :=
| Exited (returncode : Z) (stderr : string)
| ProcRaises (e : exn).

Record proc_outcome : Type := mkProc {
  proc_writes : option content;
  proc_result_of : proc_result;
}.

(** How the thumbnail enhancer ends: the import of its module fails, or
    [generate] returns a boolean or raises, possibly after writing the
    output file. *)
Inductive gen_outcome : Type :=
| GenImportFails (e : exn)
| GenReturns (success : bool) (writes : option content)
| GenRaises (e : exn) (writes : option content).

(** One answer of [insert_request.next_chunk()] before the final one: the
    transfer is still in progress (with or without a status object), or
    the call raises. *)
Inductive chunk_step : Type :=
| ChunkProgress (status : option Z)
| ChunkRaises (e : exn).

(** How a [shutil.copy] ends: the copy is made, or the system refuses
    it (no permission, no space left), possibly after it has begun to
    write the destination. *)
Inductive copy_outcome : Type :=
| CopyDone
| CopyRefused (msg : string) (partial : option content).

(** The files that the clients keep for themselves.  An expired token is
    refreshed and its pickle written back: the one of the upload client,
    at the path that the credentials name, and the Gmail token of the
    enhancer.  A session of the enhancer that ends in its [except] clause
    leaves a screenshot named after the clock. *)
Record side_files : Type := mkSideFiles {
  token_refresh : option (path * content);
  gmail_refresh : option content;
  screenshot : option (string * content);
}.

(** The answers of the outside world while one clip is processed.  The
    answers of [next_chunk] are a finite list of non-final answers followed
    by the final response dictionary: the media file is finite, so the
    server cannot report progress for ever.  Whether a copy is refused
    may depend on everything that happened before it. *)
Record ClipEnv : Type := mkClipEnv {
  env_download : proc_outcome;
  env_capture : proc_outcome;
  env_generate : gen_outcome;
  env_build_service : option exn;
  env_insert : option exn;
  env_chunks : list chunk_step;
  env_response : gmap string string;
  env_thumbnails_set : option exn;
  env_unlink : path -> option exn;
  env_copy : list event -> path -> path -> copy_outcome;
  env_side : side_files;
}.

(* ================================================================== *)
(** * The state and exception monad                                    *)
(* ================================================================== *)

Definition M (A : Type) : Type := World -> res A * World.

Definition ret {A} (a : A) : M A := fun w => (Ret a, w).
Definition raise {A} (e : exn) : M A := fun w => (Raise e, w).

Definition bind {A B} (m : M A) (k : A -> M B) : M B :=
  fun w => match m w with
           | (Ret a, w') => k a w'
           | (Raise e, w') => (Raise e, w')
           end.

Notation "x <- m ;; k" := (bind m (fun x => k))
  (at level 100, m at next level, right associativity).
Notation "m ;;; k" := (bind m (fun _ => k))
  (at level 100, right associativity).

Definition lift_res {A} (r : res A) : M A := fun w => (r, w).

(** [try: body except Exception as e: handler e]. *)
Definition try_except {A} (body : M A) (handler : exn -> M A) : M A :=
  fun w => match body w with
           | (Ret a, w') => (Ret a, w')
           | (Raise e, w') => handler e w'
           end.

(** [try: body finally: final].  The body's value or exception is kept
    unless [final] itself raises. *)
Definition try_finally {A} (body : M A) (final : M unit) : M A :=
  fun w => match body w with
           | (r, w') =>
               match final w' with
               | (Ret _, w'') => (r, w'')
               | (Raise e, w'') => (Raise e, w'')
               end
           end.

Definition emit (ev : event) : M unit :=
  fun w => (Ret tt, mkWorld (fs w) (trace w ++ [ev])).

(** [Path.exists()]. *)
Definition path_exists (p : path) : M bool :=
  fun w => (Ret (bool_decide (is_Some (fs w !! p))), w).

Definition read_file (p : path) : M (option content) :=
  fun w => (Ret (fs w !! p), w).

Definition write_file (p : path) (c : content) : M unit :=
  fun w => (Ret tt, mkWorld (<[p := c]> (fs w)) (trace w)).

Definition maybe_write (p : path) (c : option content) : M unit :=
  match c with Some d => write_file p d | None => ret tt end.

(** The [FileNotFoundError] of the system for the path [p]. *)
Definition no_such_file (p : path) : exn :=
  OSError ("[Errno 2] No such file or directory: " +:+ PyStr.str_repr p).

(** Writing back a file that was opened for reading before: nothing
    is written where there is no such file. *)
Definition rewrite_existing (p : path) (c : option content) : M unit :=
  ex <- path_exists p ;;
  if ex then maybe_write p c else ret tt.

(** The [SameFileError] of [shutil], an [OSError], for two [Path]s. *)
Definition same_file (src dst : path) : exn :=
  OSError ("PosixPath(" +:+ PyStr.str_repr src +:+ ") and PosixPath("
           +:+ PyStr.str_repr dst +:+ ") are the same file").

(** [shutil.copy(src, dst)]: an existing file is not copied onto itself,
    the source must exist, and the system may refuse to write the
    destination. *)
Definition shutil_copy (env : ClipEnv) (src dst : path) : M unit :=
  emit (EvCopy src dst) ;;;
  d <- read_file src ;;
  match d with
  | None => raise (no_such_file src)
  | Some c =>
      if decide (src = dst) then raise (same_file src dst)
      else fun w =>
        match env_copy env (trace w) src dst with
        | CopyDone => write_file dst c w
        | CopyRefused msg partial =>
            (maybe_write dst partial ;;; raise (OSError msg)) w
        end
  end.

(** [Path.unlink()]: the removal may be refused by the system. *)
Definition unlink (env : ClipEnv) (p : path) : M unit :=
  emit (EvUnlink p) ;;;
  match env_unlink env p with
  | Some e => raise e
  | None =>
      fun w => match fs w !! p with
               | Some _ => (Ret tt, mkWorld (delete p (fs w)) (trace w))
               | None => (Raise (no_such_file p), w)
               end
  end.

(** The parts of [s] between slashes ([s.split('/')]). *)
Fixpoint split_slash (s : string) : list string :=
  match s with
  | EmptyString => [ "" ]
  | String c s' =>
      if Ascii.eqb c "/" then "" :: split_slash s'
      else match split_slash s' with
           | [] => [ String c "" ]
           | p :: ps => String c p :: ps
           end
  end.

(** The components that [pathlib] keeps of a path: the parts that are
    neither empty nor ["."]. *)
Definition path_parts (s : string) : list string :=
  filter (fun part => part <> "" /\ part <> ".") (split_slash s).

Fixpoint leading_slashes (s : string) : nat :=
  match s with
  | String c s' => if Ascii.eqb c "/" then S (leading_slashes s') else 0%nat
  | EmptyString => 0%nat
  end.

(** The root of a POSIX path: one slash, except that exactly two leading
    slashes are kept. *)
Definition path_root (s : string) : string :=
  match leading_slashes s with
  | 0%nat => ""
  | 2%nat => "//"
  | _ => "/"
  end.

(** [str(Path(dir) / name)]: an absolute [name] replaces [dir], and the
    components are joined by single slashes. *)
Definition path_join (dir name : string) : path :=
  let joined :=
    if string_empty (path_root name)
    then path_root dir +:+ String.concat "/" (path_parts dir ++ path_parts name)
    else path_root name +:+ String.concat "/" (path_parts name) in
  if string_empty joined then "." else joined.

Definition TEMP_DIR : path := "temp_clips".
Definition PROCESSING_LOG : path := "processing_log.json".

(** Truthiness of an optional string ([if video_id:]). *)
Definition truthy (v : option string) : bool :=
  match v with
  | Some (String _ _) => true
  | _ => false
  end.

(* ================================================================== *)
(** * Upload client ([youtube_uploader.py])                            *)
(* ================================================================== *)

Module YouTubeUploader.

(** [str.lower()] is used to compare a text with ASCII words only (the
    keys of the category table, a header name).  Lowering the ASCII
    letters decides those comparisons as Python does: the only
    characters above U+007F whose lower case has an ASCII letter are
    U+0130, which gives [i] followed by a combining dot, and the Kelvin
    sign, which gives [k], a letter that no word compared has. *)
Definition ascii_lower (c : ascii) : ascii :=
  let n := nat_of_ascii c in
  if ((65 <=? n) && (n <=? 90))%nat then ascii_of_nat (n + 32) else c.

Fixpoint str_lower (s : string) : string :=
  match s with
  | EmptyString => ""
  | String c s' => String (ascii_lower c) (str_lower s')
  end.

Definition YOUTUBE_CATEGORIES : gmap string string :=
  list_to_map
    [ ("gaming", "20"); ("entertainment", "24"); ("people", "22");
      ("comedy", "23"); ("howto", "26"); ("education", "27");
      ("science", "28"); ("travel", "19"); ("IRL", "22"); ("react", "24");
      ("music", "10") ].

Definition MAX_RETRIES : Z := 5.
Definition RETRIABLE_STATUS_CODES : list Z := [500; 502; 503; 504].

(** [isinstance(e, RETRIABLE_EXCEPTIONS)], that is
    [(httplib2.HttpLib2Error, IOError)]. *)
Definition is_retriable_exception (e : exn) : bool :=
  match e with
  | HttpLib2Error _ | OSError _ => true
  | _ => false
  end.

(** [YouTubeUploader(credentials)]: [_build_service], lines 58-83, loads
    the token, writes it back when it had to be refreshed, and builds the
    API client, or raises. *)
Definition __init__ (env : ClipEnv) : M unit :=
  emit EvBuildService ;;;
  match token_refresh (env_side env) with
  | Some (pkl_file, creds) => rewrite_existing pkl_file (Some creds)
  | None => ret tt
  end ;;;
  match env_build_service env with
  | Some e => raise e
  | None => ret tt
  end.

Definition _get_category_id (category : string) : string :=
  default "22" (YOUTUBE_CATEGORIES !! str_lower category).

(** The [while response is None] loop of [_resumable_upload], lines
    95-122, started with the counter [retry] and the answers that
    [next_chunk] still has to give.  The handler of [HttpError] comes
    first; its [error] text is never empty.  The text of a retriable
    exception is [str(e)], and [if error:] skips the retry accounting when
    that text is empty. *)
Fixpoint resumable_loop (response : gmap string string)
    (steps : list chunk_step) (retry : Z) : M (option string) :=
  match steps with
  | [] =>
      emit EvNextChunk ;;;
      ret (response !! "id")
  | step :: rest =>
      emit EvNextChunk ;;;
      let on_error : M (option string) :=
        let retry := retry + 1 in
        if MAX_RETRIES <? retry then ret None
        else emit (EvSleep retry) ;;; resumable_loop response rest retry in
      match step with
      | ChunkProgress _ => resumable_loop response rest retry
      | ChunkRaises (HttpError st c) =>
          if bool_decide (st ∈ RETRIABLE_STATUS_CODES) then on_error
          else raise (HttpError st c)
      | ChunkRaises e =>
          if is_retriable_exception e then
            (* [error = str(e)], then [if error:] *)
            if string_empty (str_of_exn e)
            then resumable_loop response rest retry
            else on_error
          else raise e
      end
  end.

(** [_resumable_upload], lines 89-127. *)
Definition _resumable_upload (env : ClipEnv) : M (option string) :=
  resumable_loop (env_response env) (env_chunks env) 0.

(** [_set_thumbnail], lines 226-254. *)
Definition _set_thumbnail (env : ClipEnv) (video_id : string)
    (thumbnail_path : path) : M bool :=
  try_except
    (media <- read_file thumbnail_path ;;
     match media with
     | None => raise (no_such_file thumbnail_path)
     | Some _ =>
         emit (EvThumbnailsSet video_id thumbnail_path media) ;;;
         match env_thumbnails_set env with
         | Some e => raise e
         | None => ret true
         end
     end)
    (fun e => ret false).

(** Lines 211-212 of [upload]: the thumbnail is attached when a path was
    given and the file exists; the value of [_set_thumbnail] is dropped. *)
Definition attach_thumbnail (env : ClipEnv) (video_id : string)
    (thumbnail_path : option path) : M unit :=
  match thumbnail_path with
  | Some (String _ _ as tp) =>
      tex <- path_exists tp ;;
      if tex then (_ <- _set_thumbnail env video_id tp ;; ret tt)
      else ret tt
  | _ => ret tt
  end.

(** [upload], lines 129-224. *)
Definition upload (env : ClipEnv) (video_path : path)
    (title description : string) (tags : option (list string))
    (category : string) (thumbnail_path : option path)
    (privacy_status : string) : M (option string) :=
  ex <- path_exists video_path ;;
  if negb ex then ret None
  else
    let tags := default [] tags in
    let title :=
      if (100 <? PyStr.str_len title)%nat then PyStr.str_slice_to 100 title
      else title in
    let description :=
      if (5000 <? PyStr.str_len description)%nat
      then PyStr.str_slice_to 5000 description else description in
    let category_id := _get_category_id category in
    let body := mkVideoBody title description (take 500 tags) category_id
                  privacy_status in
    media <- read_file video_path ;;
    try_except
      (emit (EvVideosInsert video_path media body) ;;;
       (match env_insert env with
        | Some e => raise e
        | None => ret tt
        end) ;;;
       video_id <- _resumable_upload env ;;
       match video_id with
       | Some (String _ _ as vid) =>
           attach_thumbnail env vid thumbnail_path ;;;
           ret (Some vid)
       | _ => ret None
       end)
      (fun e => ret None).

End YouTubeUploader.

(* ================================================================== *)
(** * Clip orchestrator and batch runner ([clip_creator.py])           *)
(* ================================================================== *)

(** [subprocess.run(cmd, ..., timeout=...)]: the process may write its
    output file; then it has exited, or the call raises. *)
Definition subprocess_run (ev : event) (o : proc_outcome) (output : path)
  : M (Z * string) :=
  emit ev ;;;
  maybe_write output (proc_writes o) ;;;
  match proc_result_of o with
  | Exited rc err => ret (rc, err)
  | ProcRaises e => raise e
  end.

(** [download_clip_segment], lines 163-200. *)
Definition download_clip_segment (env : ClipEnv) (vod_url start_time
    end_time : string) (output_path : path) : M bool :=
  start_sec <- lift_res (time_to_seconds start_time) ;;
  end_sec <- lift_res (time_to_seconds end_time) ;;
  let duration := end_sec - start_sec in
  try_except
    (result <- subprocess_run
                 (EvYtDlp vod_url ("*" +:+ start_time +:+ "-" +:+ end_time)
                    output_path)
                 (env_download env) output_path ;;
     ex <- path_exists output_path ;;
     if (result.1 =? 0) && ex then ret true else ret false)
    (fun e => ret false).

(** [capture_thumbnail_frame], lines 203-230. *)
Definition capture_thumbnail_frame (env : ClipEnv) (video_path : path)
    (timestamp : string) (output_path : path) : M bool :=
  try_except
    (result <- subprocess_run (EvFfmpeg timestamp video_path output_path)
                 (env_capture env) output_path ;;
     ex <- path_exists output_path ;;
     if (result.1 =? 0) && ex then ret true else ret false)
    (fun e => ret false).

Definition GMAIL_TOKEN : path := "gmail_token.pkl".

(** The screenshot of line 383, named after the clock. *)
Definition screenshot_path (stamp : string) : path :=
  "error_screenshots/chatgpt_error_" +:+ stamp +:+ ".png".

(** The files that a session of the enhancer writes: the Gmail token when
    it was refreshed (lines 46-50), the image at [output_path] (lines 349
    and 112), and, unless the session returns [True], the screenshot. *)
Definition session_files (env : ClipEnv) (output_path : path)
    (writes : option content) (success : bool) : M unit :=
  rewrite_existing GMAIL_TOKEN (gmail_refresh (env_side env)) ;;;
  maybe_write output_path writes ;;;
  match screenshot (env_side env) with
  | Some (stamp, image) =>
      if success then ret tt else write_file (screenshot_path stamp) image
  | None => ret tt
  end.

(** [ThumbnailGenerator("gmail_token.pkl").generate(image_path, prompt,
    output_path)]: the scripted browser session, seen from its caller. *)
Definition generate (env : ClipEnv) (image_path output_path : path) : M bool :=
  image <- read_file image_path ;;
  emit (EvGenerate image_path image output_path) ;;;
  match env_generate env with
  | GenImportFails e => raise e
  | GenReturns b writes => session_files env output_path writes b ;;; ret b
  | GenRaises e writes =>
      session_files env output_path writes false ;;; raise e
  end.

(** [generate_thumbnail_chatgpt], lines 278-315.  The import of the
    generator's module stands before the [try]. *)
Definition generate_thumbnail_chatgpt (env : ClipEnv) (clip_data : ClipData)
    (image_path output_path : path) : M bool :=
  match env_generate env with
  | GenImportFails e => raise e
  | _ =>
      try_except
        (success <- generate env image_path output_path ;;
         ex <- path_exists output_path ;;
         if success && ex then ret true
         else shutil_copy env image_path output_path ;;; ret true)
        (fun e => shutil_copy env image_path output_path ;;; ret true)
  end.

(** [upload_to_youtube], lines 318-350.  The first event records the
    arguments of the step and what the thumbnail file holds when the step
    begins. *)
Definition upload_to_youtube (env : ClipEnv) (video_path thumbnail_path : path)
    (clip_data : ClipData) (credentials : string) : M (option string) :=
  thumbnail_data <- read_file thumbnail_path ;;
  emit (EvUploadStep video_path thumbnail_path thumbnail_data) ;;;
  try_except
    (YouTubeUploader.__init__ env ;;;
     tex <- path_exists thumbnail_path ;;
     video_id <- YouTubeUploader.upload env video_path
                   (default "Clip" (cd_title clip_data))
                   (default "" (cd_recommended_description clip_data))
                   (Some (default [] (cd_tags clip_data)))
                   "entertainment"
                   (if tex then Some thumbnail_path else None)
                   "private" ;;
     if truthy video_id then ret video_id else ret None)
    (fun e => ret None).

(** [cleanup_temp_files], lines 353-361: every path is tried, and an error
    while removing one is logged and dropped. *)
Fixpoint cleanup_temp_files (env : ClipEnv) (paths : list path) : M unit :=
  match paths with
  | [] => ret tt
  | p :: rest =>
      try_except
        (ex <- path_exists p ;;
         if ex then unlink env p else ret tt)
        (fun e => ret tt) ;;;
      cleanup_temp_files env rest
  end.

Definition video_path_of (clip_id : string) : path :=
  path_join TEMP_DIR (clip_id +:+ ".mp4").
Definition frame_path_of (clip_id : string) : path :=
  path_join TEMP_DIR (clip_id +:+ "_frame.png").
Definition thumbnail_path_of (clip_id : string) : path :=
  path_join TEMP_DIR (clip_id +:+ "_thumbnail.png").

Definition clip_id_of (clip_data : ClipData) (clip_index : nat) : string :=
  default ("clip_" +:+ pretty clip_index) (cd_clip_id clip_data).

Definition start_time_of (clip_data : ClipData) : string :=
  default "00:00:00" (cd_start_time clip_data).
Definition end_time_of (clip_data : ClipData) : string :=
  default "00:01:00" (cd_end_time clip_data).
Definition thumbnail_timestamp_of (clip_data : ClipData) : string :=
  default (start_time_of clip_data) (cd_thumbnail_timestamp clip_data).

(** Lines 403-405: the offset of the frame inside the clip, as a clock
    string. *)
Definition relative_thumb_of (clip_data : ClipData) : res string :=
  match time_to_seconds (start_time_of clip_data) with
  | Raise e => Raise e
  | Ret start_sec =>
      match time_to_seconds (thumbnail_timestamp_of clip_data) with
      | Raise e => Raise e
      | Ret thumb_sec =>
          Ret (seconds_to_time (Z.max 0 (thumb_sec - start_sec)))
      end
  end.

(** Step 3 of [process_clip], lines 410-416. *)
Definition thumbnail_step (env : ClipEnv) (clip_data : ClipData)
    (frame_path thumbnail_path : path) : M unit :=
  fex <- path_exists frame_path ;;
  if fex then
    try_except
      (_ <- generate_thumbnail_chatgpt env clip_data frame_path
              thumbnail_path ;; ret tt)
      (fun e => shutil_copy env frame_path thumbnail_path)
  else ret tt.

(** The [result] dictionary with its three mutable entries filled in. *)
Definition result_of (clip_data : ClipData) (clip_index : nat) (st : Status)
    (vid err : option string) : ClipOutcome :=
  mkClipOutcome (clip_id_of clip_data clip_index) (cd_title clip_data)
    st vid err.

(** The outcome that lines 426-431 derive from the value of
    [upload_to_youtube]. *)
Definition outcome_of_upload (clip_data : ClipData) (clip_index : nat)
    (video_id : option string) : ClipOutcome :=
  if truthy video_id then result_of clip_data clip_index Success video_id None
  else result_of clip_data clip_index Failed None (Some "Falha no upload").

(** Step 4 of [process_clip], lines 419-431. *)
Definition upload_step (env : ClipEnv) (clip_data : ClipData)
    (credentials : string) (clip_index : nat)
    (video_path frame_path thumbnail_path : path) : M ClipOutcome :=
  tex <- path_exists thumbnail_path ;;
  video_id <- upload_to_youtube env video_path
                (if tex then thumbnail_path else frame_path)
                clip_data credentials ;;
  ret (outcome_of_upload clip_data clip_index video_id).

(** The body of the [try] of [process_clip], lines 388-431. *)
Definition process_clip_try (env : ClipEnv) (clip_data : ClipData)
    (vod_url credentials : string) (clip_index : nat) : M ClipOutcome :=
  let clip_id := clip_id_of clip_data clip_index in
  let video_path := video_path_of clip_id in
  let frame_path := frame_path_of clip_id in
  let thumbnail_path := thumbnail_path_of clip_id in
  ok <- download_clip_segment env vod_url (start_time_of clip_data)
          (end_time_of clip_data) video_path ;;
  if negb ok then
    ret (result_of clip_data clip_index Failed None
           (Some "Falha no download do segmento"))
  else
    relative_thumb <- lift_res (relative_thumb_of clip_data) ;;
    _ <- capture_thumbnail_frame env video_path relative_thumb frame_path ;;
    thumbnail_step env clip_data frame_path thumbnail_path ;;;
    upload_step env clip_data credentials clip_index
      video_path frame_path thumbnail_path.

(** [process_clip], lines 364-442.  [result] is only assigned to where no
    statement that can raise follows inside the [try], so the handler
    always starts from the initial dictionary. *)
Definition process_clip (env : ClipEnv) (clip_data : ClipData)
    (vod_url credentials : string) (clip_index total_clips : nat)
  : M ClipOutcome :=
  let clip_id := clip_id_of clip_data clip_index in
  try_finally
    (try_except
       (process_clip_try env clip_data vod_url credentials clip_index)
       (fun e => ret (result_of clip_data clip_index Error None
                        (Some (str_of_exn e)))))
    (cleanup_temp_files env
       [video_path_of clip_id; frame_path_of clip_id;
        thumbnail_path_of clip_id]).

(** [save_processing_log], lines 445-459.  The time stamp of the summary
    is left out; writing the log file is an event of the trace. *)
Definition summary_of (results : list ClipOutcome) : Summary :=
  mkSummary
    (length results)
    (length (filter (fun r => co_status r = Success) results))
    (length (filter (fun r => co_status r ∈ [Failed; Error]) results))
    results.

Definition save_processing_log (results : list ClipOutcome) : M Summary :=
  let summary := summary_of results in
  emit (EvSaveLog PROCESSING_LOG summary) ;;;
  ret summary.

(** The loop of [main], lines 498-508: clip number [i] is processed with
    the answers [envs i] of the outside world. *)
Fixpoint process_all (envs : nat -> ClipEnv) (vod_url credentials : string)
    (total : nat) (i : nat) (youtube_clips : list ClipData)
    (results : list ClipOutcome) : M (list ClipOutcome) :=
  match youtube_clips with
  | [] => ret results
  | clip :: rest =>
      result <- process_clip (envs i) clip vod_url credentials i total ;;
      let results := (results ++ [result])%list in
      (if bool_decide (co_status result = Success)
          && (Z.of_nat i <? Z.of_nat total - 1)
       then emit (EvSleep 5) else ret tt) ;;;
      process_all envs vod_url credentials total (S i) rest results
  end.

(** [main] from the loop on, lines 497-511: the Batch Runner proper.
    ([main] exits before the loop when the list of clips is empty.) *)
Definition run_batch (envs : nat -> ClipEnv) (vod_url credentials : string)
    (youtube_clips : list ClipData) : M Summary :=
  results <- process_all envs vod_url credentials (length youtube_clips) 0
               youtube_clips [] ;;
  save_processing_log results.

(* ================================================================== *)
(** * Auxiliary notions used in the statements                         *)
(* ================================================================== *)

(** The seconds that a list of one, two or three clock fields denotes. *)
Definition clock_value (fields : list Z) : Z :=
  match fields with
  | [ h; m; s ] => h * 3600 + m * 60 + s
  | [ m; s ] => m * 60 + s
  | [ s ] => s
  | _ => 0
  end.

(** A base-10 literal as [int()] reads it, with its value: a decimal
    digit; or a literal followed by a digit; or a literal followed by an
    underscore and a digit. *)
Inductive digit_body : list Z -> Z -> Prop :=
| body_digit c d :
    PyStr.decimal c = Some d -> digit_body [c] d
| body_next body v c d :
    digit_body body v -> PyStr.decimal c = Some d ->
    digit_body (body ++ [c]) (10 * v + d)
| body_group body v c d :
    digit_body body v -> PyStr.decimal c = Some d ->
    digit_body (body ++ [95; c]) (10 * v + d).

(** The text is an integer literal of value [v]: white space, an
    optional sign, a base-10 literal, white space. *)
Definition int_literal (text : string) (v : Z) : Prop :=
  exists lead sign body trail m,
    PyStr.code_points text = (lead ++ sign ++ body ++ trail)%list /\
    Forall (fun c => is_int_space c = true) lead /\
    Forall (fun c => is_int_space c = true) trail /\
    (sign = [] /\ v = m \/ sign = [43] /\ v = m \/ sign = [45] /\ v = - m) /\
    digit_body body m.

(** Texts made of ASCII bytes only. *)
Definition ascii_only (s : string) : Prop :=
  Forall (fun a => PyStr.byte a < 128) (list_ascii_of_string s).

(** Strings made of ASCII decimal digits only. *)
Fixpoint all_digits (s : string) : bool :=
  match s with
  | EmptyString => true
  | String c s' => bool_decide (is_Some (digit_val c)) && all_digits s'
  end.


(** Interactions that are part of an upload attempt. *)
Definition is_upload_event (ev : event) : bool :=
  match ev with
  | EvUploadStep _ _ _ | EvBuildService | EvVideosInsert _ _ _
  | EvNextChunk | EvThumbnailsSet _ _ _ => true
  | _ => false
  end.


(** No interaction selected by [sel] happens between [w] and [w']. *)
Definition no_new (sel : event -> bool) (w w' : World) : Prop :=
  filter (fun ev => sel ev = true) (trace w')
  = filter (fun ev => sel ev = true) (trace w).

(** Every file of [w] still exists in [w']. *)
Definition files_kept (w w' : World) : Prop :=
  forall p, is_Some (fs w !! p) -> is_Some (fs w' !! p).

(** The trace of [w'] continues the trace of [w]. *)
Definition trace_extends (w w' : World) : Prop :=
  exists evs, trace w' = (trace w ++ evs)%list.

(** The worlds before and after a computation are related by [R]. *)
Definition respects (R : World -> World -> Prop) {A} (m : M A) : Prop :=
  forall w, R w (m w).2.

(** Every value that a computation returns satisfies [Q]. *)
Definition returns_only {A} (Q : A -> Prop) (m : M A) : Prop :=
  forall w a w', m w = (Ret a, w') -> Q a.

(** The outcome [r] is the finished record of descriptor [clip], the
    descriptor number [i] of the batch. *)
Definition outcome_for (clip : ClipData) (i : nat) (r : ClipOutcome) : Prop :=
  co_clip_id r = clip_id_of clip i /\
  co_title r = cd_title clip /\
  co_status r <> Pending.

(** A computation that raises in no world. *)
Definition never_raises {A} (m : M A) : Prop :=
  forall w, exists a w', m w = (Ret a, w').

(** A failure of [next_chunk] that the retry loop counts: a retriable
    HTTP status, or a retriable exception whose text is not empty. *)
Definition retriable_failure (step : chunk_step) : bool :=
  match step with
  | ChunkProgress _ => false
  | ChunkRaises (HttpError st _) =>
      bool_decide (st ∈ YouTubeUploader.RETRIABLE_STATUS_CODES)
  | ChunkRaises e =>
      YouTubeUploader.is_retriable_exception e
      && negb (string_empty (str_of_exn e))
  end.

(** A non-final answer of [next_chunk] that does not end the loop by
    itself: a progress report or a failure of a retriable kind. *)
Definition survivable (step : chunk_step) : bool :=
  match step with
  | ChunkProgress _ => true
  | ChunkRaises (HttpError st _) =>
      bool_decide (st ∈ YouTubeUploader.RETRIABLE_STATUS_CODES)
  | ChunkRaises e => YouTubeUploader.is_retriable_exception e
  end.

Definition count_failures (steps : list chunk_step) : Z :=
  Z.of_nat (length (filter (fun st => retriable_failure st = true) steps)).



(** ** Sample inputs *)

Definition empty_world : World := mkWorld ∅ [].

Definition sample_clip : ClipData :=
  mkClipData (Some "c1") (Some "Title") (Some "00:10:00") (Some "00:11:00")
    (Some "00:10:30") None None.

(** Everything works; the enhancer fails after writing a partial file and
    the channel may not set thumbnails.  No removal and no copy is
    refused, no token had to be refreshed and no screenshot is taken. *)
Definition sample_env : ClipEnv :=
  mkClipEnv (mkProc (Some "VIDEO") (Exited 0 ""))
            (mkProc (Some "FRAME") (Exited 0 ""))
            (GenReturns false (Some "partial"))
            None None
            [ChunkProgress (Some 50); ChunkRaises (HttpError 503 "busy")]
            {[ "id" := "vid123" ]}
            (Some (HttpError 403 "forbidden"))
            (fun _ => None)
            (fun _ _ _ => CopyDone)
            (mkSideFiles None None None).

Definition with_chunks (env : ClipEnv) (steps : list chunk_step) : ClipEnv :=
  mkClipEnv (env_download env) (env_capture env) (env_generate env)
    (env_build_service env) (env_insert env) steps
    (env_response env) (env_thumbnails_set env) (env_unlink env)
    (env_copy env) (env_side env).

Definition with_download (env : ClipEnv) (o : proc_outcome) : ClipEnv :=
  mkClipEnv o (env_capture env) (env_generate env)
    (env_build_service env) (env_insert env) (env_chunks env)
    (env_response env) (env_thumbnails_set env) (env_unlink env)
    (env_copy env) (env_side env).


Definition with_unlink (env : ClipEnv) (f : path -> option exn) : ClipEnv :=
  mkClipEnv (env_download env) (env_capture env) (env_generate env)
    (env_build_service env) (env_insert env) (env_chunks env)
    (env_response env) (env_thumbnails_set env) f (env_copy env)
    (env_side env).


Definition with_side (env : ClipEnv) (side : side_files) : ClipEnv :=
  mkClipEnv (env_download env) (env_capture env) (env_generate env)
    (env_build_service env) (env_insert env) (env_chunks env)
    (env_response env) (env_thumbnails_set env) (env_unlink env)
    (env_copy env) side.


(** No copy is ever refused. *)
Definition copies_allowed (env : ClipEnv) : Prop :=
  forall history src dst, env_copy env history src dst = CopyDone.





(* ================================================================== *)
(** * Further notions used in the statements                           *)
(* ================================================================== *)


(** Between [w] and [w'] the trace grows by events that all satisfy [P]. *)
Definition emits_only (P : event -> Prop) (w w' : World) : Prop :=
  exists evs, trace w' = (trace w ++ evs)%list /\ Forall P evs.

(** The limits that [upload] puts on the request body (lines 163-174). *)
Definition body_within_limits (b : VideoBody) : Prop :=
  (PyStr.str_len (vb_title b) <= 100)%nat /\
  (PyStr.str_len (vb_description b) <= 5000)%nat /\
  (length (vb_tags b) <= 500)%nat.

Definition insert_within_limits (ev : event) : Prop :=
  match ev with
  | EvVideosInsert _ _ b => body_within_limits b
  | _ => True
  end.

Definition is_sleep (ev : event) : bool :=
  match ev with EvSleep _ => true | _ => false end.

(** Every back-off of the retry loop has an exponent in [(lo, hi]]. *)
Definition sleep_within (lo hi : Z) (ev : event) : Prop :=
  match ev with
  | EvSleep n => lo < n <= hi
  | _ => True
  end.

(** The body sent for a given title, description and tag list: within the
    limits, made of the first characters of the title and of the
    description and of the first tags, and equal to what was given
    wherever that was within the limits already. *)
Definition body_respects (title descr : string) (tags : list string)
    (ev : event) : Prop :=
  match ev with
  | EvVideosInsert _ _ b =>
      body_within_limits b /\
      PyStr.chars (vb_title b) = take 100 (PyStr.chars title) /\
      PyStr.chars (vb_description b) = take 5000 (PyStr.chars descr) /\
      vb_tags b = take 500 tags /\
      ((PyStr.str_len title <= 100)%nat -> vb_title b = title) /\
      ((PyStr.str_len descr <= 5000)%nat -> vb_description b = descr) /\
      ((length tags <= 500)%nat -> vb_tags b = tags)
  | _ => True
  end.

(** Everything but the removal of a file. *)
Definition is_not_unlink (ev : event) : bool :=
  match ev with EvUnlink _ => false | _ => true end.

(** A finished outcome is coherent: a success carries a non-empty video
    id, the one of the platform's final response, and no error text;
    a failure or an error carries an error text and no video id. *)
Definition outcome_consistent (env : ClipEnv) (r : ClipOutcome) : Prop :=
  match co_status r with
  | Success =>
      (exists c s, co_video_id r = Some (String c s) /\
                   env_response env !! "id" = Some (String c s)) /\
      co_error r = None
  | Failed | Error => co_video_id r = None /\ is_Some (co_error r)
  | Pending => False
  end.

(** The value of an upload: nothing, or the non-empty id of the
    response. *)
Definition id_of_response (env : ClipEnv) (v : option string) : Prop :=
  v = None \/
  exists c s, v = Some (String c s) /\
              env_response env !! "id" = Some (String c s).

(** Every file of [w] outside the paths [S] still exists in [w']. *)
Definition kept_outside (S : list path) (w w' : World) : Prop :=
  forall q, q ∉ S -> is_Some (fs w !! q) -> is_Some (fs w' !! q).


(* ================================================================== *)
(** * The rest of the batch runner ([clip_creator.py])                 *)
(* ================================================================== *)






Definition is_download (ev : event) : bool :=
  match ev with EvYtDlp _ _ _ => true | _ => false end.

(** Both times of the descriptor can be read by [time_to_seconds]. *)
Definition times_parse (clip : ClipData) : bool :=
  match time_to_seconds (start_time_of clip),
        time_to_seconds (end_time_of clip) with
  | Ret _, Ret _ => true
  | _, _ => false
  end.

(** The downloader runs that a batch is expected to make, clip number
    [i] first. *)
Fixpoint expected_downloads (vod_url : string) (i : nat)
    (youtube_clips : list ClipData) : list event :=
  match youtube_clips with
  | [] => []
  | clip :: rest =>
      (if times_parse clip
       then [EvYtDlp vod_url
               ("*" +:+ start_time_of clip +:+ "-" +:+ end_time_of clip)
               (video_path_of (clip_id_of clip i))]
       else [])
      ++ expected_downloads vod_url (S i) rest
  end.

(* ================================================================== *)
(** * Frame capture from the remote recording ([clip_creator.py])      *)
(* ================================================================== *)

(** How the [yt-dlp --get-url] query ends: it exits with a status and an
    output, or [subprocess.run] raises.  The query writes no file. *)
Inductive url_result : Type :=
| UrlExited (returncode : Z) (stdout stderr : string)
| UrlRaises (e : exn).

(** [text.split('\n')[0]]: the text up to its first line feed. *)
Fixpoint first_line (text : string) : string :=
  match text with
  | EmptyString => ""
  | String c rest =>
      if Ascii.eqb c "010"%char then "" else String c (first_line rest)
  end.

(** [capture_thumbnail_from_vod], lines 233-275. *)
Definition capture_thumbnail_from_vod (url : url_result)
    (ffmpeg : proc_outcome) (vod_url timestamp : string)
    (output_path : path) : M bool :=
  try_except
    (match url with
     | UrlRaises e => raise e
     | UrlExited rc stdout _ =>
         if negb (rc =? 0) then ret false
         else
           let stream_url := first_line (PyStr.str_strip stdout) in
           result <- subprocess_run
                       (EvFfmpeg timestamp stream_url output_path)
                       ffmpeg output_path ;;
           ex <- path_exists output_path ;;
           if (result.1 =? 0) && ex then ret true else ret false
     end)
    (fun e => ret false).

(* ================================================================== *)
(** * The one-time code of the enhancer ([thumbnail_generator.py])     *)
(* ================================================================== *)

Module ThumbnailGenerator.

(** A message of the inbox as [_get_chatgpt_code] reads it: its
    [internalDate] in milliseconds (absent: [None]) and the headers of
    its payload. *)
Record Message : Type := mkMessage {
  internalDate : option Z;
  headers : list (string * string);
}.

Definition code_prefix : string := "Your ChatGPT code is ".

(** [\d]: a decimal digit of any script. *)
Definition is_digit (c : list ascii) : bool :=
  bool_decide (is_Some (PyStr.decimal (PyStr.code_point c))).

(** [(\d{6})] at the head of the characters [cs]: the six digits. *)
Definition six_digits (cs : list (list ascii)) : option string :=
  let group := take 6 cs in
  if (length group =? 6)%nat && forallb is_digit group
  then Some (PyStr.str_of_chars group) else None.

(** What follows the characters [literal] at the head of [cs]. *)
Fixpoint after_literal (literal cs : list (list ascii))
  : option (list (list ascii)) :=
  match literal, cs with
  | [], _ => Some cs
  | a :: literal', c :: cs' =>
      if decide (a = c) then after_literal literal' cs' else None
  | _ :: _, [] => None
  end.

(** The pattern ["Your ChatGPT code is (\d{6})"] matched at the head
    of [cs]. *)
Definition match_here (cs : list (list ascii)) : option string :=
  match after_literal (PyStr.chars code_prefix) cs with
  | Some rest => six_digits rest
  | None => None
  end.

(** The group of the leftmost match in [cs]. *)
Fixpoint search_chars (cs : list (list ascii)) : option string :=
  match match_here cs with
  | Some code => Some code
  | None =>
      match cs with
      | [] => None
      | _ :: rest => search_chars rest
      end
  end.

(** [re.search(r'Your ChatGPT code is (\d{6})', subject)]: the group of
    the leftmost match. *)
Definition search_code (subject : string) : option string :=
  search_chars (PyStr.chars subject).

(** The value of the first header named [subject] (in any case), or the
    empty string. *)
Fixpoint subject_of (hs : list (string * string)) : string :=
  match hs with
  | [] => ""
  | (name, value) :: rest =>
      if String.eqb (YouTubeUploader.str_lower name) "subject" then value
      else subject_of rest
  end.

(** The message arrived before [start] (in microseconds): the code
    compares [internalDate / 1000] seconds with the start time. *)
Definition older_than (start_us : Z) (m : Message) : bool :=
  default 0 (internalDate m) * 1000 <? start_us.

(** The inner loop of [_get_chatgpt_code], lines 70-93: the messages are
    fetched one by one, and fetching one may raise. *)
Fixpoint scan_messages (start_us : Z) (msgs : list (res Message))
  : res (option string) :=
  match msgs with
  | [] => Ret None
  | Raise e :: _ => Raise e
  | Ret m :: rest =>
      if older_than start_us m then scan_messages start_us rest
      else match search_code (subject_of (headers m)) with
           | Some code => Ret (Some code)
           | None => scan_messages start_us rest
           end
  end.

(** The outer loop of [_get_chatgpt_code], lines 60-97, with [remaining]
    attempts left; [polls attempt] is what the inbox answers to the
    listing number [attempt].  [TimeoutError] is an [OSError]. *)
Fixpoint poll_loop (polls : nat -> res (list (res Message))) (start_us : Z)
    (interval : Z) (attempt remaining : nat) : M string :=
  match remaining with
  | O => raise (OSError "❌ Tempo esgotado aguardando o email com o código.")
  | S remaining' =>
      match polls attempt with
      | Raise e => raise e
      | Ret msgs =>
          match scan_messages start_us msgs with
          | Raise e => raise e
          | Ret (Some code) => ret code
          | Ret None =>
              emit (EvSleep interval) ;;;
              poll_loop polls start_us interval (S attempt) remaining'
          end
      end
  end.

(** [_get_chatgpt_code], lines 54-97. *)
Definition _get_chatgpt_code (polls : nat -> res (list (res Message)))
    (start_us : Z) (max_attempts : nat) (interval : Z) : M string :=
  poll_loop polls start_us interval 0 max_attempts.

End ThumbnailGenerator.

(* ================================================================== *)
(** * Python strings: properties                                       *)
(* ================================================================== *)

Section PyStrFacts.
Import PyStr.

Implicit Types (l : list ascii) (cs : list (list ascii)) (s : string).

Lemma first_len_pos l : (1 <= first_len l <= 4)%nat.
Proof. unfold first_len. repeat case_match; lia. Qed.

Lemma first_len_le_length l : l <> [] -> (first_len l <= length l)%nat.
Proof.
  intros Hl. unfold first_len, valid2, valid3, valid4.
  destruct l as [|a [|b [|c [|d l]]]]; [done|..]; simpl;
    repeat case_match; lia.
Qed.

(** The length of the first character is decided by the bytes of that
    character and by nothing after them. *)
Lemma first_len_prefix l l' :
  l' `prefix_of` l -> (first_len l <= length l')%nat ->
  first_len l' = first_len l.
Proof.
  intros [m ->].
  destruct l' as [|a [|b [|c [|d l']]]]; destruct m as [|x [|y [|z m]]];
    unfold first_len, valid2, valid3, valid4; simpl;
    repeat case_match; simpl; intros; first [lia | congruence].
Qed.

Lemma chunks_aux_skip n : forall l, chunks_aux n l = chunks (drop n l).
Proof.
  induction n as [|n IH]; intros [|a l]; try reflexivity.
  simpl. apply IH.
Qed.

Lemma chunks_unfold l :
  l <> [] ->
  chunks l = take (first_len l) l :: chunks (drop (first_len l) l).
Proof.
  destruct l as [|a l]; [done|]. intros _.
  pose proof (first_len_pos (a :: l)) as Hk.
  unfold chunks at 1. cbn [chunks_aux]. rewrite chunks_aux_skip.
  destruct (first_len (a :: l)) as [|k]; [lia|].
  simpl. by rewrite Nat.sub_0_r.
Qed.

Lemma chunks_nil : chunks [] = [].
Proof. reflexivity. Qed.

(** The characters of a byte sequence make up the sequence. *)
Lemma concat_chunks l : concat (chunks l) = l.
Proof.
  remember (length l) as n eqn:Hn. revert l Hn.
  induction (lt_wf n) as [n _ IH]. intros l ->.
  destruct (decide (l = [])) as [->|Hl]; [done|].
  rewrite chunks_unfold by done. simpl.
  pose proof (first_len_pos l). pose proof (first_len_le_length l Hl).
  rewrite (IH (length (drop (first_len l) l))); [apply take_drop| |done].
  rewrite length_drop. destruct l; [done|simpl in *; lia].
Qed.

Lemma concat_take_prefix {A} (xs : list (list A)) n :
  concat (take n xs) `prefix_of` concat xs.
Proof.
  exists (concat (drop n xs)). by rewrite <- concat_app, take_drop.
Qed.

(** Cutting a text between two characters does not change the
    characters before the cut. *)
Lemma chunks_take n : forall l,
  chunks (concat (take n (chunks l))) = take n (chunks l).
Proof.
  induction n as [|n IH]; intros l; [done|].
  destruct (decide (l = [])) as [->|Hl]; [done|].
  rewrite (chunks_unfold l) by done. cbn [take concat].
  set (k := first_len l).
  pose proof (first_len_pos l) as Hk. pose proof (first_len_le_length l Hl) as Hkl.
  fold k in Hk, Hkl.
  set (P := concat (take n (chunks (drop k l)))).
  assert (HP : P `prefix_of` drop k l).
  { unfold P. rewrite <- (concat_chunks (drop k l)) at 2.
    apply concat_take_prefix. }
  assert (Hlen : length (take k l) = k) by (rewrite length_take; lia).
  assert (Hfl : first_len (take k l ++ P) = k).
  { apply first_len_prefix.
    - rewrite <- (take_drop k l) at 2. by apply prefix_app.
    - rewrite length_app, Hlen. fold k. lia. }
  rewrite chunks_unfold.
  2: { intros [H _]%app_eq_nil. rewrite H in Hlen. simpl in Hlen. lia. }
  rewrite Hfl. rewrite take_app_length' by done.
  rewrite drop_app_length' by done. unfold P. by rewrite IH.
Qed.

Lemma in_range_ascii a lo hi :
  byte a < 128 -> 128 <= lo -> in_range lo hi a = false.
Proof.
  intros Ha Hlo. unfold in_range. apply andb_false_iff. left.
  apply Z.leb_gt. lia.
Qed.

(** An ASCII byte is a character of its own. *)
Lemma chunks_ascii a l :
  byte a < 128 -> chunks (a :: l) = [a] :: chunks l.
Proof.
  intros Ha. rewrite chunks_unfold by done.
  assert (first_len (a :: l) = 1%nat) as ->; [|done].
  unfold first_len, valid2, valid3, valid4.
  destruct l as [|b [|c [|d l]]];
    by rewrite ?(in_range_ascii a) by (done || lia).
Qed.

Lemma chars_of_chars cs :
  chars (str_of_chars cs) = chunks (concat cs).
Proof.
  unfold chars, str_of_chars.
  by rewrite list_ascii_of_string_of_list_ascii.
Qed.

Lemma str_of_chars_chars s : str_of_chars (chars s) = s.
Proof.
  unfold chars, str_of_chars.
  by rewrite concat_chunks, string_of_list_ascii_of_string.
Qed.

Lemma chars_slice n s : chars (str_slice_to n s) = take n (chars s).
Proof.
  unfold str_slice_to. rewrite chars_of_chars. apply chunks_take.
Qed.

(** [len(s[:n]) <= n], and [s[:n] == s] when [len(s) <= n]. *)
Lemma str_len_slice n s : (str_len (str_slice_to n s) <= n)%nat.
Proof. unfold str_len. rewrite chars_slice, length_take. lia. Qed.

Lemma str_slice_all n s : (str_len s <= n)%nat -> str_slice_to n s = s.
Proof.
  intros H. unfold str_slice_to. rewrite take_ge by done.
  apply str_of_chars_chars.
Qed.

Lemma string_app_empty s : s +:+ "" = s.
Proof.
  induction s as [|a s IH]; [done|].
  change (String a (s +:+ "") = String a s). by rewrite IH.
Qed.

(** A text made of ASCII bytes has one character per byte. *)
Lemma chars_ascii_app s t :
  ascii_only s ->
  chars (s +:+ t)
  = (((fun a => [a]) <$> list_ascii_of_string s) ++ chars t)%list.
Proof.
  unfold ascii_only, chars. induction s as [|a s IH]; simpl; [done|].
  intros [Ha Hs]%Forall_cons. rewrite chunks_ascii by done.
  by rewrite IH.
Qed.

Lemma chars_ascii s :
  ascii_only s -> chars s = (fun a => [a]) <$> list_ascii_of_string s.
Proof.
  intros H. pose proof (chars_ascii_app s "" H) as E.
  rewrite string_app_empty in E. rewrite E. apply app_nil_r.
Qed.

Lemma code_points_ascii_app s t :
  ascii_only s ->
  code_points (s +:+ t)
  = ((byte <$> list_ascii_of_string s) ++ code_points t)%list.
Proof.
  intros H. unfold code_points. rewrite chars_ascii_app by done.
  rewrite fmap_app. f_equal. rewrite <- list_fmap_compose.
  apply Forall_fmap_ext_1. eapply Forall_impl; [exact H|].
  intros a Ha. simpl in *. destruct (Z.ltb_spec (byte a) 128); [done|lia].
Qed.

Lemma code_points_ascii s :
  ascii_only s -> code_points s = byte <$> list_ascii_of_string s.
Proof.
  intros H. pose proof (code_points_ascii_app s "" H) as E.
  rewrite string_app_empty in E. rewrite E. apply app_nil_r.
Qed.

End PyStrFacts.
(* ================================================================== *)
(** * Time codec: properties                                           *)
(* ================================================================== *)

Section TimeCodecFacts.

(** The characters of an ASCII text. *)
Local Abbreviation cps s := (PyStr.byte <$> list_ascii_of_string s).

Lemma digit_val_pretty_N_char (x : N) :
  (x < 10)%N -> digit_val (pretty_N_char x) = Some (Z.of_N x).
Proof.
  intros Hx.
  assert (x = 0 \/ x = 1 \/ x = 2 \/ x = 3 \/ x = 4 \/ x = 5 \/ x = 6
          \/ x = 7 \/ x = 8 \/ x = 9)%N as Hc by lia.
  repeat (destruct Hc as [-> | Hc]; [reflexivity|]). subst x. reflexivity.
Qed.

Lemma digit_val_byte c d :
  digit_val c = Some d -> PyStr.byte c = 48 + d /\ 0 <= d <= 9.
Proof.
  unfold digit_val, PyStr.byte. intros H.
  destruct (_ && _) eqn:E in H; [|discriminate].
  apply andb_true_iff in E as [E1%Z.leb_le E2%Z.leb_le].
  injection H as <-. lia.
Qed.

Lemma digit_val_decimal c d :
  digit_val c = Some d -> PyStr.decimal (PyStr.byte c) = Some d.
Proof.
  intros [Hb Hd]%digit_val_byte. unfold PyStr.decimal. rewrite Hb.
  destruct (Z.ltb_spec (48 + d) 128); [|lia].
  destruct (Z.leb_spec 48 (48 + d)); [|lia].
  destruct (Z.leb_spec (48 + d) 57); [|lia].
  simpl. f_equal. lia.
Qed.

Lemma digit_not_colon c d : digit_val c = Some d -> Ascii.eqb c colon = false.
Proof.
  intros H. destruct (Ascii.eqb_spec c colon) as [->|]; [|done].
  vm_compute in H. discriminate.
Qed.

(** What [int()] accepts as a digit is no white space, no sign and no
    underscore. *)
Lemma decimal_range c d :
  PyStr.decimal c = Some d -> 48 <= c <= 57 \/ 128 <= c.
Proof.
  unfold PyStr.decimal. destruct (Z.ltb_spec c 128); [|lia].
  destruct (_ && _) eqn:E; [|discriminate].
  apply andb_true_iff in E as [E1%Z.leb_le E2%Z.leb_le]. lia.
Qed.

Lemma unicode_spaces_not_decimal :
  Forall (fun c => PyStr.decimal c = None) PyStr.unicode_spaces.
Proof. repeat constructor. Qed.

Lemma decimal_not_space c d :
  PyStr.decimal c = Some d -> is_int_space c = false.
Proof.
  intros Hd. pose proof (decimal_range c d Hd) as Hr.
  unfold is_int_space, PyStr.isspace.
  destruct (Z.leb_spec 9 c), (Z.leb_spec c 13), (Z.eqb_spec c 32),
    (Z.leb_spec 128 c), (Z.leb_spec 28 c), (Z.leb_spec c 32);
    simpl; try lia; try reflexivity;
    (case_bool_decide as Hin; [|reflexivity]);
    pose proof unicode_spaces_not_decimal as Hall;
    rewrite Forall_forall in Hall; rewrite (Hall c Hin) in Hd; discriminate.
Qed.

Lemma space_not_decimal c :
  is_int_space c = true -> PyStr.decimal c = None.
Proof.
  intros Hs. destruct (PyStr.decimal c) as [d|] eqn:Hd; [|done].
  rewrite (decimal_not_space c d Hd) in Hs. discriminate.
Qed.

Lemma space_not_mark c :
  is_int_space c = true -> c <> 43 /\ c <> 45 /\ c <> 95.
Proof.
  unfold is_int_space.
  destruct (Z.leb_spec 9 c), (Z.leb_spec c 13), (Z.eqb_spec c 32),
    (Z.leb_spec 128 c); simpl; intros; try discriminate; lia.
Qed.

(** [str(x)] read back from left to right. *)
Lemma scan_digits_pretty_N_go (x : N) : forall s prev,
  (0 < x)%N ->
  scan_digits 0 prev (cps (pretty_N_go x s))
  = scan_digits (Z.of_N x) true (cps s).
Proof.
  induction (N.lt_wf_0 x) as [x _ IH]; intros s prev Hx.
  rewrite pretty_N_go_step by done.
  assert (Hd : PyStr.decimal (PyStr.byte (pretty_N_char (x `mod` 10)%N))
               = Some (Z.of_N (x `mod` 10)%N))
    by (apply digit_val_decimal, digit_val_pretty_N_char, N.mod_lt; lia).
  destruct (decide (x `div` 10 = 0)%N) as [Hz|Hnz].
  - rewrite Hz, pretty_N_go_0. cbn [list_ascii_of_string fmap list_fmap scan_digits].
    rewrite Hd. f_equal. pose proof (N.Div0.div_mod x 10). lia.
  - rewrite IH; [|by apply N.div_lt|by apply N.neq_0_lt_0].
    cbn [list_ascii_of_string fmap list_fmap scan_digits].
    rewrite Hd. f_equal. pose proof (N.Div0.div_mod x 10). lia.
Qed.

Lemma all_digits_pretty_N_go (x : N) : forall s,
  all_digits s = true -> all_digits (pretty_N_go x s) = true.
Proof.
  induction (N.lt_wf_0 x) as [x _ IH]; intros s Hs.
  destruct (decide (0 < x)%N) as [Hx|Hx].
  - rewrite pretty_N_go_step by done. apply IH; [by apply N.div_lt|].
    simpl. rewrite Hs, andb_true_r. apply bool_decide_eq_true.
    rewrite digit_val_pretty_N_char by (apply N.mod_lt; lia). eauto.
  - replace x with 0%N by lia. by rewrite pretty_N_go_0.
Qed.

Lemma scan_digits_pretty (x : N) prev :
  scan_digits 0 prev (cps (pretty x)) = Some (Z.of_N x, []).
Proof.
  unfold pretty, pretty_N. case_decide as Hx.
  - subst x. reflexivity.
  - rewrite scan_digits_pretty_N_go by lia. reflexivity.
Qed.

Lemma all_digits_pretty (x : N) : all_digits (pretty x) = true.
Proof.
  unfold pretty, pretty_N. case_decide; [reflexivity|].
  by apply all_digits_pretty_N_go.
Qed.

Lemma all_digits_app s t :
  all_digits s = true -> all_digits t = true -> all_digits (s +:+ t) = true.
Proof.
  induction s as [|c s IH]; simpl; [done|].
  intros [Hc Hs]%andb_true_iff Ht. rewrite Hc. simpl. auto.
Qed.

Lemma all_digits_zeros n : all_digits (zeros n) = true.
Proof. induction n as [|n IH]; [done|]. destruct n; [done|]. exact IH. Qed.

Lemma zeros_succ n s : zeros (S n) +:+ s = String "0" (zeros n +:+ s).
Proof. unfold zeros. simpl. destruct n; reflexivity. Qed.

Lemma scan_digits_zeros n s prev :
  scan_digits 0 prev (cps (zeros n +:+ s))
  = scan_digits 0 (prev || negb (Nat.eqb n 0)) (cps s).
Proof.
  revert prev. induction n as [|n IH]; intros prev.
  - simpl. by rewrite orb_false_r.
  - rewrite zeros_succ.
    cbn [list_ascii_of_string fmap list_fmap scan_digits].
    change (PyStr.decimal (PyStr.byte "0")) with (Some 0).
    cbv iota beta. rewrite IH. simpl. by rewrite orb_true_r.
Qed.

Lemma format_02d_nonneg_eq (z : Z) :
  0 <= z ->
  format_02d z
  = zeros (2 - String.length (pretty (Z.abs_N z))) +:+ pretty (Z.abs_N z).
Proof.
  intros Hz. unfold format_02d.
  destruct (Z.ltb_spec z 0) as [?|_]; [lia|reflexivity].
Qed.

Lemma format_02d_nonneg (z : Z) :
  0 <= z ->
  all_digits (format_02d z) = true /\
  format_02d z <> "" /\
  scan_digits 0 false (cps (format_02d z)) = Some (z, []).
Proof.
  intros Hz. rewrite format_02d_nonneg_eq by done.
  set (d := pretty (Z.abs_N z)). set (k := (2 - String.length d)%nat).
  assert (Hv : scan_digits 0 false (cps (zeros k +:+ d)) = Some (z, [])).
  { rewrite scan_digits_zeros. unfold d. rewrite scan_digits_pretty.
    do 2 f_equal. lia. }
  split; [|split]; [| |exact Hv].
  - apply all_digits_app; [apply all_digits_zeros|apply all_digits_pretty].
  - intros H. rewrite H in Hv. discriminate.
Qed.

Lemma all_digits_cons c s :
  all_digits (String c s) = true ->
  (exists d, digit_val c = Some d) /\ all_digits s = true.
Proof.
  simpl. intros [Hc Hs]%andb_true_iff. split; [|done].
  apply bool_decide_eq_true in Hc as [d Hd]. eauto.
Qed.

Lemma all_digits_ascii_only s : all_digits s = true -> ascii_only s.
Proof.
  unfold ascii_only. induction s as [|c s IH]; [constructor|].
  intros [[d Hd] Hs]%all_digits_cons. constructor; [|by apply IH].
  apply digit_val_byte in Hd. lia.
Qed.

(** [int()] with its own scanner, on ASCII text that begins with a
    digit or with a minus sign. *)
Lemma parse_int_digits s v :
  all_digits s = true -> scan_digits 0 false (cps s) = Some (v, []) ->
  parse_int (cps s) = Some v.
Proof.
  intros Hs Hv. destruct s as [|c s]; [discriminate|].
  apply all_digits_cons in Hs as [[d Hd] _].
  pose proof (digit_val_byte _ _ Hd) as [Hb Hr].
  pose proof (decimal_not_space _ _ (digit_val_decimal _ _ Hd)) as Hsp.
  unfold parse_int. cbn [list_ascii_of_string fmap list_fmap skip_spaces] in *.
  rewrite Hsp.
  destruct (Z.eqb_spec (PyStr.byte c) 43); [lia|].
  destruct (Z.eqb_spec (PyStr.byte c) 45); [lia|].
  cbn [snd fst]. rewrite Hv. simpl. f_equal. lia.
Qed.

Lemma py_int_digits s v :
  all_digits s = true -> scan_digits 0 false (cps s) = Some (v, []) ->
  py_int s = Ret v.
Proof.
  intros Hs Hv. unfold py_int.
  rewrite code_points_ascii by (by apply all_digits_ascii_only).
  by rewrite (parse_int_digits s v).
Qed.

Lemma split_colon_digits s : all_digits s = true -> split_colon s = [s].
Proof.
  induction s as [|c s IH]; [done|].
  intros [[d Hd] Hs]%all_digits_cons. simpl.
  by rewrite (digit_not_colon _ _ Hd), IH.
Qed.

Lemma split_colon_digits_colon s t :
  all_digits s = true ->
  split_colon (s +:+ String colon t) = s :: split_colon t.
Proof.
  induction s as [|c s IH]; [done|].
  intros [[d Hd] Hs]%all_digits_cons. simpl.
  by rewrite (digit_not_colon _ _ Hd), IH.
Qed.

Lemma hms_recompose (n : Z) :
  n `div` 3600 * 3600 + (n `mod` 3600) `div` 60 * 60 + n `mod` 60 = n.
Proof.
  pose proof (Z.div_mod n 3600 ltac:(lia)).
  pose proof (Z.div_mod (n `mod` 3600) 60 ltac:(lia)).
  assert (n `mod` 60 = (n `mod` 3600) `mod` 60) as ->; [|lia].
  symmetry. apply Z.mod_mod_divide. exists 60. lia.
Qed.

End TimeCodecFacts.

(** C6.  Round trip of the time codec: for every non-negative number of
    seconds [n], parsing the clock string that [seconds_to_time] prints for
    [n] gives [n] back, [time_to_seconds (seconds_to_time n) = n]. *)
Theorem time_round_trip (n : Z) :
  0 <= n -> time_to_seconds (seconds_to_time n) = Ret n.
Proof.
  intros Hn. unfold seconds_to_time.
  set (h := n `div` 3600). set (m := (n `mod` 3600) `div` 60).
  set (s := n `mod` 60).
  assert (Hh : 0 <= h) by (apply Z.div_pos; lia).
  assert (Hm : 0 <= m)
    by (apply Z.div_pos; [apply Z.mod_pos_bound|]; lia).
  assert (Hs : 0 <= s) by (apply Z.mod_pos_bound; lia).
  destruct (format_02d_nonneg h Hh) as (Dh & _ & Vh).
  destruct (format_02d_nonneg m Hm) as (Dm & _ & Vm).
  destruct (format_02d_nonneg s Hs) as (Ds & _ & Vs).
  unfold time_to_seconds.
  change (format_02d h +:+ ":" +:+ format_02d m +:+ ":" +:+ format_02d s)
    with (format_02d h +:+ String colon
            (format_02d m +:+ String colon (format_02d s))).
  rewrite !split_colon_digits_colon, split_colon_digits by done.
  cbn [map_int].
  rewrite (py_int_digits _ _ Dh Vh), (py_int_digits _ _ Dm Vm),
    (py_int_digits _ _ Ds Vs).
  f_equal. apply hms_recompose.
Qed.

Lemma time_round_trip_witness :
  0 <= 3723 /\ time_to_seconds (seconds_to_time 3723) = Ret 3723.
Proof. split; [lia | apply (time_round_trip 3723); lia]. Defined.

Lemma split_colon_nonempty s : split_colon s <> [].
Proof.
  destruct s as [|c s]; [done|]. simpl.
  destruct (Ascii.eqb c colon); [done|]. by destruct (split_colon s).
Qed.

(** ** [int()] and the integer literals *)

Section IntLiteral.

Lemma digit_body_head body m :
  digit_body body m -> exists c d rest,
    body = c :: rest /\ PyStr.decimal c = Some d.
Proof.
  induction 1 as [c d Hd|body v c d _ (c0 & d0 & rest & -> & H0) Hd
                 |body v c d _ (c0 & d0 & rest & -> & H0) Hd]; eauto.
Qed.

(** Reading a literal leaves the scanner after a digit, with the value
    read so far shifted and the value of the literal added. *)
Lemma scan_digits_body body m :
  digit_body body m ->
  exists k, forall acc prev tail,
    scan_digits acc prev (body ++ tail) = scan_digits (acc * k + m) true tail.
Proof.
  induction 1 as [c d Hd|body v c d _ [k IH] Hd|body v c d _ [k IH] Hd].
  - exists 10. intros acc prev tail. simpl. rewrite Hd. f_equal. lia.
  - exists (10 * k). intros acc prev tail. rewrite <- app_assoc, IH.
    simpl. rewrite Hd. f_equal. lia.
  - exists (10 * k). intros acc prev tail. rewrite <- app_assoc, IH.
    simpl. change (PyStr.decimal 95) with (@None Z). cbv iota beta.
    rewrite Hd. f_equal. lia.
Qed.

(** After a digit the scanner stops at white space and at the end. *)
Lemma scan_digits_stop acc trail :
  Forall (fun c => is_int_space c = true) trail ->
  scan_digits acc true trail = Some (acc, trail).
Proof.
  intros H. destruct H as [|c rest Hc _]; [done|]. simpl.
  rewrite (space_not_decimal c Hc).
  destruct (space_not_mark c Hc) as (_ & _ & H95).
  by destruct (Z.eqb_spec c 95).
Qed.

(** What the scanner has read is a literal, once the part read before is
    one ([prev] true), or is one followed by an underscore. *)
Lemma scan_digits_sound l : forall acc prev body0 v rest,
  digit_body body0 acc ->
  scan_digits acc prev l = Some (v, rest) ->
  exists body,
    (body0 ++ (if prev then [] else [95]) ++ l = body ++ rest)%list /\
    digit_body body v.
Proof.
  induction l as [|c l IH]; intros acc prev body0 v rest Hb0; simpl.
  - destruct prev; [|discriminate]. intros [= <- <-].
    exists body0. by rewrite !app_nil_r.
  - destruct (PyStr.decimal c) as [d|] eqn:Hd.
    + intros Hs. destruct prev.
      * destruct (IH _ _ (body0 ++ [c])%list _ _
                    (body_next _ _ _ _ Hb0 Hd) Hs) as (body & E & Hb).
        exists body. split; [|done]. rewrite <- E. simpl.
        by rewrite <- app_assoc.
      * destruct (IH _ _ (body0 ++ [95; c])%list _ _
                    (body_group _ _ _ _ Hb0 Hd) Hs) as (body & E & Hb).
        exists body. split; [|done]. rewrite <- E. simpl.
        by rewrite <- app_assoc.
    + destruct (Z.eqb_spec c 95) as [->|Hc].
      * destruct prev; [|discriminate]. intros Hs.
        destruct (IH _ _ body0 _ _ Hb0 Hs) as (body & E & Hb).
        exists body. split; [|done]. by rewrite <- E.
      * destruct prev; [|discriminate]. intros [= <- <-].
        exists body0. by split.
Qed.

Lemma scan_digits_start l v rest :
  scan_digits 0 false l = Some (v, rest) ->
  exists body, l = (body ++ rest)%list /\ digit_body body v.
Proof.
  destruct l as [|c l]; [discriminate|]. simpl.
  destruct (PyStr.decimal c) as [d|] eqn:Hd.
  - intros Hs.
    destruct (scan_digits_sound l _ _ [c] _ _ (body_digit c d Hd) Hs)
      as (body & E & Hb).
    exists body. by split.
  - by destruct (c =? 95).
Qed.

Lemma skip_spaces_split l :
  exists lead,
    l = (lead ++ skip_spaces l)%list /\
    Forall (fun c => is_int_space c = true) lead.
Proof.
  induction l as [|c l (lead & E & Hl)]; [by exists []|]. simpl.
  destruct (is_int_space c) eqn:Hc.
  - exists (c :: lead). split; [simpl; congruence|by constructor].
  - by exists [].
Qed.

Lemma skip_spaces_lead lead l :
  Forall (fun c => is_int_space c = true) lead ->
  match l with [] => True | c :: _ => is_int_space c = false end ->
  skip_spaces (lead ++ l) = l.
Proof.
  intros Hlead Hl. induction Hlead as [|c lead Hc _ IH]; simpl.
  - destruct l as [|c l]; [done|]. simpl. by rewrite Hl.
  - by rewrite Hc.
Qed.

Lemma forallb_int_space l :
  forallb is_int_space l = true <->
  Forall (fun c => is_int_space c = true) l.
Proof.
  induction l as [|c l IH]; simpl; [by split; [constructor|]|].
  rewrite andb_true_iff, Forall_cons. by rewrite IH.
Qed.

(** The scanner of [int()] accepts exactly the integer literals. *)
Lemma parse_int_sound l v :
  parse_int l = Some v ->
  exists lead sign body trail m,
    l = (lead ++ sign ++ body ++ trail)%list /\
    Forall (fun c => is_int_space c = true) lead /\
    Forall (fun c => is_int_space c = true) trail /\
    (sign = [] /\ v = m \/ sign = [43] /\ v = m \/ sign = [45] /\ v = - m) /\
    digit_body body m.
Proof.
  unfold parse_int.
  destruct (skip_spaces_split l) as (lead & El & Hlead).
  set (l1 := skip_spaces l) in *.
  set (signed := match l1 with
                 | [] => (1, l1)
                 | c :: l2 => if c =? 43 then (1, l2)
                              else if c =? 45 then (-1, l2) else (1, l1)
                 end).
  assert (exists sign,
    l1 = (sign ++ signed.2)%list /\
    (sign = [] /\ signed.1 = 1 \/ sign = [43] /\ signed.1 = 1
     \/ sign = [45] /\ signed.1 = -1)) as (sign & E1 & Hsign).
  { unfold signed. destruct l1 as [|c l2]; [exists []; auto|].
    destruct (Z.eqb_spec c 43) as [->|]; [exists [43]; auto|].
    destruct (Z.eqb_spec c 45) as [->|]; [exists [45]; auto|].
    exists []. auto. }
  destruct (scan_digits 0 false signed.2) as [[m rest]|] eqn:Hs;
    [|discriminate].
  destruct (forallb is_int_space rest) eqn:Hrest; [|discriminate].
  intros [= <-].
  destruct (scan_digits_start _ _ _ Hs) as (body & E2 & Hb).
  exists lead, sign, body, rest, m.
  split; [by rewrite El at 1; rewrite E1, E2|].
  split; [done|]. split; [by apply forallb_int_space|].
  split; [|done].
  destruct Hsign as [[-> ->]|[[-> ->]|[-> ->]]]; [left|right; left|right; right];
    split; (done || lia).
Qed.

Lemma parse_int_complete lead sign body trail m v :
  Forall (fun c => is_int_space c = true) lead ->
  Forall (fun c => is_int_space c = true) trail ->
  (sign = [] /\ v = m \/ sign = [43] /\ v = m \/ sign = [45] /\ v = - m) ->
  digit_body body m ->
  parse_int (lead ++ sign ++ body ++ trail) = Some v.
Proof.
  intros Hlead Htrail Hsign Hb.
  destruct (digit_body_head _ _ Hb) as (c & d & rest & Ebody & Hd).
  pose proof (decimal_not_space c d Hd) as Hnsp.
  pose proof (decimal_range c d Hd) as Hr.
  destruct (scan_digits_body _ _ Hb) as [k Hscan].
  assert (Hread : scan_digits 0 false (body ++ trail) = Some (m, trail)).
  { rewrite Hscan. replace (0 * k + m) with m by lia.
    by apply scan_digits_stop. }
  assert (Hall : forallb is_int_space trail = true)
    by (by apply forallb_int_space).
  unfold parse_int. rewrite skip_spaces_lead; [|done|].
  2: { destruct Hsign as [[-> _]|[[-> _]|[-> _]]]; simpl;
         [by rewrite Ebody|done|done]. }
  destruct Hsign as [[-> ->]|[[-> ->]|[-> ->]]]; simpl.
  - rewrite Ebody. simpl.
    destruct (Z.eqb_spec c 43); [lia|]. destruct (Z.eqb_spec c 45); [lia|].
    cbn [snd fst].
    change (c :: rest ++ trail)%list with ((c :: rest) ++ trail)%list.
    rewrite <- Ebody, Hread, Hall. f_equal; lia.
  - rewrite Hread, Hall. f_equal; lia.
  - rewrite Hread, Hall. f_equal; lia.
Qed.

Lemma py_int_literal text v : py_int text = Ret v <-> int_literal text v.
Proof.
  unfold py_int, int_literal. split.
  - destruct (parse_int _) as [v'|] eqn:Hp; [|discriminate].
    intros [= <-]. exact (parse_int_sound _ _ Hp).
  - intros (lead & sign & body & trail & m & E & Hl & Ht & Hs & Hb).
    rewrite E, (parse_int_complete _ _ _ _ m v) by done. done.
Qed.

Lemma py_int_no_literal text :
  py_int text
  = Raise (ValueError ("invalid literal for int() with base 10: "
                       +:+ PyStr.format_R 200 text))
  <-> forall v, ~ int_literal text v.
Proof.
  split.
  - intros E v Hv%py_int_literal. congruence.
  - intros Hno. unfold py_int.
    destruct (parse_int _) as [v|] eqn:Hp; [|done].
    destruct (Hno v). apply py_int_literal. unfold py_int. by rewrite Hp.
Qed.

Lemma py_int_raises text e :
  py_int text = Raise e -> exists msg, e = ValueError msg.
Proof.
  unfold py_int. destruct (parse_int _); [discriminate|].
  intros [= <-]. eauto.
Qed.

(** [map(int, fields)] read field by field. *)
Lemma map_int_Ret fields values :
  map_int fields = Ret values <-> Forall2 int_literal fields values.
Proof.
  revert values. induction fields as [|f fields IH]; intros values; simpl.
  - split; [intros [= <-]; constructor|by intros ->%Forall2_nil_inv_l].
  - split.
    + destruct (py_int f) as [v|e] eqn:Ef; [|discriminate].
      destruct (map_int fields) as [vs|e] eqn:Em; [|discriminate].
      intros [= <-]. constructor; [by apply py_int_literal|by apply IH].
    + intros (v & vs & Hv & Hvs & ->)%Forall2_cons_inv_l.
      apply py_int_literal in Hv. apply IH in Hvs. by rewrite Hv, Hvs.
Qed.

Lemma map_int_Raise good bad rest :
  Forall (fun f => exists v, int_literal f v) good ->
  (forall v, ~ int_literal bad v) ->
  map_int (good ++ bad :: rest)
  = Raise (ValueError ("invalid literal for int() with base 10: "
                       +:+ PyStr.format_R 200 bad)).
Proof.
  intros Hgood Hbad. induction Hgood as [|f good [v Hv] _ IH]; simpl.
  - apply py_int_no_literal in Hbad. by rewrite Hbad.
  - apply py_int_literal in Hv. by rewrite Hv, IH.
Qed.

(** On at most three fields the parser is [map(int, fields)] followed by
    the sum of the fields. *)
Lemma time_to_seconds_map_int (time_str : string) :
  (length (split_colon time_str) <= 3)%nat ->
  time_to_seconds time_str
  = match map_int (split_colon time_str) with
    | Ret fields => Ret (clock_value fields)
    | Raise e => Raise e
    end.
Proof.
  intros Hlen. unfold time_to_seconds.
  pose proof (split_colon_nonempty time_str) as Hne.
  destruct (split_colon time_str) as [|a [|b [|c [|d l]]]];
    [done| | | |simpl in Hlen; lia]; cbn [map_int].
  - by destruct (py_int a).
  - destruct (py_int a); [|done]. by destruct (py_int b).
  - destruct (py_int a); [|done]. destruct (py_int b); [|done].
    by destruct (py_int c).
Qed.

End IntLiteral.

(** C7, as the code has it.  On a string of one, two or three
    colon-separated fields the parser returns [h*3600 + m*60 + s],
    [m*60 + s] or [s] when every field is an integer literal (white
    space, an optional sign, decimal digits in groups separated by single
    underscores, white space), and it accepts the string only then; when
    a field is no integer literal, it raises the [ValueError] of [int()]
    for the first such field. *)
Theorem time_to_seconds_up_to_three_fields (time_str : string) :
  (length (split_colon time_str) <= 3)%nat ->
  (forall values,
     Forall2 int_literal (split_colon time_str) values ->
     time_to_seconds time_str = Ret (clock_value values)) /\
  (forall good bad rest,
     split_colon time_str = (good ++ bad :: rest)%list ->
     Forall (fun field => exists v, int_literal field v) good ->
     (forall v, ~ int_literal bad v) ->
     time_to_seconds time_str
     = Raise (ValueError ("invalid literal for int() with base 10: "
                          +:+ PyStr.format_R 200 bad))) /\
  ((exists seconds, time_to_seconds time_str = Ret seconds) <->
   Forall (fun field => exists v, int_literal field v)
     (split_colon time_str)).
Proof.
  intros Hlen. rewrite (time_to_seconds_map_int _ Hlen).
  split; [|split].
  - intros values Hv. apply map_int_Ret in Hv. by rewrite Hv.
  - intros good bad rest E Hgood Hbad.
    by rewrite E, (map_int_Raise good bad rest Hgood Hbad).
  - split.
    + intros [seconds E].
      destruct (map_int (split_colon time_str)) as [values|e] eqn:Em;
        [|discriminate].
      apply map_int_Ret in Em. clear E Hlen.
      induction Em as [|f v fs vs Hf _ IH]; constructor; eauto.
    + intros Hall.
      assert (exists values,
                Forall2 int_literal (split_colon time_str) values)
        as [values Hv].
      { clear Hlen. induction Hall as [|f fs [v Hf] _ [vs IH]].
        - exists []. constructor.
        - exists (v :: vs). by constructor. }
      apply map_int_Ret in Hv. rewrite Hv. eauto.
Qed.

Lemma time_to_seconds_up_to_three_fields_witness :
  time_to_seconds "2:30" = Ret 150 /\
  time_to_seconds "2:3x"
  = Raise (ValueError "invalid literal for int() with base 10: '3x'").
Proof.
  split.
  - apply (proj1 (time_to_seconds_up_to_three_fields "2:30"
                    ltac:(vm_compute; lia)) [2; 30]).
    repeat constructor; apply py_int_literal; reflexivity.
  - apply (proj1 (proj2 (time_to_seconds_up_to_three_fields "2:3x"
                           ltac:(vm_compute; lia))) ["2"] "3x" []).
    + reflexivity.
    + repeat constructor. exists 2. apply py_int_literal. reflexivity.
    + intros v Hv%py_int_literal. vm_compute in Hv. discriminate.
Defined.

(** C7, as stated, fails: a string of four fields is not rejected, the
    parser returns the value of its first field. *)
Lemma four_fields_not_rejected :
  split_colon "1:2:3:4" = ["1"; "2"; "3"; "4"] /\
  time_to_seconds "1:2:3:4" = Ret 1.
Proof. split; reflexivity. Qed.

(* ================================================================== *)
(** * The monad: equations and invariants                             *)
(* ================================================================== *)

Section MonadEquations.
Context {A B : Type}.
Implicit Types (m : M A) (k : A -> M B) (w : World).

Lemma bind_Ret m k w a w' : m w = (Ret a, w') -> bind m k w = k a w'.
Proof. unfold bind. by intros ->. Qed.

Lemma bind_Raise m k w e w' :
  m w = (Raise e, w') -> bind m k w = (Raise e, w').
Proof. unfold bind. by intros ->. Qed.

Lemma try_except_Ret m (h : exn -> M A) w a w' :
  m w = (Ret a, w') -> try_except m h w = (Ret a, w').
Proof. unfold try_except. by intros ->. Qed.

Lemma try_except_Raise m (h : exn -> M A) w e w' :
  m w = (Raise e, w') -> try_except m h w = h e w'.
Proof. unfold try_except. by intros ->. Qed.

Lemma try_finally_Ret m (f : M unit) w r w' w'' :
  m w = (r, w') -> f w' = (Ret tt, w'') -> try_finally m f w = (r, w'').
Proof. unfold try_finally. by intros -> ->. Qed.

End MonadEquations.

(** ** Computations that never raise *)

Section NeverRaises.
Context {A B : Type}.

Lemma never_raises_ret (a : A) : never_raises (ret a).
Proof. intros w. by exists a, w. Qed.

Lemma never_raises_bind (m : M A) (k : A -> M B) :
  never_raises m -> (forall a, never_raises (k a)) -> never_raises (bind m k).
Proof.
  intros Hm Hk w. destruct (Hm w) as (a & w' & E).
  destruct (Hk a w') as (b & w'' & E'). exists b, w''.
  by rewrite (bind_Ret _ _ _ _ _ E).
Qed.

Lemma never_raises_try_except (m : M A) (h : exn -> M A) :
  (forall e, never_raises (h e)) -> never_raises (try_except m h).
Proof.
  intros Hh w. unfold try_except.
  destruct (m w) as [[a|e] w']; [by exists a, w'|apply Hh].
Qed.

Lemma never_raises_try_finally (m : M A) (f : M unit) :
  never_raises m -> never_raises f -> never_raises (try_finally m f).
Proof.
  intros Hm Hf w. destruct (Hm w) as (a & w' & E).
  destruct (Hf w') as ([] & w'' & E'). exists a, w''.
  by apply try_finally_Ret with w'.
Qed.

End NeverRaises.

Lemma never_raises_emit ev : never_raises (emit ev).
Proof. intros w. by eexists _, _. Qed.

Lemma never_raises_path_exists p : never_raises (path_exists p).
Proof. intros w. by eexists _, _. Qed.

Lemma never_raises_read_file p : never_raises (read_file p).
Proof. intros w. by eexists _, _. Qed.

Lemma never_raises_write_file p c : never_raises (write_file p c).
Proof. intros w. by eexists _, _. Qed.

Lemma never_raises_maybe_write p c : never_raises (maybe_write p c).
Proof.
  destruct c; [apply never_raises_write_file|apply never_raises_ret].
Qed.

Create HintDb noraise.
#[local] Hint Resolve never_raises_ret never_raises_bind
  never_raises_try_except never_raises_try_finally never_raises_emit
  never_raises_path_exists never_raises_read_file never_raises_write_file
  never_raises_maybe_write : noraise.

(** ** Relations between the worlds before and after a computation *)

Section Respects.
Variable R : World -> World -> Prop.
Hypothesis R_refl : forall w, R w w.
Hypothesis R_trans : forall w1 w2 w3, R w1 w2 -> R w2 w3 -> R w1 w3.

Local Abbreviation respects := (respects R).

Lemma respects_ret {A} (a : A) : respects (ret a).
Proof. intros w. apply R_refl. Qed.

Lemma respects_raise {A} e : respects (@raise A e).
Proof. intros w. apply R_refl. Qed.

Lemma respects_lift_res {A} (r : res A) : respects (lift_res r).
Proof. intros w. apply R_refl. Qed.

Lemma respects_path_exists p : respects (path_exists p).
Proof. intros w. apply R_refl. Qed.

Lemma respects_read_file p : respects (read_file p).
Proof. intros w. apply R_refl. Qed.

Lemma respects_bind {A B} (m : M A) (k : A -> M B) :
  respects m -> (forall a, respects (k a)) -> respects (bind m k).
Proof.
  intros Hm Hk w. unfold bind. specialize (Hm w).
  destruct (m w) as [[a|e] w']; simpl in *; [|done].
  eapply R_trans; [exact Hm|apply Hk].
Qed.

Lemma respects_try_except {A} (m : M A) (h : exn -> M A) :
  respects m -> (forall e, respects (h e)) -> respects (try_except m h).
Proof.
  intros Hm Hh w. unfold try_except. specialize (Hm w).
  destruct (m w) as [[a|e] w']; simpl in *; [done|].
  eapply R_trans; [exact Hm|apply Hh].
Qed.

Lemma respects_try_finally {A} (m : M A) (f : M unit) :
  respects m -> respects f -> respects (try_finally m f).
Proof.
  intros Hm Hf w. unfold try_finally. specialize (Hm w).
  destruct (m w) as [r w']. specialize (Hf w').
  destruct (f w') as [[[]|e] w'']; simpl in *; by eapply R_trans.
Qed.

(** File-system changes and the events allowed by [ok] are invisible
    to [R]. *)
Variable ok : event -> Prop.
Hypothesis R_fs : forall w f', R w (mkWorld f' (trace w)).
Hypothesis R_emit :
  forall w ev, ok ev -> R w (mkWorld (fs w) (trace w ++ [ev])).

Lemma respects_emit ev : ok ev -> respects (emit ev).
Proof. intros Hev w. by apply R_emit. Qed.

Lemma respects_write_file p c : respects (write_file p c).
Proof. intros w. apply R_fs. Qed.

Lemma respects_maybe_write p c : respects (maybe_write p c).
Proof. destruct c; [apply respects_write_file|apply respects_ret]. Qed.

Lemma respects_shutil_copy env src dst :
  ok (EvCopy src dst) -> respects (shutil_copy env src dst).
Proof.
  intros Hok. unfold shutil_copy.
  apply respects_bind; [by apply respects_emit|]. intros _.
  apply respects_bind; [apply respects_read_file|].
  intros [c|]; [|apply respects_raise].
  destruct (decide (src = dst)); [apply respects_raise|].
  intros w. destruct (env_copy env (trace w) src dst) as [|msg [d|]].
  - apply R_fs.
  - apply R_fs.
  - apply R_refl.
Qed.

Lemma respects_rewrite_existing p c : respects (rewrite_existing p c).
Proof.
  unfold rewrite_existing.
  apply respects_bind; [apply respects_path_exists|].
  intros []; [apply respects_maybe_write|apply respects_ret].
Qed.


Lemma respects_init env :
  ok EvBuildService -> respects (YouTubeUploader.__init__ env).
Proof.
  intros Hok. unfold YouTubeUploader.__init__.
  apply respects_bind; [by apply respects_emit|]. intros _.
  apply respects_bind.
  { destruct (token_refresh _) as [[pkl_file creds]|];
      [apply respects_rewrite_existing|apply respects_ret]. }
  intros _. destruct (env_build_service env);
    [apply respects_raise|apply respects_ret].
Qed.


Lemma respects_unlink env p : ok (EvUnlink p) -> respects (unlink env p).
Proof.
  intros Hok. apply respects_bind; [by apply respects_emit|]. intros _.
  destruct (env_unlink env p); [apply respects_raise|].
  intros w. destruct (fs w !! p); [apply R_fs|apply R_refl].
Qed.

Lemma respects_cleanup_temp_files env paths :
  (forall p, ok (EvUnlink p)) -> respects (cleanup_temp_files env paths).
Proof.
  intros Hok. induction paths as [|p paths IH]; [apply respects_ret|].
  simpl. apply respects_bind; [|done].
  apply respects_try_except; [|intros; apply respects_ret].
  apply respects_bind; [apply respects_path_exists|].
  intros []; [by apply respects_unlink|apply respects_ret].
Qed.

Lemma respects_subprocess_run ev o output :
  ok ev -> respects (subprocess_run ev o output).
Proof.
  intros Hok. apply respects_bind; [by apply respects_emit|]. intros _.
  apply respects_bind; [apply respects_maybe_write|]. intros _.
  destruct (proc_result_of o); [apply respects_ret|apply respects_raise].
Qed.

Lemma respects_download_clip_segment env vod st en out :
  (forall a b c, ok (EvYtDlp a b c)) ->
  respects (download_clip_segment env vod st en out).
Proof.
  intros Hok. unfold download_clip_segment.
  apply respects_bind; [apply respects_lift_res|]. intros _.
  apply respects_bind; [apply respects_lift_res|]. intros _.
  apply respects_try_except; [|intros; apply respects_ret].
  apply respects_bind; [by apply respects_subprocess_run|]. intros r.
  apply respects_bind; [apply respects_path_exists|]. intros ex.
  destruct (_ && _); apply respects_ret.
Qed.

Lemma respects_capture_thumbnail_frame env video ts out :
  (forall a b c, ok (EvFfmpeg a b c)) ->
  respects (capture_thumbnail_frame env video ts out).
Proof.
  intros Hok. unfold capture_thumbnail_frame.
  apply respects_try_except; [|intros; apply respects_ret].
  apply respects_bind; [by apply respects_subprocess_run|]. intros r.
  apply respects_bind; [apply respects_path_exists|]. intros ex.
  destruct (_ && _); apply respects_ret.
Qed.

Lemma respects_resumable_loop response steps : forall retry,
  ok EvNextChunk -> (forall n, ok (EvSleep n)) ->
  respects (YouTubeUploader.resumable_loop response steps retry).
Proof.
  induction steps as [|step rest IH]; intros retry Hc Hs; simpl.
  - apply respects_bind; [by apply respects_emit|]. intros _.
    apply respects_ret.
  - apply respects_bind; [by apply respects_emit|]. intros _.
    assert (Herr : respects
      (if YouTubeUploader.MAX_RETRIES <? retry + 1 then ret None
       else emit (EvSleep (retry + 1)) ;;;
            YouTubeUploader.resumable_loop response rest (retry + 1))).
    { destruct (_ <? _); [apply respects_ret|].
      apply respects_bind; [by apply respects_emit|]. intros _. by apply IH. }
    destruct step as [st|e]; [by apply IH|].
    destruct e; simpl; try apply respects_raise; try exact Herr.
    + destruct (bool_decide _); [exact Herr|apply respects_raise].
    + destruct (string_empty _); [by apply IH|exact Herr].
    + destruct (string_empty _); [by apply IH|exact Herr].
Qed.

Lemma respects_set_thumbnail env vid tp :
  (forall a b c, ok (EvThumbnailsSet a b c)) ->
  respects (YouTubeUploader._set_thumbnail env vid tp).
Proof.
  intros Hok. unfold YouTubeUploader._set_thumbnail.
  apply respects_try_except; [|intros; apply respects_ret].
  apply respects_bind; [apply respects_read_file|].
  intros [c|]; [|apply respects_raise].
  apply respects_bind; [by apply respects_emit|]. intros _.
  destruct (env_thumbnails_set env); [apply respects_raise|apply respects_ret].
Qed.

(** [upload] when no thumbnail can be attached, or when attaching one is
    allowed by [ok]. *)
Lemma respects_upload env video title descr tags cat thumb privacy :
  (forall a b c, ok (EvVideosInsert a b c)) ->
  ok EvNextChunk -> (forall n, ok (EvSleep n)) ->
  (thumb = None \/ forall a b c, ok (EvThumbnailsSet a b c)) ->
  respects (YouTubeUploader.upload env video title descr tags cat thumb privacy).
Proof.
  intros Hi Hc Hs Ht.
  unfold YouTubeUploader.upload, YouTubeUploader.attach_thumbnail.
  apply respects_bind; [apply respects_path_exists|].
  intros []; simpl; [|apply respects_ret].
  apply respects_bind; [apply respects_read_file|]. intros media.
  apply respects_try_except; [|intros; apply respects_ret].
  apply respects_bind; [by apply respects_emit|]. intros _.
  apply respects_bind.
  { destruct (env_insert env); [apply respects_raise|apply respects_ret]. }
  intros _. apply respects_bind; [by apply respects_resumable_loop|].
  intros [[|c vid]|]; try apply respects_ret.
  apply respects_bind; [|intros; apply respects_ret].
  destruct Ht as [->|Ht]; [apply respects_ret|].
  destruct thumb as [[|c' tp]|]; try apply respects_ret.
  apply respects_bind; [apply respects_path_exists|].
  intros []; [|apply respects_ret].
  apply respects_bind; [by apply respects_set_thumbnail|].
  intros; apply respects_ret.
Qed.

End Respects.

(** ** The two relations on traces *)

Lemma no_new_refl sel w : no_new sel w w.
Proof. done. Qed.

Lemma no_new_trans sel w1 w2 w3 :
  no_new sel w1 w2 -> no_new sel w2 w3 -> no_new sel w1 w3.
Proof. unfold no_new. congruence. Qed.

Lemma no_new_fs sel w f' : no_new sel w (mkWorld f' (trace w)).
Proof. done. Qed.

Lemma no_new_emit sel w ev :
  sel ev = false -> no_new sel w (mkWorld (fs w) (trace w ++ [ev])).
Proof.
  intros Hev. unfold no_new. simpl. rewrite filter_app, filter_cons_False.
  - by rewrite filter_nil, app_nil_r.
  - by rewrite Hev.
Qed.

Lemma trace_extends_refl w : trace_extends w w.
Proof. exists []. by rewrite app_nil_r. Qed.

Lemma trace_extends_trans w1 w2 w3 :
  trace_extends w1 w2 -> trace_extends w2 w3 -> trace_extends w1 w3.
Proof.
  intros [e1 H1] [e2 H2]. exists (e1 ++ e2)%list.
  by rewrite H2, H1, app_assoc.
Qed.

Lemma trace_extends_fs w f' : trace_extends w (mkWorld f' (trace w)).
Proof. exists []. simpl. by rewrite app_nil_r. Qed.

Lemma trace_extends_emit w ev :
  True -> trace_extends w (mkWorld (fs w) (trace w ++ [ev])).
Proof. intros _. by exists [ev]. Qed.

(** ** Paths *)


Lemma string_length_app (s t : string) :
  String.length (s +:+ t) = (String.length s + String.length t)%nat.
Proof.
  induction s as [|a s IH]; [done|].
  change (S (String.length (s +:+ t)) = S (String.length s + String.length t)).
  by rewrite IH.
Qed.














(* ================================================================== *)
(** * Upload client: properties                                        *)
(* ================================================================== *)



Lemma never_raises_upload env video title descr tags cat thumb privacy :
  never_raises
    (YouTubeUploader.upload env video title descr tags cat thumb privacy).
Proof.
  unfold YouTubeUploader.upload.
  apply never_raises_bind; [eauto with noraise|].
  intros []; simpl; eauto with noraise.
Qed.





Lemma count_failures_cons step steps :
  count_failures (step :: steps)
  = (if retriable_failure step then 1 else 0) + count_failures steps.
Proof.
  unfold count_failures. destruct (retriable_failure step) eqn:E.
  - rewrite filter_cons_True by done. simpl length. lia.
  - rewrite filter_cons_False by (by rewrite E). lia.
Qed.

(** The retry counter is never reset: once more than [MAX_RETRIES]
    retriable failures have been met, with only progress reports in
    between, the loop gives up and returns [None]. *)
Lemma resumable_loop_exhausts response pre : forall rest retry w,
  forallb survivable pre = true ->
  retry <= YouTubeUploader.MAX_RETRIES ->
  YouTubeUploader.MAX_RETRIES < retry + count_failures pre ->
  (YouTubeUploader.resumable_loop response (pre ++ rest) retry w).1
  = Ret None.
Proof.
  induction pre as [|step pre IH]; intros rest retry w Hs Hr Hc.
  { unfold count_failures in Hc. simpl in Hc. lia. }
  rewrite count_failures_cons in Hc.
  apply andb_true_iff in Hs as [Hstep Hs].
  assert (Herr : forall w',
    retriable_failure step = true ->
    ((if YouTubeUploader.MAX_RETRIES <? retry + 1 then ret None
      else emit (EvSleep (retry + 1)) ;;;
           YouTubeUploader.resumable_loop response (pre ++ rest) (retry + 1))
       w').1 = Ret None).
  { intros w' Hf. rewrite Hf in Hc.
    destruct (Z.ltb_spec YouTubeUploader.MAX_RETRIES (retry + 1)); [done|].
    unfold bind, emit. apply IH; [done|lia|lia]. }
  simpl. unfold bind at 1, emit at 1.
  destruct step as [st|e].
  - simpl in Hc. apply IH; [done|done|lia].
  - destruct e; simpl in Hstep; try discriminate; simpl.
    + rewrite Hstep. by apply Herr.
    + destruct (string_empty msg) eqn:Em.
      * simpl in Hc. rewrite Em in Hc. simpl in Hc. apply IH; [done|done|lia].
      * apply Herr. simpl. by rewrite Em.
    + destruct (string_empty msg) eqn:Em.
      * simpl in Hc. rewrite Em in Hc. simpl in Hc. apply IH; [done|done|lia].
      * apply Herr. simpl. by rewrite Em.
Qed.

Lemma upload_none_when_exhausted env pre rest :
  env_chunks env = (pre ++ rest)%list ->
  forallb survivable pre = true ->
  YouTubeUploader.MAX_RETRIES < count_failures pre ->
  forall video title descr tags cat thumb privacy w,
    (YouTubeUploader.upload env video title descr tags cat thumb privacy w).1
    = Ret None.
Proof.
  intros Hch Hs Hc video title descr tags cat thumb privacy w.
  unfold YouTubeUploader.upload, bind, try_except, path_exists, read_file,
    emit, ret, raise.
  destruct (negb _); [done|].
  destruct (env_insert env); [done|].
  destruct (YouTubeUploader._resumable_upload env _) as [r w4] eqn:E.
  assert (r = Ret None) as ->; [|done].
  change r with (r, w4).1. rewrite <- E.
  unfold YouTubeUploader._resumable_upload. rewrite Hch.
  apply resumable_loop_exhausts; [done|done|lia].
Qed.


Lemma upload_to_youtube_none env video thumb clip creds w :
  (forall video title descr tags cat thumb privacy w,
     (YouTubeUploader.upload env video title descr tags cat thumb privacy w).1
     = Ret None) ->
  (upload_to_youtube env video thumb clip creds w).1 = Ret None.
Proof.
  intros Hup.
  unfold upload_to_youtube, bind, try_except, path_exists, read_file,
    emit, ret, raise.
  destruct (YouTubeUploader.__init__ env _) as [[[]|e] w1]; [|done].
  match goal with
  | |- context [YouTubeUploader.upload ?e ?v ?t ?d ?g ?c ?th ?p ?w] =>
      pose proof (Hup v t d g c th p w) as H;
      destruct (YouTubeUploader.upload e v t d g c th p w) as [[r|e'] w2]
  end; [|done].
  simpl in H. injection H as ->. done.
Qed.

(* ================================================================== *)
(** * Clip orchestrator: properties                                    *)
(* ================================================================== *)

Lemma shutil_copy_existing env src dst w c :
  copies_allowed env ->
  src <> dst ->
  fs w !! src = Some c ->
  shutil_copy env src dst w
  = (Ret tt, mkWorld (<[dst := c]> (fs w)) (trace w ++ [EvCopy src dst])).
Proof.
  intros Hcopy Hne H. unfold shutil_copy, bind, read_file, emit. simpl.
  by rewrite H, decide_False, Hcopy.
Qed.

Lemma never_raises_capture_thumbnail_frame env video ts out :
  never_raises (capture_thumbnail_frame env video ts out).
Proof. unfold capture_thumbnail_frame. eauto with noraise. Qed.

Lemma never_raises_cleanup_temp_files env paths :
  never_raises (cleanup_temp_files env paths).
Proof. induction paths; simpl; eauto with noraise. Qed.

Lemma files_kept_refl w : files_kept w w.
Proof. by intros p. Qed.

Lemma files_kept_trans w1 w2 w3 :
  files_kept w1 w2 -> files_kept w2 w3 -> files_kept w1 w3.
Proof. intros H1 H2 p Hp. by apply H2, H1. Qed.

Lemma files_kept_write_file p c : respects files_kept (write_file p c).
Proof.
  intros w q Hq. simpl. apply lookup_insert_is_Some'. by right.
Qed.

Lemma files_kept_emit ev : respects files_kept (emit ev).
Proof. by intros w p Hp. Qed.

Lemma files_kept_shutil_copy env src dst :
  respects files_kept (shutil_copy env src dst).
Proof.
  intros w p Hp. unfold shutil_copy, bind, emit, read_file. simpl.
  destruct (fs w !! src) as [c|]; [|done].
  destruct (decide (src = dst)); [done|].
  destruct (env_copy env _ src dst) as [|msg [d|]]; simpl; try done;
    apply lookup_insert_is_Some'; by right.
Qed.

Ltac files_kept_steps :=
  repeat first
    [ apply files_kept_shutil_copy
    | apply respects_bind; [exact files_kept_trans| |intros ?]
    | apply respects_try_except; [exact files_kept_trans| |intros ?]
    | apply respects_ret; exact files_kept_refl
    | apply respects_raise; exact files_kept_refl
    | apply respects_read_file; exact files_kept_refl
    | apply respects_path_exists; exact files_kept_refl
    | apply files_kept_write_file
    | apply files_kept_emit
    | match goal with
      | |- respects _ (if ?b then _ else _) => destruct b
      | |- respects _ (match ?x with _ => _ end) => destruct x
      end ].

Lemma files_kept_generate_thumbnail_chatgpt env clip frame thumb :
  respects files_kept (generate_thumbnail_chatgpt env clip frame thumb).
Proof.
  unfold generate_thumbnail_chatgpt, generate, session_files,
    rewrite_existing, maybe_write.
  files_kept_steps.
Qed.




(** Step 3 does not raise as long as no copy is refused: when the frame
    exists the copy of the fallback finds it, whatever the enhancer
    did. *)
Lemma never_raises_thumbnail_step env clip frame thumb :
  copies_allowed env ->
  frame <> thumb ->
  never_raises (thumbnail_step env clip frame thumb).
Proof.
  intros Hcopy Hne w. unfold thumbnail_step, bind at 1, path_exists at 1.
  case_bool_decide as Hf; [|by eexists _, _].
  unfold try_except.
  pose proof (files_kept_generate_thumbnail_chatgpt env clip frame thumb w)
    as Hk.
  unfold bind.
  destruct (generate_thumbnail_chatgpt env clip frame thumb w)
    as [[b|e] w1]; [by eexists _, _|].
  destruct (Hk frame Hf) as [c Hc]. simpl in Hc.
  rewrite (shutil_copy_existing _ _ _ _ _ Hcopy Hne Hc). by eexists _, _.
Qed.


Section ProcessClip.
Variables (env : ClipEnv) (clip : ClipData) (vod creds : string) (i n : nat).

Let video := video_path_of (clip_id_of clip i).
Let frame := frame_path_of (clip_id_of clip i).
Let thumb := thumbnail_path_of (clip_id_of clip i).

(** The [finally] clause runs after the body and keeps its value. *)
Lemma process_clip_from_try w r w1 :
  process_clip_try env clip vod creds i w = (Ret r, w1) ->
  exists w',
    cleanup_temp_files env [video; frame; thumb] w1 = (Ret tt, w') /\
    process_clip env clip vod creds i n w = (Ret r, w').
Proof.
  intros Ht.
  destruct (never_raises_cleanup_temp_files env [video; frame; thumb] w1)
    as ([] & w' & Hc).
  exists w'. split; [done|]. unfold process_clip.
  apply try_finally_Ret with w1; [|done]. by apply try_except_Ret.
Qed.

Lemma process_clip_try_download_failed w w1 :
  download_clip_segment env vod (start_time_of clip) (end_time_of clip)
    video w = (Ret false, w1) ->
  process_clip_try env clip vod creds i w
  = (Ret (result_of clip i Failed None
            (Some "Falha no download do segmento")), w1).
Proof.
  intros Hd. unfold process_clip_try. cbv zeta.
  by rewrite (bind_Ret _ _ _ _ _ Hd).
Qed.

Lemma process_clip_try_reaches_upload w w1 rt b w2 w3 :
  download_clip_segment env vod (start_time_of clip) (end_time_of clip)
    video w = (Ret true, w1) ->
  relative_thumb_of clip = Ret rt ->
  capture_thumbnail_frame env video rt frame w1 = (Ret b, w2) ->
  thumbnail_step env clip frame thumb w2 = (Ret tt, w3) ->
  process_clip_try env clip vod creds i w
  = upload_step env clip creds i video frame thumb w3.
Proof.
  intros Hd Ht Hc Hs. unfold process_clip_try. cbv zeta.
  rewrite (bind_Ret _ _ _ _ _ Hd). change (negb true) with false.
  cbv beta iota.
  rewrite (bind_Ret _ _ w1 rt w1) by (by rewrite Ht).
  rewrite (bind_Ret _ _ _ _ _ Hc).
  by rewrite (bind_Ret _ _ _ _ _ Hs).
Qed.

Lemma never_raises_process_clip :
  never_raises (process_clip env clip vod creds i n).
Proof.
  unfold process_clip.
  eauto using never_raises_cleanup_temp_files with noraise.
Qed.

End ProcessClip.

(** C3.  When the segment download reports failure (it returns [False]),
    the outcome of the clip has status [failed] with the download error
    message and no video id, and no step of an upload attempt happens
    while the clip is processed. *)
Theorem download_failure_no_upload env clip vod creds i n w w1 :
  download_clip_segment env vod (start_time_of clip) (end_time_of clip)
    (video_path_of (clip_id_of clip i)) w = (Ret false, w1) ->
  exists r w',
    process_clip env clip vod creds i n w = (Ret r, w') /\
    co_status r = Failed /\
    co_error r = Some "Falha no download do segmento" /\
    co_video_id r = None /\
    no_new is_upload_event w w'.
Proof.
  intros Hd.
  pose proof (process_clip_try_download_failed _ _ _ creds _ _ _ Hd) as Ht.
  destruct (process_clip_from_try _ _ _ _ _ n _ _ _ Ht) as (w' & Hc & Hp).
  eexists _, w'. split; [exact Hp|]. repeat split.
  apply no_new_trans with w1.
  - change w1 with (Ret false, w1).2. rewrite <- Hd.
    apply (respects_download_clip_segment (no_new is_upload_event)
             (no_new_refl _) (no_new_trans _)
             (fun ev => is_upload_event ev = false)
             (no_new_fs _) (no_new_emit _)); done.
  - change w' with (Ret tt, w').2. rewrite <- Hc.
    apply (respects_cleanup_temp_files (no_new is_upload_event)
             (no_new_refl _) (no_new_trans _)
             (fun ev => is_upload_event ev = false)
             (no_new_fs _) (no_new_emit _)); done.
Qed.

(** The three causes named by the claim make the download report
    failure: a non-zero exit status, a missing destination file, and an
    exception of the sub-process call such as its timeout. *)
Lemma download_reports_failure env vod st en out w s e :
  time_to_seconds st = Ret s -> time_to_seconds en = Ret e ->
  match proc_result_of (env_download env) with
  | Exited rc _ =>
      rc <> 0 \/ (fs w !! out = None /\ proc_writes (env_download env) = None)
  | ProcRaises _ => True
  end ->
  exists w1, download_clip_segment env vod st en out w = (Ret false, w1).
Proof.
  intros Hs He Hf.
  unfold download_clip_segment, lift_res, bind, try_except, subprocess_run,
    bind, emit, maybe_write, write_file, path_exists, ret, raise.
  rewrite Hs, He.
  destruct (env_download env) as [wr [rc err|ex]]; simpl in *.
  - destruct wr as [d|]; simpl.
    + destruct Hf as [Hrc|[_ [=]]].
      destruct (Z.eqb_spec rc 0); [done|]. simpl. by eexists.
    + destruct Hf as [Hrc|[Hnone _]].
      * destruct (Z.eqb_spec rc 0); [done|]. simpl. by eexists.
      * rewrite Hnone. rewrite bool_decide_eq_false_2 by (by intros [? ?]).
        rewrite andb_false_r. by eexists.
  - destruct wr as [d|]; simpl; by eexists.
Qed.

Lemma download_failure_no_upload_witness :
  exists r w',
    process_clip
      (with_download sample_env (mkProc None (Exited 1 "HTTP Error 404")))
      sample_clip "vod" "cred" 0 1 empty_world = (Ret r, w') /\
    co_status r = Failed /\
    co_error r = Some "Falha no download do segmento" /\
    co_video_id r = None /\
    no_new is_upload_event empty_world w'.
Proof.
  eapply download_failure_no_upload. vm_compute. reflexivity.
Defined.

(** [cleanup_temp_files] creates no file, and removes every listed file
    whose removal the system does not refuse. *)
Lemma cleanup_temp_files_removes env paths : forall w,
  (forall p, p ∈ paths -> env_unlink env p = None) ->
  exists w',
    cleanup_temp_files env paths w = (Ret tt, w') /\
    (forall p, p ∈ paths -> fs w' !! p = None) /\
    (forall q, fs w !! q = None -> fs w' !! q = None).
Proof.
  induction paths as [|p paths IH]; intros w Hu.
  { exists w. split; [done|]. split; [|done]. by intros p ?%elem_of_nil. }
  assert (exists w1,
    try_except (ex <- path_exists p ;; if ex then unlink env p else ret tt)
      (fun _ => ret tt) w = (Ret tt, w1) /\
    fs w1 !! p = None /\
    (forall q, fs w !! q = None -> fs w1 !! q = None)) as (w1 & E1 & Hp & Hq).
  { unfold try_except, bind, path_exists, unlink, bind, emit, ret.
    rewrite (Hu p) by apply list_elem_of_here. simpl.
    destruct (fs w !! p) as [c|] eqn:Hc.
    - rewrite bool_decide_eq_true_2 by eauto. simpl. rewrite Hc.
      eexists. split; [done|]. simpl. split; [apply lookup_delete_eq|].
      intros q Hq. by apply lookup_delete_None; right.
    - rewrite bool_decide_eq_false_2 by (by intros [? ?]).
      exists w. done. }
  destruct (IH w1) as (w' & E' & Hin & Hkeep).
  { intros q Hin. apply Hu. by apply list_elem_of_further. }
  exists w'. split.
  { simpl. by rewrite (bind_Ret _ _ _ _ _ E1). }
  split; [|by auto].
  intros q [->|Hin']%elem_of_cons; auto.
Qed.

(** C5, as the code has it.  Provided the system refuses none of the
    three removals, the segment, frame and thumbnail files of a clip do
    not exist once [process_clip] has returned, whatever the outcome of
    the clip: success, failure or an exception inside the [try]. *)
Theorem temp_files_removed env clip vod creds i n w :
  (forall p,
     p ∈ [video_path_of (clip_id_of clip i);
          frame_path_of (clip_id_of clip i);
          thumbnail_path_of (clip_id_of clip i)] ->
     env_unlink env p = None) ->
  exists r w',
    process_clip env clip vod creds i n w = (Ret r, w') /\
    fs w' !! video_path_of (clip_id_of clip i) = None /\
    fs w' !! frame_path_of (clip_id_of clip i) = None /\
    fs w' !! thumbnail_path_of (clip_id_of clip i) = None.
Proof.
  intros Hu. unfold process_clip. cbv zeta.
  set (body := try_except _ _).
  assert (never_raises body) as Hb by (unfold body; eauto with noraise).
  destruct (Hb w) as (r & w1 & E1).
  destruct (cleanup_temp_files_removes env _ w1 Hu) as (w' & E' & Hin & _).
  exists r, w'. split; [by apply try_finally_Ret with w1|].
  repeat split; apply Hin; rewrite !elem_of_cons; auto.
Qed.

Lemma temp_files_removed_witness :
  exists r w',
    process_clip sample_env sample_clip "vod" "cred" 0 1 empty_world
    = (Ret r, w') /\
    fs w' !! "temp_clips/c1.mp4" = None /\
    fs w' !! "temp_clips/c1_frame.png" = None /\
    fs w' !! "temp_clips/c1_thumbnail.png" = None.
Proof.
  apply (temp_files_removed sample_env sample_clip "vod" "cred" 0 1
           empty_world).
  intros p _. reflexivity.
Defined.

(** C5, as stated, fails: when the system refuses to remove the segment
    file, [cleanup_temp_files] drops the error and the file is still there
    after [process_clip] has returned. *)
Lemma refused_removal_leaves_file :
  exists r w',
    process_clip
      (with_unlink sample_env
         (fun p => if String.eqb p "temp_clips/c1.mp4"
                   then Some (OSError "Permission denied") else None))
      sample_clip "vod" "cred" 0 1 empty_world = (Ret r, w') /\
    co_status r = Success /\
    fs w' !! "temp_clips/c1.mp4" = Some "VIDEO".
Proof.
  eexists _, _. split; [vm_compute; reflexivity|].
  split; vm_compute; reflexivity.
Qed.

Lemma upload_step_none env clip creds i video frame thumb w :
  (forall video title descr tags cat thumb privacy w,
     (YouTubeUploader.upload env video title descr tags cat thumb privacy w).1
     = Ret None) ->
  exists w',
    upload_step env clip creds i video frame thumb w
    = (Ret (result_of clip i Failed None (Some "Falha no upload")), w').
Proof.
  intros Hup. unfold upload_step, bind, path_exists.
  match goal with
  | |- context [upload_to_youtube ?e ?v ?t ?c ?k ?w0] =>
      pose proof (upload_to_youtube_none e v t c k w0 Hup) as H;
      destruct (upload_to_youtube e v t c k w0) as [r w']
  end.
  simpl in H. subst r. by eexists.
Qed.

(** C2, as the code has it.  [MAX_RETRIES] bounds the retries, not the
    attempts: when [next_chunk] fails six times (more than
    [MAX_RETRIES = 5]) with a retriable error, that is a retriable HTTP
    status or a retriable exception with a non-empty text, with nothing
    but progress reports and failures of a retriable kind in between,
    [upload] returns [None] without raising, and the orchestrator, once
    the segment is downloaded, the thumbnail offset computed and the
    thumbnail step completed, so that the upload step is reached, records
    the clip as [failed] with the upload error message. *)
Theorem retries_exhausted_fails env pre rest :
  env_chunks env = (pre ++ rest)%list ->
  forallb survivable pre = true ->
  YouTubeUploader.MAX_RETRIES < count_failures pre ->
  (forall video title descr tags cat thumb privacy w,
     (YouTubeUploader.upload env video title descr tags cat thumb privacy w).1
     = Ret None) /\
  (forall clip vod creds i n w w1 rt b w2 w3,
     download_clip_segment env vod (start_time_of clip) (end_time_of clip)
       (video_path_of (clip_id_of clip i)) w = (Ret true, w1) ->
     relative_thumb_of clip = Ret rt ->
     capture_thumbnail_frame env (video_path_of (clip_id_of clip i)) rt
       (frame_path_of (clip_id_of clip i)) w1 = (Ret b, w2) ->
     thumbnail_step env clip (frame_path_of (clip_id_of clip i))
       (thumbnail_path_of (clip_id_of clip i)) w2 = (Ret tt, w3) ->
     exists w',
       process_clip env clip vod creds i n w
       = (Ret (result_of clip i Failed None (Some "Falha no upload")), w')).
Proof.
  intros Hch Hs Hc.
  pose proof (upload_none_when_exhausted env pre rest Hch Hs Hc) as Hup.
  split; [exact Hup|].
  intros clip vod creds i n w w1 rt b w2 w3 Hd Ht Hcap Hth.
  destruct (upload_step_none env clip creds i
              (video_path_of (clip_id_of clip i))
              (frame_path_of (clip_id_of clip i))
              (thumbnail_path_of (clip_id_of clip i)) w3 Hup) as (w4 & Hu).
  pose proof (process_clip_try_reaches_upload env clip vod creds i
                _ _ _ _ _ _ Hd Ht Hcap Hth) as Htry.
  rewrite Hu in Htry.
  destruct (process_clip_from_try env clip vod creds i n _ _ _ Htry)
    as (w' & _ & Hp).
  by exists w'.
Qed.

Lemma retries_exhausted_fails_witness :
  exists w',
    process_clip
      (with_chunks sample_env (replicate 6 (ChunkRaises (HttpError 503 "busy"))))
      sample_clip "vod" "cred" 0 1 empty_world
    = (Ret (result_of sample_clip 0 Failed None (Some "Falha no upload")), w').
Proof.
  eapply (retries_exhausted_fails
            (with_chunks sample_env
               (replicate 6 (ChunkRaises (HttpError 503 "busy"))))
            (replicate 6 (ChunkRaises (HttpError 503 "busy"))) []).
  - reflexivity.
  - reflexivity.
  - vm_compute. reflexivity.
  - vm_compute. reflexivity.
  - reflexivity.
  - vm_compute. reflexivity.
  - vm_compute. reflexivity.
Defined.

(** C2, as stated, fails: after five consecutive retriable failures the
    loop tries a sixth time, and when that call completes the upload
    succeeds and the clip is recorded as a success. *)
Lemma five_failures_then_success :
  let env := with_chunks sample_env
               (replicate 5 (ChunkRaises (HttpError 503 "busy"))) in
  (YouTubeUploader.upload env "v.mp4" "Title" "" None "entertainment" None
     "private" (mkWorld {[ "v.mp4" := "VIDEO" ]} [])).1
  = Ret (Some "vid123") /\
  (process_clip env sample_clip "vod" "cred" 0 1 empty_world).1
  = Ret (result_of sample_clip 0 Success (Some "vid123") None).
Proof. vm_compute. split; reflexivity. Qed.

(** ** Traces of the orchestrator's steps *)

Lemma respects_result R {A} (m : M A) w r w' :
  respects R m -> m w = (r, w') -> R w w'.
Proof. intros H E. specialize (H w). by rewrite E in H. Qed.

Section AllEvents.

Let ext_bind {A B} := @respects_bind trace_extends trace_extends_trans A B.
Let ext_emit := respects_emit trace_extends (fun _ => True) trace_extends_emit.

Lemma trace_extends_download env vod st en out :
  respects trace_extends (download_clip_segment env vod st en out).
Proof.
  by apply (respects_download_clip_segment trace_extends trace_extends_refl
              trace_extends_trans (fun _ => True) trace_extends_fs
              trace_extends_emit).
Qed.

Lemma trace_extends_capture env video ts out :
  respects trace_extends (capture_thumbnail_frame env video ts out).
Proof.
  by apply (respects_capture_thumbnail_frame trace_extends trace_extends_refl
              trace_extends_trans (fun _ => True) trace_extends_fs
              trace_extends_emit).
Qed.

Lemma trace_extends_cleanup env paths :
  respects trace_extends (cleanup_temp_files env paths).
Proof.
  by apply (respects_cleanup_temp_files trace_extends trace_extends_refl
              trace_extends_trans (fun _ => True) trace_extends_fs
              trace_extends_emit).
Qed.

Lemma trace_extends_upload env video title descr tags cat thumb privacy :
  respects trace_extends
    (YouTubeUploader.upload env video title descr tags cat thumb privacy).
Proof.
  apply respects_upload with (ok := fun _ => True);
    auto using trace_extends_refl, trace_extends_emit.
  exact trace_extends_trans.
Qed.

(** The upload step announces itself with the thumbnail file it was
    given, as that file is at that moment. *)
Lemma upload_to_youtube_event env video thumb clip creds w :
  exists v w' evs,
    upload_to_youtube env video thumb clip creds w = (Ret v, w') /\
    trace w' = (trace w ++ EvUploadStep video thumb (fs w !! thumb) :: evs)%list.
Proof.
  unfold upload_to_youtube, bind at 1 2, read_file, emit at 1.
  set (w0 := mkWorld (fs w) (trace w ++ [EvUploadStep video thumb (fs w !! thumb)])).
  set (T := try_except _ _).
  assert (never_raises T) as Hn.
  { unfold T, YouTubeUploader.__init__.
    apply never_raises_try_except. eauto with noraise. }
  assert (respects trace_extends T) as Hr.
  { unfold T, YouTubeUploader.__init__.
    apply respects_try_except;
      [exact trace_extends_trans| |intros; apply respects_ret, trace_extends_refl].
    apply ext_bind.
    { apply respects_init with (ok := fun _ => True);
        auto using trace_extends_refl, trace_extends_fs, trace_extends_emit.
      exact trace_extends_trans. }
    intros _. apply ext_bind; [apply respects_path_exists, trace_extends_refl|].
    intros tex. apply ext_bind; [apply trace_extends_upload|].
    intros v. destruct (truthy v); apply respects_ret, trace_extends_refl. }
  destruct (Hn w0) as (v & w' & E).
  destruct (respects_result _ _ _ _ _ Hr E) as [evs Hevs].
  exists v, w', evs. split; [done|].
  rewrite Hevs. unfold w0. simpl. by rewrite <- app_assoc.
Qed.

End AllEvents.




Lemma returns_only_ret {A} (Q : A -> Prop) a : Q a -> returns_only Q (ret a).
Proof. intros HQ w a' w' [= <- _]. done. Qed.

Lemma returns_only_bind {A B} (Q : B -> Prop) (m : M A) (k : A -> M B) :
  (forall a, returns_only Q (k a)) -> returns_only Q (bind m k).
Proof.
  intros Hk w b w'. unfold bind.
  destruct (m w) as [[a|e] w1]; [apply Hk|discriminate].
Qed.

Lemma returns_only_apply {A} (Q : A -> Prop) (m : M A) w a w' :
  returns_only Q m -> m w = (Ret a, w') -> Q a.
Proof. intros H. apply H. Qed.

Lemma outcome_for_result_of clip i st vid err :
  st <> Pending -> outcome_for clip i (result_of clip i st vid err).
Proof. by intros Hst. Qed.

(** Every record that the body of the [try] returns is built by one of
    its two [return] statements. *)
Lemma process_clip_try_returns (Q : ClipOutcome -> Prop) env clip vod creds i :
  Q (result_of clip i Failed None (Some "Falha no download do segmento")) ->
  (forall v, Q (outcome_of_upload clip i v)) ->
  returns_only Q (process_clip_try env clip vod creds i).
Proof.
  intros Hd Hu. unfold process_clip_try. cbv zeta.
  apply returns_only_bind. intros [].
  - simpl. do 3 (apply returns_only_bind; intros ?).
    unfold upload_step. do 2 (apply returns_only_bind; intros ?).
    apply returns_only_ret, Hu.
  - simpl. by apply returns_only_ret.
Qed.

(** [process_clip] always returns: the record of its [try], or the one
    that its handler fills in. *)
Lemma process_clip_returns (Q : ClipOutcome -> Prop) env clip vod creds i n w :
  returns_only Q (process_clip_try env clip vod creds i) ->
  (forall e, Q (result_of clip i Error None (Some (str_of_exn e)))) ->
  exists r w',
    process_clip env clip vod creds i n w = (Ret r, w') /\ Q r.
Proof.
  intros Htry Hexn.
  destruct (never_raises_process_clip env clip vod creds i n w)
    as (r & w' & E).
  exists r, w'. split; [done|].
  revert E. unfold process_clip, try_finally, try_except.
  destruct (process_clip_try env clip vod creds i w) as [[r0|e] w1] eqn:E1.
  - destruct (cleanup_temp_files _ _ _) as [[[]|e] w2]; [|discriminate].
    intros [= <- _]. by eapply Htry.
  - unfold ret at 1.
    destruct (cleanup_temp_files _ _ _) as [[[]|e'] w2]; [|discriminate].
    intros [= <- _]. apply Hexn.
Qed.

Lemma outcome_for_upload clip i v : outcome_for clip i (outcome_of_upload clip i v).
Proof.
  unfold outcome_of_upload. destruct (truthy v); by apply outcome_for_result_of.
Qed.

(** [process_clip] always hands back a finished record of its
    descriptor. *)
Lemma process_clip_outcome env clip vod creds i n w :
  exists r w',
    process_clip env clip vod creds i n w = (Ret r, w') /\
    outcome_for clip i r.
Proof.
  apply process_clip_returns.
  - apply process_clip_try_returns;
      [by apply outcome_for_result_of|apply outcome_for_upload].
  - intros e. by apply outcome_for_result_of.
Qed.












(* ================================================================== *)
(** * Batch runner: properties                                         *)
(* ================================================================== *)

Lemma process_all_outcomes envs vod creds total youtube_clips :
  forall i results w,
  exists rs w',
    process_all envs vod creds total i youtube_clips results w
    = (Ret (results ++ rs)%list, w') /\
    length rs = length youtube_clips /\
    (forall j clip, youtube_clips !! j = Some clip ->
       exists r, rs !! j = Some r /\ outcome_for clip (i + j) r).
Proof.
  induction youtube_clips as [|clip rest IH]; intros i results w.
  { exists [], w. rewrite app_nil_r. split; [done|]. split; [done|].
    intros j c. by rewrite lookup_nil. }
  destruct (process_clip_outcome (envs i) clip vod creds i total w)
    as (r & w1 & E & Hr).
  simpl. rewrite (bind_Ret _ _ _ _ _ E).
  set (pause := if _ && _ then _ else _).
  assert (exists w2, pause w1 = (Ret tt, w2)) as [w2 E2].
  { unfold pause. destruct (_ && _); by eexists. }
  rewrite (bind_Ret _ _ _ _ _ E2).
  destruct (IH (S i) (results ++ [r])%list w2) as (rs & w' & E' & Hlen & Hrs).
  exists (r :: rs), w'. split.
  { rewrite E'. by rewrite <- app_assoc. }
  split; [simpl; by rewrite Hlen|].
  intros [|j] c Hj; simpl in *.
  - injection Hj as <-. exists r. by rewrite Nat.add_0_r.
  - destruct (Hrs j c Hj) as (r' & Hr' & Ho). exists r'. split; [done|].
    by replace (i + S j)%nat with (S i + j)%nat by lia.
Qed.

Lemma counts_add_up (results : list ClipOutcome) :
  Forall (fun r => co_status r <> Pending) results ->
  (successful (summary_of results) + failed (summary_of results)
   = total_clips (summary_of results))%nat.
Proof.
  unfold summary_of. simpl.
  induction 1 as [|r rs Hr _ IH]; [done|].
  assert (Success ∉ [Failed; Error]) as Hs
    by (rewrite !elem_of_cons, elem_of_nil; by intros [|[|]]).
  assert (Failed ∈ [Failed; Error]) as Hf by apply list_elem_of_here.
  assert (Error ∈ [Failed; Error]) as He
    by apply list_elem_of_further, list_elem_of_here.
  destruct (co_status r) eqn:Es; [done|..].
  - rewrite filter_cons_True by done.
    rewrite (filter_cons_False _ r) by (by rewrite Es). simpl. lia.
  - rewrite filter_cons_False by (by rewrite Es).
    rewrite (filter_cons_True _ r) by (by rewrite Es). simpl. lia.
  - rewrite filter_cons_False by (by rewrite Es).
    rewrite (filter_cons_True _ r) by (by rewrite Es). simpl. lia.
Qed.

(** C1.  For every list of N clip descriptors, whatever the outside
    world answers, the batch runner returns a summary that holds exactly
    N outcomes, the outcome at each position carrying the identifier and
    title of the descriptor at that position; its total is N, its
    [failed] count is the number of outcomes whose status is [failed] or
    [error], and [successful + failed = total_clips]. *)
Theorem batch_summary_complete envs vod creds (youtube_clips : list ClipData) w :
  exists summary w',
    run_batch envs vod creds youtube_clips w = (Ret summary, w') /\
    length (clips summary) = length youtube_clips /\
    (forall j clip, youtube_clips !! j = Some clip ->
       exists r, clips summary !! j = Some r /\
                 co_clip_id r = clip_id_of clip j /\
                 co_title r = cd_title clip) /\
    total_clips summary = length youtube_clips /\
    failed summary
    = length (filter (fun r => co_status r = Failed \/ co_status r = Error)
                (clips summary)) /\
    (successful summary + failed summary = total_clips summary)%nat.
Proof.
  destruct (process_all_outcomes envs vod creds (length youtube_clips)
              youtube_clips 0%nat [] w) as (rs & w1 & E & Hlen & Hrs).
  simpl in E.
  exists (summary_of rs), (mkWorld (fs w1) (trace w1 ++ [EvSaveLog PROCESSING_LOG (summary_of rs)])).
  split.
  { unfold run_batch. rewrite (bind_Ret _ _ _ _ _ E). done. }
  split; [done|]. split.
  { intros j clip Hj. destruct (Hrs j clip Hj) as (r & Hr & Hid & Ht & _).
    exists r. by simpl in *. }
  split; [done|]. split.
  { simpl. f_equal. apply list_filter_iff. intros r.
    rewrite !elem_of_cons, elem_of_nil. tauto. }
  apply counts_add_up. apply Forall_lookup_2. intros j r Hr.
  assert (j < length youtube_clips)%nat as Hlt
    by (rewrite <- Hlen; by eapply lookup_lt_Some).
  destruct (lookup_lt_is_Some_2 _ _ Hlt) as [clip Hc].
  destruct (Hrs j clip Hc) as (r' & Hr' & _ & _ & Hst). congruence.
Qed.

(* ================================================================== *)
(** * Time codec: further properties                                   *)
(* ================================================================== *)

Section TimeCodecMore.

Local Abbreviation cps s := (PyStr.byte <$> list_ascii_of_string s).

Lemma string_length_zeros n : String.length (zeros n) = n.
Proof.
  induction n as [|n IH]; [done|].
  replace (zeros (S n)) with (String "0" (zeros n)).
  - simpl. by rewrite IH.
  - unfold zeros. simpl. by destruct n.
Qed.

Lemma pretty_N_nonempty (x : N) : (1 <= String.length (pretty x))%nat.
Proof.
  pose proof (scan_digits_pretty x false) as H.
  destruct (pretty x); [discriminate|simpl; lia].
Qed.

Lemma format_02d_neg_eq (z : Z) :
  z < 0 -> format_02d z = String "-" (pretty (Z.abs_N z)).
Proof.
  intros Hz. unfold format_02d.
  destruct (Z.ltb_spec z 0) as [_|?]; [|lia].
  pose proof (pretty_N_nonempty (Z.abs_N z)) as Hl.
  replace (2 - String.length "-" - String.length (pretty (Z.abs_N z)))%nat
    with 0%nat by (simpl; lia).
  reflexivity.
Qed.

(** [int()] on a minus sign followed by digits. *)
Lemma py_int_minus_digits s v :
  all_digits s = true -> scan_digits 0 false (cps s) = Some (v, []) ->
  py_int (String "-" s) = Ret (- v).
Proof.
  intros Hs Hv. unfold py_int.
  rewrite code_points_ascii
    by (constructor; [done|by apply all_digits_ascii_only]).
  unfold parse_int.
  change (skip_spaces (cps (String "-" s))) with (45 :: cps s).
  cbn [snd fst Z.eqb Pos.eqb]. rewrite Hv. simpl. f_equal; lia.
Qed.

Lemma split_colon_minus_digits_colon s t :
  all_digits s = true ->
  split_colon (String "-" (s +:+ String colon t))
  = String "-" s :: split_colon t.
Proof.
  intros Hs. change (split_colon (String "-" (s +:+ String colon t)))
    with (match split_colon (s +:+ String colon t) with
          | [] => [String "-"%char ""]
          | p :: ps => String "-"%char p :: ps
          end).
  by rewrite split_colon_digits_colon.
Qed.

Lemma round_trip_nonneg (n : Z) :
  0 <= n -> time_to_seconds (seconds_to_time n) = Ret n.
Proof.
  intros Hn. unfold seconds_to_time.
  assert (Hh : 0 <= n `div` 3600) by (apply Z.div_pos; lia).
  assert (Hm : 0 <= (n `mod` 3600) `div` 60)
    by (apply Z.div_pos; [apply Z.mod_pos_bound|]; lia).
  assert (Hs : 0 <= n `mod` 60) by (apply Z.mod_pos_bound; lia).
  destruct (format_02d_nonneg _ Hh) as (Dh & _ & Vh).
  destruct (format_02d_nonneg _ Hm) as (Dm & _ & Vm).
  destruct (format_02d_nonneg _ Hs) as (Ds & _ & Vs).
  unfold time_to_seconds.
  change (format_02d (n `div` 3600) +:+ ":"
            +:+ format_02d ((n `mod` 3600) `div` 60) +:+ ":"
            +:+ format_02d (n `mod` 60))
    with (format_02d (n `div` 3600) +:+ String colon
            (format_02d ((n `mod` 3600) `div` 60) +:+ String colon
               (format_02d (n `mod` 60)))).
  rewrite (split_colon_digits_colon _ _ Dh).
  rewrite (split_colon_digits_colon _ _ Dm), (split_colon_digits _ Ds).
  cbn [map_int].
  rewrite (py_int_digits _ _ Dh Vh), (py_int_digits _ _ Dm Vm),
    (py_int_digits _ _ Ds Vs).
  f_equal. apply hms_recompose.
Qed.

(** X1.  The round trip of the time codec holds for every integer, the
    negative ones included: [seconds_to_time] then prints a negative hour
    field (floor division) with minutes and seconds in [0, 60), and
    [time_to_seconds] reads the same number back. *)
Theorem time_round_trip_any_integer (n : Z) :
  time_to_seconds (seconds_to_time n) = Ret n.
Proof.
  destruct (Z.le_gt_cases 0 n) as [Hn|Hn]; [by apply round_trip_nonneg|].
  unfold seconds_to_time.
  set (h := n `div` 3600). set (m := (n `mod` 3600) `div` 60).
  set (s := n `mod` 60).
  assert (Hh : h < 0) by (apply Z.div_lt_upper_bound; lia).
  assert (Hm : 0 <= m)
    by (apply Z.div_pos; [apply Z.mod_pos_bound|]; lia).
  assert (Hs : 0 <= s) by (apply Z.mod_pos_bound; lia).
  destruct (format_02d_nonneg m Hm) as (Dm & _ & Vm).
  destruct (format_02d_nonneg s Hs) as (Ds & _ & Vs).
  rewrite (format_02d_neg_eq h Hh).
  unfold time_to_seconds.
  change (String "-" (pretty (Z.abs_N h)) +:+ ":" +:+ format_02d m +:+ ":"
            +:+ format_02d s)
    with (String "-" (pretty (Z.abs_N h) +:+ String colon
            (format_02d m +:+ String colon (format_02d s)))).
  rewrite split_colon_minus_digits_colon by apply all_digits_pretty.
  rewrite split_colon_digits_colon, split_colon_digits by done.
  cbn [map_int].
  rewrite (py_int_minus_digits _ (Z.of_N (Z.abs_N h)))
    by (apply all_digits_pretty || apply scan_digits_pretty).
  rewrite (py_int_digits _ _ Dm Vm), (py_int_digits _ _ Ds Vs).
  f_equal. replace (- Z.of_N (Z.abs_N h)) with h by lia.
  apply hms_recompose.
Qed.

Lemma format_02d_width_2 (z : Z) :
  0 <= z < 100 -> String.length (format_02d z) = 2%nat.
Proof.
  intros Hz.
  assert (forallb (fun k => Nat.eqb (String.length (format_02d (Z.of_nat k))) 2)
            (seq 0 100) = true) as Hall by (vm_compute; reflexivity).
  rewrite forallb_forall in Hall.
  specialize (Hall (Z.to_nat z)).
  rewrite Z2Nat.id in Hall by lia.
  apply Nat.eqb_eq, Hall, in_seq. lia.
Qed.

Lemma format_02d_width_ge_2 (z : Z) :
  0 <= z -> (2 <= String.length (format_02d z))%nat.
Proof.
  intros Hz. rewrite format_02d_nonneg_eq by done.
  rewrite string_length_app, string_length_zeros. lia.
Qed.

(** X2.  For non-negative seconds [seconds_to_time] prints exactly three
    colon-separated fields of decimal digits, the hours on at least two
    characters (never truncated) and the minutes and seconds on exactly
    two. *)
Theorem seconds_to_time_shape (n : Z) :
  0 <= n ->
  exists hh mm ss,
    split_colon (seconds_to_time n) = [hh; mm; ss] /\
    all_digits hh = true /\ all_digits mm = true /\ all_digits ss = true /\
    (2 <= String.length hh)%nat /\
    String.length mm = 2%nat /\ String.length ss = 2%nat.
Proof.
  intros Hn. unfold seconds_to_time.
  set (h := n `div` 3600). set (m := (n `mod` 3600) `div` 60).
  set (s := n `mod` 60).
  assert (Hh : 0 <= h) by (apply Z.div_pos; lia).
  assert (Hm : 0 <= m < 100).
  { pose proof (Z.mod_pos_bound n 3600 ltac:(lia)).
    split; [apply Z.div_pos; lia|apply Z.div_lt_upper_bound; lia]. }
  assert (Hs : 0 <= s < 100)
    by (pose proof (Z.mod_pos_bound n 60 ltac:(lia)); lia).
  destruct (format_02d_nonneg h Hh) as (Dh & _ & _).
  destruct (format_02d_nonneg m (proj1 Hm)) as (Dm & _ & _).
  destruct (format_02d_nonneg s (proj1 Hs)) as (Ds & _ & _).
  exists (format_02d h), (format_02d m), (format_02d s).
  split.
  { change (format_02d h +:+ ":" +:+ format_02d m +:+ ":" +:+ format_02d s)
      with (format_02d h +:+ String colon
              (format_02d m +:+ String colon (format_02d s))).
    by rewrite !split_colon_digits_colon, split_colon_digits. }
  repeat split; auto using format_02d_width_ge_2, format_02d_width_2.
Qed.

Lemma seconds_to_time_shape_witness :
  exists hh mm ss,
    split_colon (seconds_to_time 3723) = [hh; mm; ss] /\
    all_digits hh = true /\ all_digits mm = true /\ all_digits ss = true /\
    (2 <= String.length hh)%nat /\
    String.length mm = 2%nat /\ String.length ss = 2%nat.
Proof. apply (seconds_to_time_shape 3723). lia. Defined.

(** X3.  The offset at which the frame is taken inside the clip is the
    distance from the clip's start to the thumbnail timestamp, clamped at
    zero: it reads back as [max(0, thumb - start)], and it is
    ["00:00:00"] as soon as the thumbnail timestamp does not come after
    the start, in particular when the descriptor has no
    [thumbnail_timestamp] key. *)
Theorem frame_offset_clamped clip s t :
  time_to_seconds (start_time_of clip) = Ret s ->
  time_to_seconds (thumbnail_timestamp_of clip) = Ret t ->
  exists rt,
    relative_thumb_of clip = Ret rt /\
    time_to_seconds rt = Ret (Z.max 0 (t - s)) /\
    (t <= s -> rt = "00:00:00") /\
    (cd_thumbnail_timestamp clip = None -> rt = "00:00:00").
Proof.
  intros Hs Ht. unfold relative_thumb_of. rewrite Hs, Ht.
  eexists. split; [reflexivity|]. split; [apply round_trip_nonneg; lia|].
  assert (t <= s -> seconds_to_time (Z.max 0 (t - s)) = "00:00:00") as Hle.
  { intros Hle. by replace (Z.max 0 (t - s)) with 0 by lia. }
  split; [exact Hle|]. intros Hnone. apply Hle.
  unfold thumbnail_timestamp_of in Ht. rewrite Hnone in Ht. simpl in Ht.
  rewrite Hs in Ht. injection Ht as ->. lia.
Qed.

Lemma frame_offset_clamped_witness :
  exists rt,
    relative_thumb_of
      (mkClipData None None (Some "00:10:00") None (Some "9:30") None None)
    = Ret rt /\
    time_to_seconds rt = Ret (Z.max 0 (570 - 600)) /\
    (570 <= 600 -> rt = "00:00:00") /\
    (cd_thumbnail_timestamp
       (mkClipData None None (Some "00:10:00") None (Some "9:30") None None)
     = None -> rt = "00:00:00").
Proof. apply frame_offset_clamped; reflexivity. Defined.

End TimeCodecMore.

(* ================================================================== *)
(** * Upload client: further properties                                *)
(* ================================================================== *)

Lemma ascii_lower_idemp c :
  YouTubeUploader.ascii_lower (YouTubeUploader.ascii_lower c)
  = YouTubeUploader.ascii_lower c.
Proof. destruct c as [[] [] [] [] [] [] [] []]; reflexivity. Qed.

Lemma str_lower_idemp s :
  YouTubeUploader.str_lower (YouTubeUploader.str_lower s)
  = YouTubeUploader.str_lower s.
Proof.
  induction s as [|c s IH]; [done|]. simpl. by rewrite ascii_lower_idemp, IH.
Qed.

Lemma ascii_lower_not_upper_I c : YouTubeUploader.ascii_lower c <> "I"%char.
Proof. destruct c as [[] [] [] [] [] [] [] []]; discriminate. Qed.

(** X4.  The category lookup lower-cases its argument before it reads
    the table, so the table entry ["IRL"], whose key has capital letters,
    is never reached: every category gets the id it would get from the
    table without that entry (["irl"] or ["IRL"] get the default ["22"]
    like any unknown label), and a label and its lower-case form get the
    same id. *)
Theorem category_lookup_ignores_IRL_entry (category : string) :
  YouTubeUploader._get_category_id category
  = default "22"
      (delete "IRL" YouTubeUploader.YOUTUBE_CATEGORIES
         !! YouTubeUploader.str_lower category) /\
  YouTubeUploader._get_category_id (YouTubeUploader.str_lower category)
  = YouTubeUploader._get_category_id category.
Proof.
  unfold YouTubeUploader._get_category_id. split.
  - rewrite lookup_delete_ne; [done|].
    destruct category as [|c s]; [done|]. simpl.
    intros [= H _]. symmetry in H. by apply ascii_lower_not_upper_I in H.
  - by rewrite str_lower_idemp.
Qed.

Lemma emits_only_refl P w : emits_only P w w.
Proof. exists []. by rewrite app_nil_r. Qed.

Lemma emits_only_trans P w1 w2 w3 :
  emits_only P w1 w2 -> emits_only P w2 w3 -> emits_only P w1 w3.
Proof.
  intros (e1 & H1 & F1) (e2 & H2 & F2). exists (e1 ++ e2)%list.
  split; [by rewrite H2, H1, app_assoc|by apply Forall_app].
Qed.

Lemma emits_only_emit P w ev :
  P ev -> emits_only P w (mkWorld (fs w) (trace w ++ [ev])).
Proof. intros HP. exists [ev]. split; [done|]. by constructor. Qed.

Lemma emits_only_weaken (P Q : event -> Prop) w w' :
  (forall ev, P ev -> Q ev) -> emits_only P w w' -> emits_only Q w w'.
Proof.
  intros HPQ (evs & H & F). exists evs. split; [done|].
  eapply Forall_impl; eauto.
Qed.

(** A prefix of survivable answers that does not use up the retries only
    moves the counter forward. *)
Lemma resumable_loop_prefix response pre : forall rest retry w,
  forallb survivable pre = true ->
  retry + count_failures pre <= YouTubeUploader.MAX_RETRIES ->
  exists w',
    YouTubeUploader.resumable_loop response (pre ++ rest) retry w
    = YouTubeUploader.resumable_loop response rest
        (retry + count_failures pre) w'.
Proof.
  induction pre as [|step pre IH]; intros rest retry w Hs Hc.
  { exists w. unfold count_failures. simpl. by rewrite Z.add_0_r. }
  rewrite count_failures_cons in Hc |- *.
  apply andb_true_iff in Hs as [Hstep Hs].
  pose proof (Zle_0_nat (length (filter (fun st => retriable_failure st = true) pre)))
    as Hpos. fold (count_failures pre) in Hpos.
  assert (Hcount : retriable_failure step = true ->
    exists w',
      (if YouTubeUploader.MAX_RETRIES <? retry + 1 then ret None
       else emit (EvSleep (retry + 1)) ;;;
            YouTubeUploader.resumable_loop response (pre ++ rest) (retry + 1))
        (mkWorld (fs w) (trace w ++ [EvNextChunk]))
      = YouTubeUploader.resumable_loop response rest
          (retry + (1 + count_failures pre)) w').
  { intros Hf. rewrite Hf in Hc.
    destruct (Z.ltb_spec YouTubeUploader.MAX_RETRIES (retry + 1)); [lia|].
    unfold bind, emit.
    destruct (IH rest (retry + 1)
                (mkWorld (fs w)
                   ((trace w ++ [EvNextChunk]) ++ [EvSleep (retry + 1)]))
                Hs ltac:(lia)) as (w' & E).
    exists w'. simpl. rewrite E. f_equal. lia. }
  assert (Hskip : retriable_failure step = false ->
    exists w',
      YouTubeUploader.resumable_loop response (pre ++ rest) retry
        (mkWorld (fs w) (trace w ++ [EvNextChunk]))
      = YouTubeUploader.resumable_loop response rest
          (retry + (0 + count_failures pre)) w').
  { intros Hf. rewrite Hf in Hc. apply IH; [done|lia]. }
  simpl app. cbn [YouTubeUploader.resumable_loop].
  unfold bind at 1, emit at 1.
  destruct step as [st|e].
  - simpl retriable_failure. cbv iota. by apply Hskip.
  - destruct e; simpl in Hstep; try discriminate.
    + simpl. rewrite Hstep. apply Hcount. simpl. exact Hstep.
    + simpl. destruct (string_empty msg) eqn:Em; simpl.
      * apply Hskip. simpl. by rewrite Em.
      * apply Hcount. simpl. by rewrite Em.
    + simpl. destruct (string_empty msg) eqn:Em; simpl.
      * apply Hskip. simpl. by rewrite Em.
      * apply Hcount. simpl. by rewrite Em.
Qed.



(** X6.  An error that is not retriable ends the transfer at once: when
    [next_chunk], after answers that the loop survives without using up
    its retries, raises an HTTP error with a status outside
    [RETRIABLE_STATUS_CODES] or an exception that is neither an
    [HttpLib2Error] nor an [IOError], [_resumable_upload] raises that very
    exception, and [upload] catches it and returns [None]. *)
Theorem fatal_error_ends_upload env pre e rest :
  env_chunks env = (pre ++ ChunkRaises e :: rest)%list ->
  forallb survivable pre = true ->
  count_failures pre <= YouTubeUploader.MAX_RETRIES ->
  survivable (ChunkRaises e) = false ->
  (forall w, (YouTubeUploader._resumable_upload env w).1 = Raise e) /\
  (forall video title descr tags cat thumb privacy w,
     (YouTubeUploader.upload env video title descr tags cat thumb privacy w).1
     = Ret None).
Proof.
  intros Hch Hs Hc He.
  assert (Hres : forall w, (YouTubeUploader._resumable_upload env w).1 = Raise e).
  { intros w. unfold YouTubeUploader._resumable_upload. rewrite Hch.
    destruct (resumable_loop_prefix (env_response env) pre
                (ChunkRaises e :: rest) 0 w Hs ltac:(lia)) as (w' & ->).
    cbn [YouTubeUploader.resumable_loop]. unfold bind at 1, emit at 1.
    destruct e; simpl in He; try done; simpl.
    - by rewrite He. }
  split; [exact Hres|].
  intros video title descr tags cat thumb privacy w.
  unfold YouTubeUploader.upload, bind, try_except, path_exists, read_file,
    emit, ret, raise.
  destruct (negb _); [done|].
  destruct (env_insert env); [done|].
  match goal with
  | |- context [YouTubeUploader._resumable_upload env ?w0] =>
      pose proof (Hres w0) as H;
      destruct (YouTubeUploader._resumable_upload env w0) as [r w4]
  end.
  simpl in H. by subst r.
Qed.

Lemma fatal_error_ends_upload_witness :
  (forall w,
     (YouTubeUploader._resumable_upload
        (with_chunks sample_env
           [ChunkProgress (Some 10); ChunkRaises (HttpError 403 "quota")])
        w).1 = Raise (HttpError 403 "quota")) /\
  (forall video title descr tags cat thumb privacy w,
     (YouTubeUploader.upload
        (with_chunks sample_env
           [ChunkProgress (Some 10); ChunkRaises (HttpError 403 "quota")])
        video title descr tags cat thumb privacy w).1 = Ret None).
Proof.
  apply (fatal_error_ends_upload
           (with_chunks sample_env
              [ChunkProgress (Some 10); ChunkRaises (HttpError 403 "quota")])
           [ChunkProgress (Some 10)] (HttpError 403 "quota") []).
  - reflexivity.
  - reflexivity.
  - vm_compute. discriminate.
  - reflexivity.
Defined.

Lemma sleep_count_cons ev evs :
  length (filter (fun e => is_sleep e = true) (ev :: evs))
  = ((if is_sleep ev then 1 else 0)
     + length (filter (fun e => is_sleep e = true) evs))%nat.
Proof.
  destruct (is_sleep ev) eqn:E.
  - by rewrite filter_cons_True.
  - by rewrite filter_cons_False by (by rewrite E).
Qed.

Lemma resumable_loop_sleeps response steps : forall retry w,
  0 <= retry ->
  exists evs,
    trace (YouTubeUploader.resumable_loop response steps retry w).2
    = (trace w ++ evs)%list /\
    Forall (sleep_within retry YouTubeUploader.MAX_RETRIES) evs /\
    Z.of_nat (length (filter (fun e => is_sleep e = true) evs))
    <= Z.max 0 (YouTubeUploader.MAX_RETRIES - retry).
Proof.
  induction steps as [|step rest IH]; intros retry w Hr.
  { exists [EvNextChunk]. split; [done|]. split; [by repeat constructor|].
    simpl. lia. }
  assert (Hskip : exists evs,
    trace (YouTubeUploader.resumable_loop response rest retry
             (mkWorld (fs w) (trace w ++ [EvNextChunk]))).2
    = (trace w ++ evs)%list /\
    Forall (sleep_within retry YouTubeUploader.MAX_RETRIES) evs /\
    Z.of_nat (length (filter (fun e => is_sleep e = true) evs))
    <= Z.max 0 (YouTubeUploader.MAX_RETRIES - retry)).
  { destruct (IH retry (mkWorld (fs w) (trace w ++ [EvNextChunk])) Hr)
      as (evs & Ht & Hf & Hn).
    exists (EvNextChunk :: evs).
    split; [rewrite Ht; simpl; by rewrite <- app_assoc|].
    split; [by constructor|]. by rewrite sleep_count_cons. }
  assert (Hcount : exists evs,
    trace ((if YouTubeUploader.MAX_RETRIES <? retry + 1 then ret None
            else emit (EvSleep (retry + 1)) ;;;
                 YouTubeUploader.resumable_loop response rest (retry + 1))
             (mkWorld (fs w) (trace w ++ [EvNextChunk]))).2
    = (trace w ++ evs)%list /\
    Forall (sleep_within retry YouTubeUploader.MAX_RETRIES) evs /\
    Z.of_nat (length (filter (fun e => is_sleep e = true) evs))
    <= Z.max 0 (YouTubeUploader.MAX_RETRIES - retry)).
  { destruct (Z.ltb_spec YouTubeUploader.MAX_RETRIES (retry + 1)).
    - exists [EvNextChunk]. split; [done|]. split; [by repeat constructor|].
      simpl. lia.
    - unfold bind, emit.
      destruct (IH (retry + 1)
                  (mkWorld (fs w)
                     ((trace w ++ [EvNextChunk]) ++ [EvSleep (retry + 1)]))
                  ltac:(lia)) as (evs & Ht & Hf & Hn).
      exists (EvNextChunk :: EvSleep (retry + 1) :: evs).
      split; [simpl; rewrite Ht; simpl; by rewrite <- !app_assoc|]. split.
      + constructor; [done|]. constructor; [simpl; lia|].
        eapply Forall_impl; [exact Hf|].
        intros [] Hev; simpl in *; try done. lia.
      + rewrite !sleep_count_cons. simpl. lia. }
  assert (Hraise : forall e0 : exn, exists evs,
    trace (@raise (option string) e0
             (mkWorld (fs w) (trace w ++ [EvNextChunk]))).2
    = (trace w ++ evs)%list /\
    Forall (sleep_within retry YouTubeUploader.MAX_RETRIES) evs /\
    Z.of_nat (length (filter (fun e => is_sleep e = true) evs))
    <= Z.max 0 (YouTubeUploader.MAX_RETRIES - retry)).
  { intros e0. exists [EvNextChunk]. split; [done|].
    split; [by repeat constructor|]. simpl. lia. }
  cbn [YouTubeUploader.resumable_loop]. unfold bind at 1, emit at 1.
  destruct step as [st|e]; [exact Hskip|].
  destruct e; simpl; try apply (Hraise TimeoutExpired).
  - destruct (bool_decide _); [exact Hcount|apply (Hraise TimeoutExpired)].
  - destruct (string_empty _); [exact Hskip|exact Hcount].
  - destruct (string_empty _); [exact Hskip|exact Hcount].
Qed.

(** X7.  The back-off of the retry loop is bounded: whatever
    [next_chunk] answers, [_resumable_upload] sleeps at most
    [MAX_RETRIES = 5] times, and the exponent of each sleep (the delay is
    a random fraction of two to that power) lies between 1 and 5. *)
Theorem backoff_bounded env w :
  exists evs,
    trace (YouTubeUploader._resumable_upload env w).2 = (trace w ++ evs)%list /\
    Forall (sleep_within 0 5) evs /\
    (length (filter (fun e => is_sleep e = true) evs) <= 5)%nat.
Proof.
  destruct (resumable_loop_sleeps (env_response env) (env_chunks env) 0 w
              ltac:(lia)) as (evs & Ht & Hf & Hn).
  exists evs. split; [exact Ht|]. split; [exact Hf|].
  unfold YouTubeUploader.MAX_RETRIES in Hn. lia.
Qed.

(** X8.  [upload] never sends a request body beyond the limits it
    enforces: the title is cut to its first 100 characters (code points,
    not bytes), the description to its first 5000 and the tags to the
    first 500; whatever was within its limit is sent unchanged. *)
Theorem upload_body_within_limits env video title descr tags cat thumb
    privacy w :
  emits_only (body_respects title descr (default [] tags)) w
    (YouTubeUploader.upload env video title descr tags cat thumb privacy w).2.
Proof.
  set (P := body_respects title descr (default [] tags)).
  pose proof (emits_only_refl P) as Hrefl.
  pose proof (emits_only_trans P) as Htrans.
  pose proof (emits_only_emit P) as Hemit.
  revert w. change (respects (emits_only P)
    (YouTubeUploader.upload env video title descr tags cat thumb privacy)).
  unfold YouTubeUploader.upload.
  apply respects_bind; [done|by apply respects_path_exists|].
  intros []; simpl; [|by apply respects_ret].
  apply respects_bind; [done|by apply respects_read_file|]. intros media.
  apply respects_try_except; [done| |intros; by apply respects_ret].
  apply respects_bind; [done| |].
  { apply respects_emit with (ok := P); [done|].
    unfold P, body_respects, body_within_limits. simpl.
    repeat split.
    - destruct (Nat.ltb_spec 100 (PyStr.str_len title)); [|lia].
      apply str_len_slice.
    - destruct (Nat.ltb_spec 5000 (PyStr.str_len descr)); [|lia].
      apply str_len_slice.
    - rewrite length_take. lia.
    - destruct (Nat.ltb_spec 100 (PyStr.str_len title));
        [apply chars_slice|by rewrite take_ge].
    - destruct (Nat.ltb_spec 5000 (PyStr.str_len descr));
        [apply chars_slice|by rewrite take_ge].
    - intros Hl. by destruct (Nat.ltb_spec 100 (PyStr.str_len title)); [lia|].
    - intros Hl. by destruct (Nat.ltb_spec 5000 (PyStr.str_len descr)); [lia|].
    - intros Hl. by apply take_ge. }
  intros _. apply respects_bind; [done| |].
  { destruct (env_insert env); [by apply respects_raise|by apply respects_ret]. }
  intros _. apply respects_bind; [done| |].
  { by apply respects_resumable_loop with (ok := P). }
  intros [[|c vid]|]; try by apply respects_ret.
  apply respects_bind; [done| |intros; by apply respects_ret].
  unfold YouTubeUploader.attach_thumbnail.
  destruct thumb as [[|c' tp]|]; try by apply respects_ret.
  apply respects_bind; [done|by apply respects_path_exists|].
  intros []; [|by apply respects_ret].
  apply respects_bind; [done| |intros; by apply respects_ret].
  by apply respects_set_thumbnail with (ok := P).
Qed.

(* ================================================================== *)
(** * Clip orchestrator: further properties                            *)
(* ================================================================== *)

Lemma subprocess_step_true_iff ev o out w b w1 :
  try_except
    (result <- subprocess_run ev o out ;;
     ex <- path_exists out ;;
     if (result.1 =? 0) && ex then ret true else ret false)
    (fun _ => ret false) w = (Ret b, w1) ->
  b = true <->
  (exists err, proc_result_of o = Exited 0 err) /\ is_Some (fs w1 !! out).
Proof.
  unfold try_except, subprocess_run, bind, emit, maybe_write, write_file,
    path_exists, ret, raise.
  destruct o as [wr [rc err|ex]]; simpl.
  - destruct wr as [d|]; simpl.
    + rewrite lookup_insert_eq. rewrite bool_decide_eq_true_2 by eauto.
      rewrite andb_true_r.
      destruct (Z.eqb_spec rc 0) as [->|Hrc]; intros [= <- <-]; simpl.
      * rewrite lookup_insert_eq. split; [eauto|done].
      * split; [done|]. intros [[? [= ? _]] _]. done.
    + case_bool_decide as Hex; rewrite ?andb_true_r, ?andb_false_r.
      * destruct (Z.eqb_spec rc 0) as [->|Hrc]; intros [= <- <-]; simpl.
        -- split; [eauto|done].
        -- split; [done|]. intros [[? [= ? _]] _]. done.
      * intros [= <- <-]. simpl. split; [done|]. by intros [_ ?].
  - destruct wr as [d|]; simpl; intros [= <- <-]; simpl;
      (split; [done|]); by intros [[? [=]] _].
Qed.

(** X9.  [download_clip_segment] answers [True] exactly when the
    downloader exited with status 0 and the destination file exists
    afterwards; a non-zero status, a missing file, a timeout or any other
    exception of the call give [False]. *)
Theorem download_true_iff env vod st en out w b w1 :
  download_clip_segment env vod st en out w = (Ret b, w1) ->
  b = true <->
  (exists err, proc_result_of (env_download env) = Exited 0 err) /\
  is_Some (fs w1 !! out).
Proof.
  unfold download_clip_segment, lift_res, bind at 1 2.
  destruct (time_to_seconds st); [|discriminate].
  destruct (time_to_seconds en); [|discriminate].
  apply subprocess_step_true_iff.
Qed.

Lemma download_true_iff_witness :
  true = true <->
  (exists err, proc_result_of (env_download sample_env) = Exited 0 err) /\
  is_Some
    (fs (mkWorld {[ "out.mp4" := "VIDEO" ]}
           [EvYtDlp "vod" "*00:10:00-00:11:00" "out.mp4"]) !! "out.mp4").
Proof.
  apply (download_true_iff sample_env "vod" "00:10:00" "00:11:00" "out.mp4"
           empty_world).
  vm_compute. reflexivity.
Defined.

(** X10.  [capture_thumbnail_frame] never raises, and answers [True]
    exactly when the transcoder exited with status 0 and the frame file
    exists afterwards. *)
Theorem capture_true_iff env video ts out w :
  exists b w1,
    capture_thumbnail_frame env video ts out w = (Ret b, w1) /\
    (b = true <->
     (exists err, proc_result_of (env_capture env) = Exited 0 err) /\
     is_Some (fs w1 !! out)).
Proof.
  destruct (never_raises_capture_thumbnail_frame env video ts out w)
    as (b & w1 & E).
  exists b, w1. split; [done|].
  by apply (subprocess_step_true_iff _ _ _ _ _ _ E).
Qed.

Lemma returns_only_try_except {A} (Q : A -> Prop) (m : M A) h :
  returns_only Q m -> (forall e, returns_only Q (h e)) ->
  returns_only Q (try_except m h).
Proof.
  intros Hm Hh w a w'. unfold try_except.
  destruct (m w) as [[a0|e] w1] eqn:E.
  - intros [= <- <-]. by eapply Hm.
  - apply Hh.
Qed.

Lemma returns_only_raise {A} (Q : A -> Prop) e : returns_only Q (raise e).
Proof. by intros w a w'. Qed.

Lemma files_kept_generate env image out :
  respects files_kept (generate env image out).
Proof.
  unfold generate, session_files, rewrite_existing, maybe_write.
  files_kept_steps.
Qed.

(** X11.  The boolean of [generate_thumbnail_chatgpt] carries no
    information: the function never returns [False], it returns [True]
    or raises.  When the generator's module can be imported, the frame
    file exists and is not the output file, and no copy is refused, it
    returns [True] whatever the enhancer did, and the thumbnail file
    exists afterwards (the enhancer's image, or else a copy of the
    frame). *)
Theorem enhancer_wrapper_never_false env clip image out w :
  (forall b w1,
     generate_thumbnail_chatgpt env clip image out w = (Ret b, w1) ->
     b = true) /\
  (is_Some (fs w !! image) ->
   (forall e, env_generate env <> GenImportFails e) ->
   image <> out ->
   copies_allowed env ->
   exists w1,
     generate_thumbnail_chatgpt env clip image out w = (Ret true, w1) /\
     is_Some (fs w1 !! out)).
Proof.
  split.
  { intros b w1.
    apply (returns_only_apply (fun b => b = true)).
    unfold generate_thumbnail_chatgpt.
    destruct (env_generate env); [apply returns_only_raise|..];
      (apply returns_only_try_except;
       [do 2 (apply returns_only_bind; intros ?);
        destruct (_ && _); [by apply returns_only_ret|]|intros ?];
       apply returns_only_bind; intros ?; by apply returns_only_ret). }
  intros Him Himp Hne Hcopy.
  assert (Hcp : forall w1, is_Some (fs w1 !! image) ->
            exists w2, shutil_copy env image out w1 = (Ret tt, w2) /\
                       is_Some (fs w2 !! out)).
  { intros w1 [c1 H1]. rewrite (shutil_copy_existing _ _ _ _ _ Hcopy Hne H1).
    eexists. split; [done|]. simpl. rewrite lookup_insert_eq. eauto. }
  unfold generate_thumbnail_chatgpt.
  destruct (env_generate env) as [e|b0 wr|e wr] eqn:Eg;
    [by destruct (Himp e)|..];
    unfold try_except, bind at 1;
    pose proof (files_kept_generate env image out w image Him) as Hk;
    destruct (generate env image out w) as [[b|e'] w1]; simpl in Hk.
  1,3: unfold bind at 1, path_exists at 1;
    destruct (b && bool_decide _) eqn:Eb;
    [apply andb_true_iff in Eb as [_ Hex%bool_decide_eq_true];
     eexists; split; [reflexivity|done]|].
  all: destruct (Hcp w1 Hk) as (w2 & E & H2); unfold bind; rewrite E;
    eexists; split; [reflexivity|done].
Qed.

Lemma enhancer_wrapper_never_false_witness :
  exists w1,
    generate_thumbnail_chatgpt sample_env sample_clip "f.png" "t.png"
      (mkWorld {[ "f.png" := "FRAME" ]} []) = (Ret true, w1) /\
    is_Some (fs w1 !! "t.png").
Proof.
  apply (enhancer_wrapper_never_false sample_env sample_clip "f.png" "t.png").
  - vm_compute. eauto.
  - intros e. discriminate.
  - discriminate.
  - intros history src dst. reflexivity.
Defined.

Lemma no_new_unlink_only env paths w r w' :
  cleanup_temp_files env paths w = (r, w') -> no_new is_not_unlink w w'.
Proof.
  intros E. eapply respects_result; [|exact E].
  apply respects_cleanup_temp_files
    with (ok := fun ev => is_not_unlink ev = false);
    auto using no_new_refl, no_new_fs, no_new_emit. apply no_new_trans.
Qed.

Lemma process_clip_from_raise env clip vod creds i n w e w1 :
  process_clip_try env clip vod creds i w = (Raise e, w1) ->
  exists w',
    process_clip env clip vod creds i n w
    = (Ret (result_of clip i Error None (Some (str_of_exn e))), w') /\
    no_new is_not_unlink w1 w'.
Proof.
  intros Ht.
  destruct (never_raises_cleanup_temp_files env
              [video_path_of (clip_id_of clip i);
               frame_path_of (clip_id_of clip i);
               thumbnail_path_of (clip_id_of clip i)] w1) as ([] & w' & Hc).
  exists w'. split; [|by eapply no_new_unlink_only].
  unfold process_clip. apply try_finally_Ret with w1; [|done].
  by rewrite (try_except_Raise _ _ _ _ _ Ht).
Qed.

(** X12.  A start or end time that [time_to_seconds] cannot read makes
    the clip an [error], not a failure: the outcome carries the text of
    the exception, and nothing was run for the clip, neither the
    downloader nor any later step; only the clean-up happens. *)
Theorem malformed_clip_times_are_errors env clip vod creds i n w e :
  time_to_seconds (start_time_of clip) = Raise e \/
  (exists s, time_to_seconds (start_time_of clip) = Ret s /\
             time_to_seconds (end_time_of clip) = Raise e) ->
  exists w',
    process_clip env clip vod creds i n w
    = (Ret (result_of clip i Error None (Some (str_of_exn e))), w') /\
    no_new is_not_unlink w w'.
Proof.
  intros H.
  apply process_clip_from_raise.
  unfold process_clip_try. cbv zeta.
  apply bind_Raise. unfold download_clip_segment, lift_res, bind.
  destruct H as [->|(s & -> & ->)]; done.
Qed.

Lemma malformed_clip_times_are_errors_witness :
  exists w',
    process_clip sample_env
      (mkClipData (Some "c1") None (Some "ten past") None None None None)
      "vod" "cred" 0 1 empty_world
    = (Ret (result_of
              (mkClipData (Some "c1") None (Some "ten past") None None None None)
              0 Error None
              (Some "invalid literal for int() with base 10: 'ten past'")),
       w') /\
    no_new is_not_unlink empty_world w'.
Proof.
  apply (malformed_clip_times_are_errors sample_env _ "vod" "cred" 0 1
           empty_world
           (ValueError "invalid literal for int() with base 10: 'ten past'")).
  left. vm_compute. reflexivity.
Defined.

(** X13.  A thumbnail timestamp that cannot be read is found out only
    after the download: the segment has been fetched, the clip ends as an
    [error] carrying the text of the exception, and after the download
    nothing happens but the clean-up: no frame capture, no enhancement,
    no upload. *)
Theorem malformed_thumbnail_timestamp_is_error env clip vod creds i n w w1 e :
  download_clip_segment env vod (start_time_of clip) (end_time_of clip)
    (video_path_of (clip_id_of clip i)) w = (Ret true, w1) ->
  relative_thumb_of clip = Raise e ->
  exists w',
    process_clip env clip vod creds i n w
    = (Ret (result_of clip i Error None (Some (str_of_exn e))), w') /\
    no_new is_not_unlink w1 w'.
Proof.
  intros Hd Ht. apply process_clip_from_raise.
  unfold process_clip_try. cbv zeta.
  rewrite (bind_Ret _ _ _ _ _ Hd). change (negb true) with false.
  cbv beta iota. apply bind_Raise. unfold lift_res. by rewrite Ht.
Qed.

Lemma malformed_thumbnail_timestamp_is_error_witness :
  exists w',
    process_clip sample_env
      (mkClipData (Some "c1") None (Some "00:10:00") None (Some "soon") None None)
      "vod" "cred" 0 1 empty_world
    = (Ret (result_of
              (mkClipData (Some "c1") None (Some "00:10:00") None (Some "soon")
                 None None)
              0 Error None
              (Some "invalid literal for int() with base 10: 'soon'")),
       w') /\
    no_new is_not_unlink
      (mkWorld {[ "temp_clips/c1.mp4" := "VIDEO" ]}
         [EvYtDlp "vod" "*00:10:00-00:01:00" "temp_clips/c1.mp4"]) w'.
Proof.
  apply (malformed_thumbnail_timestamp_is_error sample_env _ "vod" "cred" 0 1
           empty_world _
           (ValueError "invalid literal for int() with base 10: 'soon'")).
  - vm_compute. reflexivity.
  - vm_compute. reflexivity.
Defined.




Lemma resumable_loop_value response steps : forall retry,
  returns_only (fun v => v = None \/ v = response !! "id")
    (YouTubeUploader.resumable_loop response steps retry).
Proof.
  induction steps as [|step rest IH]; intros retry; simpl.
  { apply returns_only_bind. intros _. apply returns_only_ret. by right. }
  apply returns_only_bind. intros _.
  assert (Herr : returns_only (fun v => v = None \/ v = response !! "id")
    (if YouTubeUploader.MAX_RETRIES <? retry + 1 then ret None
     else emit (EvSleep (retry + 1)) ;;;
          YouTubeUploader.resumable_loop response rest (retry + 1))).
  { destruct (_ <? _); [apply returns_only_ret; by left|].
    apply returns_only_bind. intros _. apply IH. }
  destruct step as [st|e]; [apply IH|].
  destruct e; simpl; try apply returns_only_raise; try exact Herr.
  - destruct (bool_decide _); [exact Herr|apply returns_only_raise].
  - destruct (string_empty _); [apply IH|exact Herr].
  - destruct (string_empty _); [apply IH|exact Herr].
Qed.

Lemma upload_value env video title descr tags cat thumb privacy :
  returns_only (id_of_response env)
    (YouTubeUploader.upload env video title descr tags cat thumb privacy).
Proof.
  unfold YouTubeUploader.upload.
  apply returns_only_bind. intros [].
  2: { simpl. apply returns_only_ret. by left. }
  simpl. apply returns_only_bind. intros media.
  apply returns_only_try_except;
    [|intros; apply returns_only_ret; by left].
  do 2 (apply returns_only_bind; intros _).
  intros w v w'. unfold bind.
  destruct (YouTubeUploader._resumable_upload env w) as [[r|e] w1] eqn:E;
    [|discriminate].
  pose proof (resumable_loop_value _ _ _ _ _ _ E) as Hr.
  destruct r as [[|c s]|].
  - intros [= <- _]. by left.
  - destruct (YouTubeUploader.attach_thumbnail _ _ _ _) as [[[]|e] w2];
      [|discriminate].
    intros [= <- _]. right. exists c, s. split; [done|].
    by destruct Hr as [?|<-].
  - intros [= <- _]. by left.
Qed.

Lemma upload_to_youtube_value env video thumb clip creds :
  returns_only (id_of_response env)
    (upload_to_youtube env video thumb clip creds).
Proof.
  unfold upload_to_youtube.
  do 2 (apply returns_only_bind; intros ?).
  apply returns_only_try_except;
    [|intros; apply returns_only_ret; by left].
  do 2 (apply returns_only_bind; intros ?).
  intros w v w'. unfold bind.
  match goal with
  | |- context [YouTubeUploader.upload ?e ?a ?b ?c ?d ?f ?g ?h w] =>
      destruct (YouTubeUploader.upload e a b c d f g h w) as [[r|e'] w1] eqn:E
  end; [|discriminate].
  pose proof (upload_value _ _ _ _ _ _ _ _ _ _ _ E) as Hr.
  destruct (truthy r); intros [= <- _]; [exact Hr|by left].
Qed.

Lemma outcome_of_upload_consistent env clip i v :
  id_of_response env v -> outcome_consistent env (outcome_of_upload clip i v).
Proof.
  intros [->|(c & s & -> & Hid)]; unfold outcome_of_upload, outcome_consistent;
    simpl; eauto 6.
Qed.

Lemma process_clip_try_consistent env clip vod creds i :
  returns_only (outcome_consistent env)
    (process_clip_try env clip vod creds i).
Proof.
  unfold process_clip_try. cbv zeta.
  apply returns_only_bind. intros [].
  - simpl. do 3 (apply returns_only_bind; intros ?).
    unfold upload_step. apply returns_only_bind; intros tex.
    intros w r w'. unfold bind.
    destruct (upload_to_youtube _ _ _ _ _ w) as [[v|e] w1] eqn:E;
      [|discriminate].
    intros [= <- _]. apply outcome_of_upload_consistent.
    by eapply upload_to_youtube_value.
  - simpl. apply returns_only_ret. unfold outcome_consistent. simpl. eauto.
Qed.

(** X15.  Every outcome that [process_clip] returns is coherent,
    whatever the outside world did: a success carries no error text and a
    non-empty video id, which is the id of the platform's final response;
    a failure or an error carries an error text and no video id; the
    status is never left pending. *)
Theorem process_clip_outcome_consistent env clip vod creds i n w :
  exists r w',
    process_clip env clip vod creds i n w = (Ret r, w') /\
    outcome_consistent env r.
Proof.
  destruct (never_raises_process_clip env clip vod creds i n w)
    as (r & w' & E).
  exists r, w'. split; [done|].
  revert E. unfold process_clip, try_finally, try_except.
  destruct (process_clip_try env clip vod creds i w) as [[r0|e] w1] eqn:E1.
  - destruct (cleanup_temp_files _ _ _) as [[[]|e] w2]; [|discriminate].
    intros [= <- _]. by eapply process_clip_try_consistent.
  - unfold ret at 1.
    destruct (cleanup_temp_files _ _ _) as [[[]|e'] w2]; [|discriminate].
    intros [= <- _]. unfold outcome_consistent. simpl. eauto.
Qed.

(** ** The files that the pipeline removes *)

Section KeptOutside.
Variable S : list path.

Lemma kept_outside_refl w : kept_outside S w w.
Proof. by intros q. Qed.

Lemma kept_outside_trans w1 w2 w3 :
  kept_outside S w1 w2 -> kept_outside S w2 w3 -> kept_outside S w1 w3.
Proof. intros H1 H2 q Hq Hs. by apply H2, H1. Qed.

Lemma kept_outside_emit w (ev : event) :
  True -> kept_outside S w (mkWorld (fs w) (trace w ++ [ev])).
Proof. by intros _ q. Qed.

Lemma kept_outside_write_file p c :
  respects (kept_outside S) (write_file p c).
Proof.
  intros w q Hq Hs. simpl. apply lookup_insert_is_Some'. by right.
Qed.

Lemma kept_outside_shutil_copy env src dst :
  respects (kept_outside S) (shutil_copy env src dst).
Proof.
  intros w q Hq Hs. unfold shutil_copy, bind, emit, read_file. simpl.
  destruct (fs w !! src) as [c|]; [|done].
  destruct (decide (src = dst)); [done|].
  destruct (env_copy env _ src dst) as [|msg [d|]]; simpl; try done;
    apply lookup_insert_is_Some'; by right.
Qed.

Lemma kept_outside_unlink env p :
  p ∈ S -> respects (kept_outside S) (unlink env p).
Proof.
  intros Hp w q Hq Hs. unfold unlink, bind, emit.
  destruct (env_unlink env p); [done|]. simpl.
  destruct (fs w !! p); [|done]. simpl.
  rewrite lookup_delete_ne; [done|]. by intros ->.
Qed.

Lemma kept_outside_upload env video title descr tags cat thumb privacy :
  respects (kept_outside S)
    (YouTubeUploader.upload env video title descr tags cat thumb privacy).
Proof.
  apply respects_upload with (ok := fun _ => True);
    auto using kept_outside_refl, kept_outside_emit.
  exact kept_outside_trans.
Qed.

End KeptOutside.

Ltac kept_outside_steps :=
  repeat match goal with
    | |- respects _ (YouTubeUploader.upload _ _ _ _ _ _ _ _) =>
        apply kept_outside_upload
    | |- respects _ (shutil_copy _ _ _) => apply kept_outside_shutil_copy
    | |- respects _ (write_file _ _) => apply kept_outside_write_file
    | |- respects _ (unlink _ _) =>
        apply kept_outside_unlink; rewrite !elem_of_cons; by auto
    | |- respects _ (ret _) => apply respects_ret; apply kept_outside_refl
    | |- respects _ (raise _) => apply respects_raise; apply kept_outside_refl
    | |- respects _ (lift_res _) =>
        apply respects_lift_res; apply kept_outside_refl
    | |- respects _ (read_file _) =>
        apply respects_read_file; apply kept_outside_refl
    | |- respects _ (path_exists _) =>
        apply respects_path_exists; apply kept_outside_refl
    | |- respects _ (emit _) =>
        apply respects_emit with (ok := fun _ => True);
          [apply kept_outside_emit|exact I]
    | |- respects _ (try_except _ _) =>
        apply respects_try_except; [apply kept_outside_trans| |intros ?]
    | |- respects _ (try_finally _ _) =>
        apply respects_try_finally; [apply kept_outside_trans| |]
    | |- respects _ (bind _ _) =>
        apply respects_bind; [apply kept_outside_trans| |intros ?]
    | |- respects _ (if ?b then _ else _) => destruct b
    | |- respects _ (match ?x with _ => _ end) => destruct x
    end.

(** X16.  [process_clip] removes no file but the three temporary files
    of its clip: every other file that exists before the call still
    exists after it, on every path through the function. *)
Theorem process_clip_removes_only_temp_files env clip vod creds i n w q :
  q ∉ [video_path_of (clip_id_of clip i);
       frame_path_of (clip_id_of clip i);
       thumbnail_path_of (clip_id_of clip i)] ->
  is_Some (fs w !! q) ->
  is_Some (fs (process_clip env clip vod creds i n w).2 !! q).
Proof.
  revert w q.
  change (respects
    (kept_outside [video_path_of (clip_id_of clip i);
                   frame_path_of (clip_id_of clip i);
                   thumbnail_path_of (clip_id_of clip i)])
    (process_clip env clip vod creds i n)).
  unfold process_clip, process_clip_try, download_clip_segment,
    capture_thumbnail_frame, subprocess_run, thumbnail_step,
    generate_thumbnail_chatgpt, generate, session_files, upload_step,
    upload_to_youtube, YouTubeUploader.__init__, rewrite_existing,
    maybe_write.
  cbv zeta. cbn [cleanup_temp_files].
  kept_outside_steps.
Qed.

Lemma process_clip_removes_only_temp_files_witness :
  is_Some
    (fs (process_clip sample_env sample_clip "vod" "cred" 0 1
           (mkWorld {[ "analise_resultado.json" := "{}" ]} [])).2
       !! "analise_resultado.json").
Proof.
  apply process_clip_removes_only_temp_files.
  - rewrite !elem_of_cons, elem_of_nil. vm_compute. intros [|[|[|]]]; done.
  - vm_compute. eauto.
Defined.

(* ================================================================== *)
(** * Batch runner: further properties                                 *)
(* ================================================================== *)




Ltac no_new_steps sel :=
  repeat match goal with
    | |- respects _ (YouTubeUploader.upload _ _ _ _ _ _ _ _) =>
        apply respects_upload with (ok := fun ev => sel ev = false);
          first [ exact (no_new_refl sel) | exact (no_new_trans sel)
                | exact (no_new_emit sel) | by auto ]
    | |- respects _ (write_file _ _) =>
        apply respects_write_file; exact (no_new_fs sel)
    | |- respects _ (shutil_copy _ _ _) =>
        apply respects_shutil_copy with (ok := fun ev => sel ev = false);
          first [ exact (no_new_refl sel) | exact (no_new_trans sel)
                | exact (no_new_emit sel) | exact (no_new_fs sel)
                | reflexivity ]
    | |- respects _ (unlink _ _) =>
        apply respects_unlink with (ok := fun ev => sel ev = false);
          first [ exact (no_new_refl sel) | exact (no_new_trans sel)
                | exact (no_new_emit sel) | exact (no_new_fs sel)
                | reflexivity ]
    | |- respects _ (ret _) => apply respects_ret; exact (no_new_refl sel)
    | |- respects _ (raise _) => apply respects_raise; exact (no_new_refl sel)
    | |- respects _ (lift_res _) =>
        apply respects_lift_res; exact (no_new_refl sel)
    | |- respects _ (read_file _) =>
        apply respects_read_file; exact (no_new_refl sel)
    | |- respects _ (path_exists _) =>
        apply respects_path_exists; exact (no_new_refl sel)
    | |- respects _ (emit _) =>
        apply respects_emit with (ok := fun ev => sel ev = false);
          [exact (no_new_emit sel)|reflexivity]
    | |- respects _ (try_except _ _) =>
        apply respects_try_except; [exact (no_new_trans sel)| |intros ?]
    | |- respects _ (try_finally _ _) =>
        apply respects_try_finally; [exact (no_new_trans sel)| |]
    | |- respects _ (bind _ _) =>
        apply respects_bind; [exact (no_new_trans sel)| |intros ?]
    | |- respects _ (if ?b then _ else _) => destruct b
    | |- respects _ (match ?x with _ => _ end) => destruct x
    end.

(** What follows a computation inside [bind], [try_except] and
    [try_finally]. *)
Lemma bind_after (R : World -> World -> Prop) {A B} (m : M A) (k : A -> M B) w :
  (forall w0, R w0 w0) -> (forall a, respects R (k a)) ->
  R (m w).2 (bind m k w).2.
Proof.
  intros Hrefl Hk. unfold bind.
  destruct (m w) as [[a|e] w1]; simpl; [apply Hk|apply Hrefl].
Qed.

Lemma try_except_after (R : World -> World -> Prop) {A} (m : M A) h w :
  (forall w0, R w0 w0) -> (forall e, respects R (h e)) ->
  R (m w).2 (try_except m h w).2.
Proof.
  intros Hrefl Hh. unfold try_except.
  destruct (m w) as [[a|e] w1]; simpl; [apply Hrefl|apply Hh].
Qed.

Lemma try_finally_after (R : World -> World -> Prop) {A} (m : M A) f w :
  respects R f -> R (m w).2 (try_finally m f w).2.
Proof.
  intros Hf. unfold try_finally. destruct (m w) as [r w1]. simpl.
  specialize (Hf w1). by destruct (f w1) as [[[]|e] w2].
Qed.

Lemma no_download_in_cleanup env paths :
  respects (no_new is_download) (cleanup_temp_files env paths).
Proof.
  apply respects_cleanup_temp_files
    with (ok := fun ev => is_download ev = false);
    auto using no_new_refl, no_new_fs, no_new_emit. apply no_new_trans.
Qed.

Lemma download_runs_once env vod clip out w :
  exists r w1,
    download_clip_segment env vod (start_time_of clip) (end_time_of clip)
      out w = (r, w1) /\
    filter (fun ev => is_download ev = true) (trace w1)
    = (filter (fun ev => is_download ev = true) (trace w)
       ++ (if times_parse clip
           then [EvYtDlp vod
                   ("*" +:+ start_time_of clip +:+ "-" +:+ end_time_of clip)
                   out]
           else []))%list /\
    (times_parse clip = false -> exists e, r = Raise e).
Proof.
  unfold download_clip_segment, times_parse, lift_res, bind at 1 2.
  destruct (time_to_seconds (start_time_of clip)) as [s|e].
  2: { eexists _, _. split; [reflexivity|]. rewrite app_nil_r. eauto. }
  destruct (time_to_seconds (end_time_of clip)) as [s'|e].
  2: { eexists _, _. split; [reflexivity|]. rewrite app_nil_r. eauto. }
  unfold try_except, subprocess_run, bind, emit, maybe_write, write_file,
    path_exists, ret, raise.
  destruct (env_download env) as [[d|] [rc err|ex]]; simpl;
    try destruct (_ && _); eexists _, _; (split; [reflexivity|]); simpl;
    rewrite filter_app; (split; [reflexivity|done]).
Qed.

Lemma process_clip_downloads env clip vod creds i n w :
  filter (fun ev => is_download ev = true)
    (trace (process_clip env clip vod creds i n w).2)
  = (filter (fun ev => is_download ev = true) (trace w)
     ++ (if times_parse clip
         then [EvYtDlp vod
                 ("*" +:+ start_time_of clip +:+ "-" +:+ end_time_of clip)
                 (video_path_of (clip_id_of clip i))]
         else []))%list.
Proof.
  destruct (download_runs_once env vod clip
              (video_path_of (clip_id_of clip i)) w)
    as (r & w1 & Hd & Hf & _).
  rewrite <- Hf.
  assert (no_new is_download w1 (process_clip env clip vod creds i n w).2)
    as H; [|exact H].
  replace w1 with
    (download_clip_segment env vod (start_time_of clip) (end_time_of clip)
       (video_path_of (clip_id_of clip i)) w).2 by (by rewrite Hd).
  unfold process_clip.
  set (tr := process_clip_try env clip vod creds i).
  set (h := fun e : exn => ret _).
  set (fin := cleanup_temp_files _ _).
  apply no_new_trans with (try_except tr h w).2;
    [|apply (try_finally_after _ (try_except tr h) fin w),
        no_download_in_cleanup].
  apply no_new_trans with (tr w).2;
    [|apply (try_except_after _ tr h w);
        [apply no_new_refl|intros; apply respects_ret, no_new_refl]].
  unfold tr, process_clip_try. cbv zeta.
  apply (bind_after (no_new is_download)); [apply no_new_refl|]. intros ok.
  unfold capture_thumbnail_frame, subprocess_run, thumbnail_step,
    generate_thumbnail_chatgpt, generate, session_files, upload_step,
    upload_to_youtube, YouTubeUploader.__init__, rewrite_existing,
    maybe_write.
  no_new_steps is_download.
Qed.

(** X18.  Clips are attempted independently: in a batch the downloader
    runs exactly once for every clip whose start and end times can be
    read, in input order and for that clip's own segment file, whatever
    became of the clips before it; a clip with an unreadable time gets no
    run. *)
Theorem every_clip_is_attempted envs vod creds youtube_clips w :
  filter (fun ev => is_download ev = true)
    (trace (run_batch envs vod creds youtube_clips w).2)
  = (filter (fun ev => is_download ev = true) (trace w)
     ++ expected_downloads vod 0 youtube_clips)%list.
Proof.
  assert (forall todo total i results w0,
    filter (fun ev => is_download ev = true)
      (trace (process_all envs vod creds total i todo results w0).2)
    = (filter (fun ev => is_download ev = true) (trace w0)
       ++ expected_downloads vod i todo)%list) as Hall.
  { intros todo. induction todo as [|clip rest IH]; intros total i results w0.
    { simpl. by rewrite app_nil_r. }
    cbn [process_all expected_downloads].
    pose proof (process_clip_downloads (envs i) clip vod creds i total w0)
      as Hp.
    destruct (never_raises_process_clip (envs i) clip vod creds i total w0)
      as (r & w1 & E).
    rewrite E in Hp. simpl in Hp.
    rewrite (bind_Ret _ _ _ _ _ E).
    set (pause := if _ && _ then _ else _).
    assert (exists w2, pause w1 = (Ret tt, w2) /\
              filter (fun ev => is_download ev = true) (trace w2)
              = filter (fun ev => is_download ev = true) (trace w1))
      as (w2 & E2 & Hw2).
    { unfold pause. destruct (_ && _).
      - eexists. split; [reflexivity|]. simpl. rewrite filter_app.
        by rewrite filter_cons_False, filter_nil, app_nil_r.
      - by eexists. }
    rewrite (bind_Ret _ _ _ _ _ E2), IH, Hw2, Hp. by rewrite <- app_assoc. }
  unfold run_batch, save_processing_log.
  specialize (Hall youtube_clips (length youtube_clips) 0%nat [] w).
  unfold bind at 1.
  destruct (process_all _ _ _ _ _ _ _ w) as [[rs|e] w1]; simpl in *;
    [|exact Hall].
  rewrite filter_app, filter_cons_False, filter_nil, app_nil_r by done.
  exact Hall.
Qed.

(* ================================================================== *)
(** * Frame capture from the remote recording: properties              *)
(* ================================================================== *)

(** X19.  [capture_thumbnail_from_vod] never raises; when the URL query
    does not exit with status 0 it returns [False] and nothing else
    happens (the transcoder is not run); and it returns [True] exactly
    when the query and the transcoder both exited with status 0 and the
    frame file exists afterwards. *)
Theorem capture_from_vod_outcome url ffmpeg vod ts out w :
  exists b w1,
    capture_thumbnail_from_vod url ffmpeg vod ts out w = (Ret b, w1) /\
    (b = true <->
     (exists so se, url = UrlExited 0 so se) /\
     (exists err, proc_result_of ffmpeg = Exited 0 err) /\
     is_Some (fs w1 !! out)) /\
    ((forall so se, url <> UrlExited 0 so se) -> b = false /\ w1 = w).
Proof.
  unfold capture_thumbnail_from_vod.
  destruct url as [rc so se|e].
  2: { exists false, w. split; [done|]. split; [|done].
       split; [done|]. by intros [(? & ? & [=]) _]. }
  destruct (Z.eqb_spec rc 0) as [->|Hrc]; simpl negb; cbv iota.
  2: { exists false, w. split; [done|]. split; [|done].
       split; [done|]. intros [(? & ? & [= ? _ _]) _]. done. }
  set (step := try_except _ _).
  assert (exists b w1, step w = (Ret b, w1)) as (b & w1 & E).
  { unfold step. apply never_raises_try_except. eauto with noraise. }
  exists b, w1. split; [done|]. split.
  - rewrite (subprocess_step_true_iff _ _ _ _ _ _ E).
    split; [intros [? ?]; eauto|]. by intros (_ & ? & ?).
  - intros H. by destruct (H so se).
Qed.

(* ================================================================== *)
(** * The one-time code of the enhancer: properties                    *)
(* ================================================================== *)

Import ThumbnailGenerator.

(** A list of characters cut out of a text between two characters is
    the division of its own bytes into characters. *)
Lemma chunked_chars s :
  PyStr.chunks (concat (PyStr.chars s)) = PyStr.chars s.
Proof. unfold PyStr.chars. by rewrite concat_chunks. Qed.

Lemma chunked_tail (c : list ascii) cs :
  PyStr.chunks (concat (c :: cs)) = c :: cs ->
  PyStr.chunks (concat cs) = cs.
Proof.
  simpl. intros H.
  destruct (decide (c ++ concat cs = [])%list) as [E|Hne];
    [rewrite E in H; discriminate|].
  pose proof (first_len_le_length _ Hne) as Hk.
  rewrite chunks_unfold in H by done. injection H as Hc Hcs.
  assert (length c = PyStr.first_len (c ++ concat cs)) as Hlen.
  { rewrite <- Hc at 1. rewrite length_take. lia. }
  rewrite <- Hlen, drop_app_length in Hcs. done.
Qed.

Lemma chunked_drop n : forall cs : list (list ascii),
  PyStr.chunks (concat cs) = cs ->
  PyStr.chunks (concat (drop n cs)) = drop n cs.
Proof.
  induction n as [|n IH]; intros [|c cs] H; try done.
  simpl. apply IH. by eapply chunked_tail.
Qed.

Lemma chunked_take n (cs : list (list ascii)) :
  PyStr.chunks (concat cs) = cs ->
  PyStr.chunks (concat (take n cs)) = take n cs.
Proof. intros H. rewrite <- H. apply chunks_take. Qed.

Lemma after_literal_drop literal : forall cs rest,
  after_literal literal cs = Some rest -> rest = drop (length literal) cs.
Proof.
  induction literal as [|a literal IH]; intros [|c cs] rest; simpl;
    try discriminate; try (by intros [= <-]).
  case_decide; [apply IH|discriminate].
Qed.

Lemma six_digits_shape cs code :
  PyStr.chunks (concat cs) = cs ->
  six_digits cs = Some code ->
  PyStr.str_len code = 6%nat /\
  Forall (fun cp => is_Some (PyStr.decimal cp)) (PyStr.code_points code).
Proof.
  intros Hcs. unfold six_digits. cbv zeta.
  destruct (Nat.eqb_spec (length (take 6 cs)) 6) as [Hlen|]; [|discriminate].
  destruct (forallb is_digit (take 6 cs)) eqn:Hd; [|discriminate].
  simpl. intros [= <-].
  assert (PyStr.chars (PyStr.str_of_chars (take 6 cs)) = take 6 cs) as E
    by (rewrite chars_of_chars; by apply chunked_take).
  unfold PyStr.str_len, PyStr.code_points. rewrite E. split; [done|].
  apply Forall_fmap, Forall_forall. intros c Hc.
  rewrite forallb_forall in Hd. apply list_elem_of_In, Hd in Hc.
  unfold is_digit in Hc. by apply bool_decide_eq_true in Hc.
Qed.

Lemma match_here_shape cs code :
  PyStr.chunks (concat cs) = cs ->
  match_here cs = Some code ->
  PyStr.str_len code = 6%nat /\
  Forall (fun cp => is_Some (PyStr.decimal cp)) (PyStr.code_points code).
Proof.
  intros Hcs. unfold match_here.
  destruct (after_literal _ cs) as [rest|] eqn:E; [|discriminate].
  apply after_literal_drop in E as ->.
  apply six_digits_shape. by apply chunked_drop.
Qed.

Lemma search_code_shape subject code :
  search_code subject = Some code ->
  PyStr.str_len code = 6%nat /\
  Forall (fun cp => is_Some (PyStr.decimal cp)) (PyStr.code_points code).
Proof.
  unfold search_code. pose proof (chunked_chars subject) as Hcs.
  revert Hcs. generalize (PyStr.chars subject). intros cs.
  induction cs as [|c cs IH]; intros Hcs; cbn [search_chars];
    destruct (match_here _) as [found|] eqn:E; try discriminate.
  - intros [= ->]. by eapply match_here_shape.
  - apply IH. by eapply chunked_tail.
Qed.

Lemma scan_messages_shape start msgs code :
  scan_messages start msgs = Ret (Some code) ->
  PyStr.str_len code = 6%nat /\
  Forall (fun cp => is_Some (PyStr.decimal cp)) (PyStr.code_points code).
Proof.
  induction msgs as [|[m|e] msgs IH]; simpl; try discriminate.
  destruct (older_than start m); [exact IH|].
  destruct (search_code _) eqn:E; [|exact IH].
  intros [= <-]. by eapply search_code_shape.
Qed.

Lemma poll_loop_code polls start interval remaining : forall attempt w code w',
  poll_loop polls start interval attempt remaining w = (Ret code, w') ->
  (PyStr.str_len code = 6%nat /\
   Forall (fun cp => is_Some (PyStr.decimal cp)) (PyStr.code_points code)) /\
  exists k, (k < remaining)%nat /\
            trace w' = (trace w ++ replicate k (EvSleep interval))%list.
Proof.
  induction remaining as [|remaining IH]; intros attempt w code w';
    simpl; [discriminate|].
  destruct (polls attempt) as [msgs|e]; [|discriminate].
  destruct (scan_messages start msgs) as [[c|]|e] eqn:E; [| |discriminate].
  - intros [= <- <-]. split; [by eapply scan_messages_shape|].
    exists 0%nat. split; [lia|]. simpl. by rewrite app_nil_r.
  - unfold bind, emit. intros H. apply IH in H as [Hc (k & Hk & Ht)].
    split; [done|]. exists (S k). split; [lia|].
    rewrite Ht. simpl. by rewrite <- app_assoc.
Qed.

(** X20.  A code returned by [_get_chatgpt_code] is always made of
    exactly six characters, each of them a decimal digit as [\d] matches
    them (of any script, not only [0] to [9]), and it is returned after
    fewer sleeps than [max_attempts]: the function sleeps only after a
    listing that yielded no code. *)
Theorem chatgpt_code_is_six_digits polls start max_attempts interval w code
    w' :
  _get_chatgpt_code polls start max_attempts interval w = (Ret code, w') ->
  PyStr.str_len code = 6%nat /\
  Forall (fun cp => is_Some (PyStr.decimal cp)) (PyStr.code_points code) /\
  exists k, (k < max_attempts)%nat /\
            trace w' = (trace w ++ replicate k (EvSleep interval))%list.
Proof.
  intros H. apply poll_loop_code in H as [[? ?] ?]. auto.
Qed.

Lemma chatgpt_code_is_six_digits_witness :
  PyStr.str_len "٤٨٢٩١٣" = 6%nat /\
  Forall (fun cp => is_Some (PyStr.decimal cp)) (PyStr.code_points "٤٨٢٩١٣") /\
  exists k, (k < 30)%nat /\
    trace (mkWorld ∅ [EvSleep 2])
    = (trace empty_world ++ replicate k (EvSleep 2))%list.
Proof.
  apply (chatgpt_code_is_six_digits
           (fun attempt =>
              if Nat.eqb attempt 0 then Ret []
              else Ret [Ret (mkMessage (Some 1700000000500)
                               [("Subject", "Your ChatGPT code is ٤٨٢٩١٣ now")])])
           1700000000000000 30 2 empty_world).
  vm_compute. reflexivity.
Defined.

Lemma poll_loop_timeout polls start interval remaining : forall attempt w,
  (forall k, (k < remaining)%nat ->
     exists msgs, polls (attempt + k)%nat = Ret msgs /\
                  scan_messages start msgs = Ret None) ->
  poll_loop polls start interval attempt remaining w
  = (Raise (OSError "❌ Tempo esgotado aguardando o email com o código."),
     mkWorld (fs w) (trace w ++ replicate remaining (EvSleep interval))).
Proof.
  induction remaining as [|remaining IH]; intros attempt w Hp; simpl.
  { unfold raise. rewrite app_nil_r. by destruct w. }
  destruct (Hp 0%nat ltac:(lia)) as (msgs & Hm & Hs).
  rewrite Nat.add_0_r in Hm. rewrite Hm, Hs.
  unfold bind, emit. rewrite IH.
  - simpl. by rewrite <- app_assoc.
  - intros k Hk. destruct (Hp (S k) ltac:(lia)) as (ms & H1 & H2).
    exists ms. split; [|done]. rewrite <- H1. f_equal. lia.
Qed.

(** X21.  When none of the first [max_attempts] listings of the inbox
    yields a code (no message that is recent enough has the code in its
    subject), [_get_chatgpt_code] raises its time-out error after exactly
    [max_attempts] sleeps; with [max_attempts = 0] it raises at once. *)
Theorem chatgpt_code_times_out polls start max_attempts interval w :
  (forall k, (k < max_attempts)%nat ->
     exists msgs, polls k = Ret msgs /\ scan_messages start msgs = Ret None) ->
  _get_chatgpt_code polls start max_attempts interval w
  = (Raise (OSError "❌ Tempo esgotado aguardando o email com o código."),
     mkWorld (fs w) (trace w ++ replicate max_attempts (EvSleep interval))).
Proof. intros H. by apply poll_loop_timeout. Qed.

Lemma chatgpt_code_times_out_witness :
  _get_chatgpt_code
    (fun _ => Ret [Ret (mkMessage (Some 1600000000000)
                          [("Subject", "Your ChatGPT code is 111111")])])
    1700000000000000 3 2 empty_world
  = (Raise (OSError "❌ Tempo esgotado aguardando o email com o código."),
     mkWorld (fs empty_world)
       (trace empty_world ++ replicate 3 (EvSleep 2))).
Proof.
  apply chatgpt_code_times_out. intros k _. eexists. split; reflexivity.
Defined.

Lemma after_literal_app literal : forall rest,
  after_literal literal (literal ++ rest) = Some rest.
Proof.
  induction literal as [|a literal IH]; intros rest; simpl; [done|].
  by rewrite decide_True.
Qed.

Lemma concat_singletons (l : list ascii) : concat ((fun a => [a]) <$> l) = l.
Proof. induction l as [|a l IH]; [done|]. csimpl. by rewrite IH. Qed.

Lemma six_digits_found code tail :
  String.length code = 6%nat -> all_digits code = true ->
  six_digits (((fun a => [a]) <$> list_ascii_of_string code) ++ tail)
  = Some code.
Proof.
  intros Hl Hd.
  set (group := (fun a => [a]) <$> list_ascii_of_string code).
  assert (length group = 6%nat) as Hlen.
  { unfold group. rewrite length_fmap. rewrite <- Hl.
    clear. induction code; simpl; by rewrite ?IHcode. }
  assert (forallb is_digit group = true) as Hdig.
  { unfold group. clear Hl Hlen group.
    induction code as [|a code IH]; [done|].
    apply all_digits_cons in Hd as [[d Ha] Hd].
    change (is_digit [a]
            && forallb is_digit ((fun a => [a]) <$> list_ascii_of_string code)
            = true).
    rewrite (IH Hd), andb_true_r.
    unfold is_digit. apply bool_decide_eq_true.
    pose proof (digit_val_byte _ _ Ha) as [Hb Hr].
    unfold PyStr.code_point.
    destruct (Z.ltb_spec (PyStr.byte a) 128); [|lia].
    rewrite (digit_val_decimal _ _ Ha). eauto. }
  unfold six_digits. cbv zeta.
  rewrite take_app_length' by done. rewrite Hlen, Hdig. simpl.
  unfold PyStr.str_of_chars, group.
  by rewrite concat_singletons, string_of_list_ascii_of_string.
Qed.

Lemma search_code_found code tail :
  String.length code = 6%nat -> all_digits code = true ->
  search_code (code_prefix +:+ code +:+ tail) = Some code.
Proof.
  intros Hl Hd. unfold search_code.
  rewrite chars_ascii_app
    by (unfold ascii_only; repeat constructor; vm_compute; done).
  rewrite chars_ascii_app by (by apply all_digits_ascii_only).
  assert (match_here
            (((fun a => [a]) <$> list_ascii_of_string code_prefix)
             ++ ((fun a => [a]) <$> list_ascii_of_string code)
             ++ PyStr.chars tail)%list = Some code) as E.
  { unfold match_here.
    rewrite chars_ascii
      by (unfold ascii_only; repeat constructor; vm_compute; done).
    rewrite after_literal_app. by apply six_digits_found. }
  destruct (_ ++ _)%list; cbn [search_chars]; by rewrite E.
Qed.

Lemma scan_messages_skips_older start older later :
  Forall (fun m => older_than start m = true) older ->
  scan_messages start ((Ret <$> older) ++ later)%list
  = scan_messages start later.
Proof.
  induction 1 as [|m older Hm _ IH]; simpl; [done|]. by rewrite Hm.
Qed.

(** X22.  When the first listing holds a message that is not older than
    the start of the wait and whose subject is ["Your ChatGPT code is "]
    followed by six decimal digits, and every message listed before it
    is older than the start, [_get_chatgpt_code] returns those six
    digits at once: it does not sleep, and the messages listed after it
    are not fetched (fetching them could raise, and nothing is
    raised). *)
Theorem fresh_code_is_returned polls start max_attempts interval w older m
    rest code tail :
  (0 < max_attempts)%nat ->
  polls 0%nat = Ret ((Ret <$> older) ++ Ret m :: rest)%list ->
  Forall (fun m' => older_than start m' = true) older ->
  older_than start m = false ->
  subject_of (headers m) = code_prefix +:+ code +:+ tail ->
  String.length code = 6%nat ->
  all_digits code = true ->
  _get_chatgpt_code polls start max_attempts interval w = (Ret code, w).
Proof.
  intros Hmax Hp Hold Hm Hs Hl Hd. unfold _get_chatgpt_code.
  destruct max_attempts as [|k]; [lia|]. simpl. rewrite Hp.
  rewrite scan_messages_skips_older by done. simpl.
  rewrite Hm, Hs, search_code_found by done. done.
Qed.

Lemma fresh_code_is_returned_witness :
  _get_chatgpt_code
    (fun _ =>
       Ret ((Ret <$> [mkMessage (Some 1600000000000)
                        [("Subject", "Your ChatGPT code is 111111")]])
            ++ Ret (mkMessage (Some 1700000000500)
                      [("From", "noreply@tm.openai.com");
                       ("SUBJECT", "Your ChatGPT code is 482913")])
            :: [Raise (OSError "connection reset")])%list)
    1700000000000000 30 2 empty_world
  = (Ret "482913", empty_world).
Proof.
  apply (fresh_code_is_returned _ _ _ _ _
           [mkMessage (Some 1600000000000)
              [("Subject", "Your ChatGPT code is 111111")]]
           (mkMessage (Some 1700000000500)
              [("From", "noreply@tm.openai.com");
               ("SUBJECT", "Your ChatGPT code is 482913")])
           [Raise (OSError "connection reset")] "482913" "");
    [lia | reflexivity | | reflexivity | reflexivity | reflexivity
    | reflexivity].
  repeat constructor.
Defined.
